(** * decompyle3: the [iflaststmt] reduction check and the source walker

    A shallow embedding of
    - [decompyle3/parsers/reducecheck/iflaststmt.py] (the predicate the
      parser consults before it reduces an "if, ending the block" rule), and
    - the output buffer, the scope stack and a few node handlers of
      [decompyle3/semantics/pysource.py] ([SourceWalker]).

    Python values, exceptions and the built-in operations the two files rely
    on are modelled first; every definition below names the source lines it
    is translated from. *)

From Stdlib Require Import ZArith Lia List String Ascii Bool DecimalString.
From stdpp Require Import base option list gmap strings.

Set Warnings "-register-all".

Local Open Scope string_scope.
Local Open Scope Z_scope.

(** ** Python values, exceptions and built-ins *)

Module Py.

(** Operand values as far as the modelled code inspects them: [None],
    integers and strings. *)
Inductive pyval : Type :=
| VNone
| VInt (z : Z)
| VStr (s : string).

#[export] Instance pyval_eq_dec : EqDecision pyval.
Proof. solve_decision. Defined.

(** The exceptions the modelled code can raise.  [OutOfFuel] is not a Python
    exception: it marks a loop of the model that was given too few steps, and
    is shown never to happen where a loop is used. *)
Inductive exn : Type :=
| IndexError
| KeyError
| TypeError
| AttributeError
| AssertionError
| GenericASTTraversalPruningException
| SourceWalkerError (errmsg : string)
| OutOfFuel.

Inductive outcome (A : Type) : Type :=
| Ret (a : A)
| Raise (e : exn).
Arguments Ret {A} a.
Arguments Raise {A} e.

#[export] Instance outcome_ret : MRet outcome := fun A a => Ret a.
#[export] Instance outcome_bind : MBind outcome := fun A B f m =>
  match m with
  | Ret a => f a
  | Raise e => Raise e
  end.

(** [l[i]] on a Python list: a negative index counts from the end, anything
    outside [-len, len) raises [IndexError]. *)
Definition py_index {A : Type} (l : list A) (i : Z) : outcome A :=
  let len := Z.of_nat (length l) in
  let j := if i <? 0 then i + len else i in
  if (j <? 0) || (len <=? j) then Raise IndexError
  else match l !! Z.to_nat j with
       | Some x => Ret x
       | None => Raise IndexError
       end.

(** [d[k]] on a dict. *)
Definition py_dict_get (d : gmap Z Z) (k : Z) : outcome Z :=
  match d !! k with
  | Some v => Ret v
  | None => Raise KeyError
  end.

(** [a == b] on values. *)
Definition py_eq (a b : pyval) : bool := bool_decide (a = b).

(** [a < b] and [a <= b] with an integer on the left: any other right operand
    raises [TypeError]. *)
Definition py_int_lt (a : Z) (b : pyval) : outcome bool :=
  match b with
  | VInt z => Ret (a <? z)
  | _ => Raise TypeError
  end.

Definition py_int_le (a : Z) (b : pyval) : outcome bool :=
  match b with
  | VInt z => Ret (a <=? z)
  | _ => Raise TypeError
  end.

(** [a < b] and [a > b] with an integer on the right. *)
Definition py_lt_int (a : pyval) (b : Z) : outcome bool :=
  match a with
  | VInt z => Ret (z <? b)
  | _ => Raise TypeError
  end.

Definition py_gt_int (a : pyval) (b : Z) : outcome bool :=
  match a with
  | VInt z => Ret (b <? z)
  | _ => Raise TypeError
  end.

(** [s.startswith(p)]. *)
Definition startswith (s p : string) : bool := String.prefix p s.

(** [x in (s1, s2, ...)] for strings. *)
Definition str_in (x : string) (l : list string) : bool :=
  bool_decide (x ∈ l).

End Py.
Export Py.

(** ** Tokens and syntax trees *)

Module Tree.

(** Modelled from the spec: the classes [Token] (decompyle3/scanners/tok.py)
    and [SyntaxTree] (decompyle3/parsers/treenode.py) are not part of the two
    files.  A token carries [kind], [attr], [pattr] and an integer [offset];
    a nonterminal carries [kind] and its ordered children.  Comparing either
    with a string compares [kind]; indexing a token raises [IndexError];
    [off2int] of an integer offset is that integer. *)
Record Token : Type := mkToken {
  kind : string;
  attr : pyval;
  pattr : pyval;
  offset : Z
}.

(** Modelled from the spec: a tree node is a token or a nonterminal
    ([SyntaxTree]) that owns its children. *)
Inductive node : Type :=
| Tok (t : Token)
| SyntaxTree (k : string) (children : list node).

Definition node_kind (nd : node) : string :=
  match nd with
  | Tok t => kind t
  | SyntaxTree k _ => k
  end.

(** [nd == s] for a string [s], and [nd in (s1, ...)]. *)
Definition node_is (nd : node) (s : string) : bool :=
  bool_decide (node_kind nd = s).

Definition node_in (nd : node) (l : list string) : bool :=
  str_in (node_kind nd) l.

Definition tok_is (t : Token) (s : string) : bool :=
  bool_decide (kind t = s).

(** [nd[i]]. *)
Definition getitem (nd : node) (i : Z) : outcome node :=
  match nd with
  | Tok _ => Raise IndexError
  | SyntaxTree _ children => py_index children i
  end.

(** [len(nd)]: a token has no length. *)
Definition py_len (nd : node) : outcome Z :=
  match nd with
  | Tok _ => Raise TypeError
  | SyntaxTree _ children => Ret (Z.of_nat (length children))
  end.

(** Modelled from the spec: [SyntaxTree.first_child] of treenode.py, which
    line 31 of iflaststmt.py uses to find the first instruction of the body:
    the leftmost leaf, or the node itself when it has no children. *)
Fixpoint first_child_of (nd : node) : node :=
  match nd with
  | Tok t => Tok t
  | SyntaxTree _ [] => nd
  | SyntaxTree _ (Tok t :: _) => Tok t
  | SyntaxTree _ ((SyntaxTree _ _ as child) :: _) => first_child_of child
  end.

(** [nd.first_child()]: only a nonterminal has the method. *)
Definition first_child (nd : node) : outcome node :=
  match nd with
  | Tok _ => Raise AttributeError
  | SyntaxTree _ _ => Ret (first_child_of nd)
  end.

(** [nd.off2int(prefer_last=...)]: only a token has the method. *)
Definition off2int (nd : node) : outcome Z :=
  match nd with
  | Tok t => Ret (offset t)
  | SyntaxTree _ _ => Raise AttributeError
  end.

(** [nd.attr] and [nd.pattr]: only a token has them. *)
Definition node_attr (nd : node) : outcome pyval :=
  match nd with
  | Tok t => Ret (attr t)
  | SyntaxTree _ _ => Raise AttributeError
  end.

Definition node_pattr (nd : node) : outcome pyval :=
  match nd with
  | Tok t => Ret (pattr t)
  | SyntaxTree _ _ => Raise AttributeError
  end.

End Tree.
Export Tree.

(** ** The reduction check [iflaststmt]
    (decompyle3/parsers/reducecheck/iflaststmt.py) *)

Module Iflaststmt.

(** A decoded instruction, as far as the check reads it: [optype] is "jabs"
    for absolute jumps and "jrel" for relative ones. *)
Module Inst.
Record t : Type := mk {
  offset : Z;
  optype : string;
  argval : pyval
}.
End Inst.

(** The parser object [self]: the instruction array and the map from byte
    offset to array index. *)
Record Parser : Type := mkParser {
  insts : list Inst.t;
  offset2inst_index : gmap Z Z
}.

(** A grammar rule: left-hand side and right-hand side symbols. *)
Definition rule_t : Type := string * list string.

(** Lines 45-52: the [while] loop looking for another jump to
    [target_offset].  [inst] is [self.insts[i]]; each round takes one unit of
    [fuel]. *)
Fixpoint scan_jumps (fuel : nat) (insts : list Inst.t) (target_offset : pyval)
    (i : Z) (inst : Inst.t) : outcome bool :=
  match fuel with
  | O => Raise OutOfFuel
  | S fuel' =>
    below ← py_int_lt (Inst.offset inst) target_offset;
    if below : bool then
      if str_in (Inst.optype inst) ["jabs"; "jrel"]
         && py_eq (Inst.argval inst) target_offset
      then Ret false
      else
        let i := i + 1 in
        inst ← py_index insts i;
        scan_jumps fuel' insts target_offset i inst
    else Ret true
  end.

(** The loop visits the indices [i, i+1, ...] and leaves with [IndexError]
    at [len(insts)] at the latest. *)
Definition scan_fuel (insts : list Inst.t) (i : Z) : nat :=
  Z.to_nat (Z.of_nat (length insts) - i).

(** Lines 24-54, the rule [iflaststmt ::= testexpr stmts]: [Some b] when the
    block returns [b], [None] when control falls through to line 56. *)
Definition variantA (self : Parser) (rule : rule_t) (ast : node)
    (tokens : list Token) (last : Z) : outcome (option bool) :=
  if bool_decide (rule = ("iflaststmt", ["testexpr"; "stmts"])) then
    stmts ← getitem ast 1;
    leaf ← first_child stmts;
    stmt_offset ← off2int leaf;
    inst_offset ← py_dict_get (offset2inst_index self) stmt_offset;
    testexpr_last_inst ← py_index (insts self) (inst_offset - 1);
    if bool_decide (Inst.optype testexpr_last_inst = "jabs") then
      let target_offset := Inst.argval testexpr_last_inst in
      tok_last ← py_index tokens last;
      if negb (py_eq target_offset (VInt (offset tok_last))) then
        let i := inst_offset in
        inst ← py_index (insts self) i;
        r ← scan_jumps (scan_fuel (insts self) i) (insts self) target_offset i inst;
        Ret (Some r)
      else Ret None
    else Ret None
  else Ret None.

(** Lines 68-85: the containment test on the jump target and the two
    loop-related refinements.  [Some true] when one of them returns [True],
    [None] when control reaches line 90. *)
Definition jump_checks (n : Z) (tokens : list Token) (first last : Z)
    (jump_target : pyval) : outcome (option bool) :=
  tok_first ← py_index tokens first;
  let first_offset := offset tok_first in
  lower ← py_int_le first_offset jump_target;
  inside ← (if lower : bool
            then tok_last ← py_index tokens last;
                 py_lt_int jump_target (offset tok_last)
            else Ret false);
  if inside : bool then Ret (Some true)
  else if last + 1 <? n then
    tok_prev ← py_index tokens (last - 1);
    if tok_is tok_prev "JUMP_BACK" then
      after_first ← py_gt_int jump_target first_offset;
      if after_first : bool then Ret (Some true) else Ret None
    else
      tok_next ← py_index tokens (last + 1);
      if tok_is tok_next "COME_FROM_LOOP" then
        tok_last ← py_index tokens last;
        if negb (tok_is tok_last "BREAK_LOOP") then Ret (Some true) else Ret None
      else Ret None
  else Ret None.

(** Lines 90-98: the preceding [POP_JUMP_IF_FALSE] test, then the
    past-the-end test; line 100 when neither returns. *)
Definition chained_checks (tokens : list Token) (first last : Z)
    (jump_target : pyval) : outcome bool :=
  chained ← (if 0 <? first
             then tok_before ← py_index tokens (first - 1);
                  Ret (tok_is tok_before "POP_JUMP_IF_FALSE")
             else Ret false);
  if chained : bool then
    tok_before ← py_index tokens (first - 1);
    Ret (py_eq (attr tok_before) jump_target)
  else
    tok_last ← py_index tokens last;
    beyond ← py_gt_int jump_target (offset tok_last);
    if beyond : bool then
      tok_prev ← py_index tokens (last - 1);
      if py_eq jump_target (attr tok_prev) then Ret false else Ret false
    else Ret false.

(** Line 65: [if last == n: last -= 1]. *)
Definition clip_last (n last : Z) : Z :=
  if last =? n then last - 1 else last.

(** Lines 56-100. *)
Definition variantB (n : Z) (rule : rule_t) (testexpr : node)
    (tokens : list Token) (first last : Z) : outcome bool :=
  test ← getitem testexpr 0;
  if node_in test ["testtrue"; "testtruec"; "testfalse"; "testfalsec"] then
    test_len ← py_len test;
    and_rule ← (if test_len =? 1
                then test0 ← getitem test 0;
                     Ret (node_in test0 ["nand"; "and"]
                          && bool_decide (rule.2 = ["testexpr"; "stmts"]))
                else Ret false);
    if and_rule : bool then Ret true
    else
      has_jump ← (if 1 <? test_len
                  then test1 ← getitem test 1;
                       Ret (startswith (node_kind test1) "POP_JUMP_IF_")
                  else Ret false);
      if has_jump : bool then
        let last := clip_last n last in
        test1 ← getitem test 1;
        jump_target ← node_attr test1;
        r ← jump_checks n tokens first last jump_target;
        match r with
        | Some b => Ret b
        | None => chained_checks tokens first last jump_target
        end
      else Ret false
  else Ret false.

(** Line 21: [if tokens[last] == "RETURN_LAST": last -= 1]. *)
Definition adjust_last (tokens : list Token) (last : Z) : outcome Z :=
  tok_last ← py_index tokens last;
  Ret (if tok_is tok_last "RETURN_LAST" then last - 1 else last).

(** The whole predicate, lines 15-100: [Ret true] rejects the reduction,
    [Ret false] accepts it. *)
Definition iflaststmt (self : Parser) (lhs : string) (n : Z) (rule : rule_t)
    (ast : node) (tokens : list Token) (first last : Z) : outcome bool :=
  testexpr ← getitem ast 0;
  last ← adjust_last tokens last;
  r ← variantA self rule ast tokens last;
  match r with
  | Some b => Ret b
  | None => variantB n rule testexpr tokens first last
  end.

(** *** Sample inputs *)

Definition tok (k : string) (a : pyval) (off : Z) : Token :=
  mkToken k a a off.

(** Three tokens at offsets 10, 20 and 30. *)
Definition tokens3 : list Token :=
  [tok "LOAD_NAME" (VStr "a") 10; tok "LOAD_NAME" (VStr "b") 20;
   tok "JUMP_BACK" (VInt 4) 30].

(** [testexpr ::= testfalse], [testfalse ::= expr POP_JUMP_IF_TRUE] with the
    branch at offset 12 jumping to [target]. *)
Definition testexpr_to (target : Z) : node :=
  SyntaxTree "testexpr"
    [SyntaxTree "testfalse"
       [SyntaxTree "expr" [Tok (tok "LOAD_NAME" (VStr "a") 10)];
        Tok (tok "POP_JUMP_IF_TRUE" (VInt target) 12)]].

Definition body20 (k : string) : node :=
  SyntaxTree k [SyntaxTree "stmt" [Tok (tok "LOAD_NAME" (VStr "b") 20)]].

Definition ast_c (target : Z) : node :=
  SyntaxTree "iflaststmtc" [testexpr_to target; body20 "c_stmts"].

Definition rule_c : rule_t := ("iflaststmtc", ["testexpr"; "c_stmts"]).

Definition no_insts : Parser := mkParser [] ∅.

End Iflaststmt.


(** ** Python string operations used by the source walker

    A [str] is modelled as a [string]: a sequence of 8-bit characters, read
    as the code points below 256. *)

Module PyStr.

Definition nl : ascii := "010"%char.
Definition tab : ascii := "009"%char.
Definition cr : ascii := "013"%char.
Definition dquote : ascii := "034"%char.
Definition squote : ascii := "'"%char.
Definition backslash : ascii := "\"%char.

Definition str1 (c : ascii) : string := String c "".

(** ["\n" * n] *)
Fixpoint newlines (n : nat) : string :=
  match n with
  | O => ""
  | S k => String nl (newlines k)
  end.

(** [" " * n] *)
Fixpoint spaces (n : nat) : string :=
  match n with
  | O => ""
  | S k => String " " (spaces k)
  end.

(** [s.find(sub)]: the first index where [sub] occurs, or [-1]. *)
Fixpoint find_from (sub s : string) (start : Z) : Z :=
  if String.prefix sub s then start
  else match s with
       | "" => -1
       | String _ s' => find_from sub s' (start + 1)
       end.

Definition find (s sub : string) : Z := find_from sub s 0.

(** [sub in s] *)
Definition contains (s sub : string) : bool := 0 <=? find s sub.

(** [s.replace(old, new)] for a non-empty [old] (it is a literal or the
    triple quote at every use): occurrences are replaced left to right,
    without overlap.  [skip] counts the characters of a match still to be
    dropped. *)
Fixpoint replace_skip (old new : string) (skip : nat) (s : string) : string :=
  match s with
  | "" => ""
  | String c s' =>
    match skip with
    | S k => replace_skip old new k s'
    | O =>
      if String.prefix old s
      then new +:+ replace_skip old new (String.length old - 1) s'
      else String c (replace_skip old new O s')
    end
  end.

Definition replace (s old new : string) : string := replace_skip old new O s.

(** [s.split(sep)] for a one-character separator: never an empty list. *)
Fixpoint split (sep : ascii) (s : string) : list string :=
  match s with
  | "" => [""]
  | String c s' =>
    if Ascii.eqb c sep then "" :: split sep s'
    else match split sep s' with
         | piece :: rest => String c piece :: rest
         | [] => [str1 c]
         end
  end.

(** [s.expandtabs()], tab size 8: [col] is the column in the current line. *)
Fixpoint expandtabs_from (col : nat) (s : string) : string :=
  match s with
  | "" => ""
  | String c s' =>
    if Ascii.eqb c tab then
      let incr := (8 - col mod 8)%nat in
      spaces incr +:+ expandtabs_from (col + incr) s'
    else
      String c (expandtabs_from
                  (if Ascii.eqb c nl || Ascii.eqb c cr then O else S col) s')
  end.

Definition expandtabs (s : string) : string := expandtabs_from O s.

(** [repr(s)] of a string.  The quote is the double quote exactly when the
    text holds a single quote and no double quote. *)
Definition has_char (c : ascii) (s : string) : bool :=
  existsb (Ascii.eqb c) (list_ascii_of_string s).

Definition repr_quote (s : string) : ascii :=
  if has_char squote s && negb (has_char dquote s) then dquote else squote.

Definition hex_digit (d : N) : ascii :=
  match String.get (N.to_nat d) "0123456789abcdef" with
  | Some c => c
  | None => "0"%char
  end.

Definition hex_escape (c : ascii) : string :=
  let code := N_of_ascii c in
  "\x" +:+ String (hex_digit (code / 16)%N) (str1 (hex_digit (code mod 16)%N)).

(** Printable code points below 256: the visible ASCII range, and 161-255
    without the soft hyphen 173. *)
Definition isprintable (c : ascii) : bool :=
  let code := N_of_ascii c in
  ((32 <=? code) && (code <? 127) || (161 <=? code) && negb (code =? 173))%N.

Definition repr_char (q c : ascii) : string :=
  if Ascii.eqb c q || Ascii.eqb c backslash then String backslash (str1 c)
  else if Ascii.eqb c tab then "\t"
  else if Ascii.eqb c nl then "\n"
  else if Ascii.eqb c cr then "\r"
  else if isprintable c then str1 c
  else hex_escape c.

Fixpoint repr_body (q : ascii) (s : string) : string :=
  match s with
  | "" => ""
  | String c s' => repr_char q c +:+ repr_body q s'
  end.

Definition repr (s : string) : string :=
  let q := repr_quote s in
  String q (repr_body q s +:+ str1 q).

(** [s[:k]] for [0 <= k], [s[1:-1]] and [s[:-k]] for [0 < k]. *)
Definition take (k : nat) (s : string) : string := substring 0 k s.

Definition strip_ends (s : string) : string :=
  substring 1 (String.length s - 2) s.

Definition drop_last (k : nat) (s : string) : string :=
  take (String.length s - k) s.

(** [s[n:]] for [0 <= n] *)
Fixpoint drop (n : nat) (s : string) : string :=
  match n, s with
  | O, _ => s
  | S _, "" => ""
  | S k, String _ s' => drop k s'
  end.

(** [s[-k]] for [0 < k]: [None] stands for [IndexError]. *)
Definition from_end (k : nat) (s : string) : option ascii :=
  if (String.length s <? k)%nat then None
  else String.get (String.length s - k) s.

(** The number of characters equal to ["\n"] at the front of a sequence. *)
Fixpoint leading_newlines (cs : list ascii) : nat :=
  match cs with
  | c :: cs' => if Ascii.eqb c nl then S (leading_newlines cs') else O
  | [] => O
  end.

(** The number of newlines at the end of [s], as the loop of lines 474-478
    of pysource.py counts them, and whether [s] starts with a character other
    than a newline. *)
Definition trailing_newlines (s : string) : nat :=
  leading_newlines (rev (list_ascii_of_string s)).

Definition starts_plain (s : string) : bool :=
  match s with
  | String c _ => negb (Ascii.eqb c nl)
  | "" => false
  end.

(** [str(v)], [repr(v)] and the truth value of [v]. *)
Definition decimal (z : Z) : string := NilZero.string_of_int (Z.to_int z).

Definition py_str (v : pyval) : string :=
  match v with
  | VNone => "None"
  | VInt z => decimal z
  | VStr s => s
  end.

Definition py_repr (v : pyval) : string :=
  match v with
  | VNone => "None"
  | VInt z => decimal z
  | VStr s => repr s
  end.

Definition truthy (v : pyval) : bool :=
  match v with
  | VNone => false
  | VInt z => negb (z =? 0)
  | VStr s => negb (String.eqb s "")
  end.

(** [sorted(names)] on strings: insertion sort by the code-point order. *)
Fixpoint insert_sorted (x : string) (l : list string) : list string :=
  match l with
  | [] => [x]
  | y :: l' => if String.leb x y then x :: l else y :: insert_sorted x l'
  end.

Definition sorted (l : list string) : list string :=
  foldr insert_sorted [] l.

(** [a <= b] on tuples of integers. *)
Fixpoint tuple_le (a b : list Z) : bool :=
  match a, b with
  | [], _ => true
  | _ :: _, [] => false
  | x :: a', y :: b' => (x <? y) || (x =? y) && tuple_le a' b'
  end.

End PyStr.
Export PyStr.

(** ** The source walker (decompyle3/semantics/pysource.py) *)

Module Pysource.

(** The per-scope parameter bundle [self.params], a dict.  [f] holds the
    text written so far to the scope's stream; a key that a bundle may lack
    is an [option]. *)
Record Params : Type := mkParams {
  f : string;
  indent : string;
  is_lambda : option bool;
  _globals : option (list string);
  _nonlocals : option (list string)
}.

(** The [debug_opts] dict: the keys of [DEFAULT_DEBUG_OPTS], lines 191-195. *)
Record DebugOpts : Type := mkDebugOpts {
  asm : bool;
  tree : bool * bool;
  grammar : list (string * bool)
}.

(** The fields of [SourceWalker] that the modelled methods read or write
    (lines 249-306).  [param_stack] has its top at the head. *)
Record SourceWalker : Type := mkSourceWalker {
  version : list Z;
  params : Params;
  param_stack : list Params;
  ERROR : pyval;
  prec : Z;
  return_none : bool;
  mod_globs : list string;
  pending_newlines : nat;
  ast_errors : list string;
  name : option string;
  debug_opts : option DebugOpts;
  text : option string
}.

Definition set_params (p : Params) (self : SourceWalker) : SourceWalker :=
  mkSourceWalker (version self) p (param_stack self) (ERROR self) (prec self)
    (return_none self) (mod_globs self) (pending_newlines self)
    (ast_errors self) (name self) (debug_opts self) (text self).

Definition set_param_stack (st : list Params) (self : SourceWalker) : SourceWalker :=
  mkSourceWalker (version self) (params self) st (ERROR self) (prec self)
    (return_none self) (mod_globs self) (pending_newlines self)
    (ast_errors self) (name self) (debug_opts self) (text self).

Definition set_prec (p : Z) (self : SourceWalker) : SourceWalker :=
  mkSourceWalker (version self) (params self) (param_stack self) (ERROR self) p
    (return_none self) (mod_globs self) (pending_newlines self)
    (ast_errors self) (name self) (debug_opts self) (text self).

Definition set_return_none (b : bool) (self : SourceWalker) : SourceWalker :=
  mkSourceWalker (version self) (params self) (param_stack self) (ERROR self)
    (prec self) b (mod_globs self) (pending_newlines self)
    (ast_errors self) (name self) (debug_opts self) (text self).

Definition set_pending_newlines (n : nat) (self : SourceWalker) : SourceWalker :=
  mkSourceWalker (version self) (params self) (param_stack self) (ERROR self)
    (prec self) (return_none self) (mod_globs self) n
    (ast_errors self) (name self) (debug_opts self) (text self).

Definition set_name (s : option string) (self : SourceWalker) : SourceWalker :=
  mkSourceWalker (version self) (params self) (param_stack self) (ERROR self)
    (prec self) (return_none self) (mod_globs self) (pending_newlines self)
    (ast_errors self) s (debug_opts self) (text self).

Definition set_debug_opts (d : option DebugOpts) (self : SourceWalker) : SourceWalker :=
  mkSourceWalker (version self) (params self) (param_stack self) (ERROR self)
    (prec self) (return_none self) (mod_globs self) (pending_newlines self)
    (ast_errors self) (name self) d (text self).

Definition set_text (s : option string) (self : SourceWalker) : SourceWalker :=
  mkSourceWalker (version self) (params self) (param_stack self) (ERROR self)
    (prec self) (return_none self) (mod_globs self) (pending_newlines self)
    (ast_errors self) (name self) (debug_opts self) s.

(** [self.f.write(s)]: append to the stream of the current scope. *)
Definition f_write (s : string) (self : SourceWalker) : SourceWalker :=
  let p := params self in
  set_params (mkParams (f p +:+ s) (indent p) (is_lambda p) (_globals p)
                (_nonlocals p)) self.

(** A method of the walker: it runs on the walker's state, and returns a
    value or raises; the state changes made before a raise stay. *)
Definition M (A : Type) : Type := SourceWalker → outcome A * SourceWalker.

#[export] Instance M_ret : MRet M := fun A a self => (Ret a, self).
#[export] Instance M_bind : MBind M := fun A B k m self =>
  match m self with
  | (Ret a, self') => k a self'
  | (Raise e, self') => (Raise e, self')
  end.

Definition get_self : M SourceWalker := fun self => (Ret self, self).
Definition modify (g : SourceWalker → SourceWalker) : M unit :=
  fun self => (Ret (), g self).
Definition raise {A : Type} (e : exn) : M A := fun self => (Raise e, self).
Definition lift {A : Type} (o : outcome A) : M A := fun self => (o, self).

(** [assert c] *)
Definition py_assert (c : bool) : M unit :=
  if c then mret () else raise AssertionError.

(** [self.prune()] of [GenericASTTraversal]: it raises the exception that the
    dispatching [preorder] call catches. *)
Definition prune : M unit := raise GenericASTTraversalPruningException.

(** *** [write] and [println], lines 452-487 *)

(** The outcome of the first loop of [write] (lines 457-468). *)
Inductive leading : Type :=
| OnlyNewlines (n : nat)
| StripNewlines (n : nat)
| NoNewlines.

(** Lines 457-468: [rest] is what the [for] loop has still to visit, [n] the
    newlines counted so far, [len_out] is [len(out)]. *)
Fixpoint write_leading (rest : string) (n len_out : nat) : leading :=
  match rest with
  | "" => NoNewlines
  | String i rest' =>
    if Ascii.eqb i nl then
      let n := S n in
      if (n =? len_out)%nat then OnlyNewlines n
      else write_leading rest' n len_out
    else if negb (n =? 0)%nat then StripNewlines n
    else NoNewlines
  end.

(** [len(data) == 1 and data[0] == ""], lines 453 and 485. *)
Definition only_empty (data : list string) : bool :=
  (length data =? 1)%nat && bool_decide (data !! 0%nat = Some "").

(** The test of line 453: no argument, or the one argument [""]. *)
Definition nothing_to_write (data : list string) : bool :=
  (length data =? 0)%nat || only_empty data.

(** Lines 470-482, with [out] as the first loop left it. *)
Definition write_out (out : string) (self : SourceWalker) : SourceWalker :=
  let self :=
    if (0 <? pending_newlines self)%nat
    then set_pending_newlines 0 (f_write (newlines (pending_newlines self)) self)
    else self in
  let self :=
    set_pending_newlines
      (pending_newlines self + trailing_newlines out)%nat self in
  let out :=
    if negb (pending_newlines self =? 0)%nat
    then drop_last (pending_newlines self) out
    else out in
  f_write out self.

(** [self.write]; every argument has been through [str] already. *)
Definition write (data : list string) : M unit := fun self =>
  if nothing_to_write data then (Ret (), self)
  else
    let out := String.concat "" data in
    match write_leading out 0 (String.length out) with
    | OnlyNewlines n =>
      (Ret (), set_pending_newlines (Nat.max (pending_newlines self) n) self)
    | StripNewlines n =>
      (Ret (),
       write_out (drop n out)
         (set_pending_newlines (Nat.max (pending_newlines self) n) self))
    | NoNewlines => (Ret (), write_out out self)
    end.

(** [self.println] *)
Definition println (data : list string) : M unit :=
  (if negb (length data =? 0)%nat && negb (only_empty data)
   then write data else mret ());;
  modify (fun self =>
            set_pending_newlines (Nat.max (pending_newlines self) 1) self).

(** The scope-stack flush of line 446: [self.f.write("\n" * self.pending_newlines)]. *)
Definition flush_newlines (self : SourceWalker) : SourceWalker :=
  f_write (newlines (pending_newlines self)) self.

(** A walker as [__init__] leaves it (lines 250-276), writing to an empty
    stream. *)
Definition fresh_walker (ver : list Z) : SourceWalker :=
  mkSourceWalker ver (mkParams "" "" None None None) [] VNone 100 false []
    0%nat [] None None None.

(** *** Handlers

    [preorder] is the dispatcher inherited from [GenericASTTraversal] (lines
    422-424): it calls the handler of a node and catches the pruning
    exception.  [PRECEDENCE] is the table of decompyle3/semantics/consts.py and
    [customize] the method of lines 2325-2409, which fills the template table
    of that module; the three are not part of this development and the
    handlers take them as parameters. *)

Section Handlers.

Variable preorder : node → M unit.
Variable PRECEDENCE : gmap string Z.
Variable customize_t : Type.
Variable customize : customize_t → M unit.

(** [traverse], lines 432-450. *)
Definition traverse (nd : node) (indent_arg : option string)
    (is_lambda_arg : bool) : M string :=
  modify (fun self => set_param_stack (params self :: param_stack self) self);;
  self ← get_self;
  let indent_arg :=
    match indent_arg with
    | None => indent (params self)
    | Some i => i
    end in
  let p := pending_newlines self in
  modify (set_pending_newlines 0);;
  modify (set_params (mkParams "" indent_arg (Some is_lambda_arg) (Some []) (Some [])));;
  preorder nd;;
  modify flush_newlines;;
  self ← get_self;
  let result := f (params self) in
  match param_stack self with
  | [] => raise IndexError
  | top :: rest =>
    modify (set_param_stack rest);;
    modify (set_params top);;
    modify (set_pending_newlines p);;
    mret result
  end.

(** [n_expr], lines 526-554. *)
Definition n_expr (nd : node) : M unit :=
  first ← lift (getitem nd 0);
  self ← get_self;
  let p := prec self in
  n ← (if startswith (node_kind first) "bin_op"
       then operands ← lift (getitem first (-1)); lift (getitem operands 0)
       else mret first);
  modify (set_prec (default (-2) (PRECEDENCE !! node_kind n)));;
  negative ← (if node_is n "LOAD_CONST"
              then v ← lift (node_pattr n);
                   mret (bool_decide (String.get 0 (py_repr v) = Some "-"%char))
              else mret false);
  (if negative : bool then modify (set_prec 6) else mret ());;
  self ← get_self;
  (if p <? prec self
   then write ["("];; preorder first;; write [")"]
   else preorder first);;
  modify (set_prec p);;
  prune.

(** [n_return_expr], lines 605-611. *)
Definition n_return_expr (nd : node) : M unit :=
  len ← lift (py_len nd);
  single ← (if len =? 1
            then child ← lift (getitem nd 0); mret (node_is child "expr")
            else mret false);
  if single : bool then
    yield_prec ← lift (match PRECEDENCE !! "yield" with
                       | Some y => Ret y
                       | None => Raise KeyError
                       end);
    modify (set_prec (yield_prec - 1));;
    child ← lift (getitem nd 0);
    n_expr child
  else n_expr nd.

(** [gen_source], lines 2483-2507. *)
Definition gen_source (tree : node) (name_arg : string)
    (customize_arg : customize_t) (is_lambda_arg returnNone : bool)
    (debug_opts_arg : DebugOpts) : M unit :=
  self ← get_self;
  let rn := return_none self in
  modify (set_return_none returnNone);;
  let old_name := name self in
  modify (set_name (Some name_arg));;
  modify (set_debug_opts (Some debug_opts_arg));;
  len ← lift (py_len tree);
  (if len =? 0 then
     self ← get_self;
     println [indent (params self); "pass"]
   else
     customize customize_arg;;
     t ← traverse tree None is_lambda_arg;
     modify (set_text (Some t));;
     println [t]);;
  modify (set_name old_name);;
  modify (set_return_none rn).

End Handlers.

(** [n_alias], lines 825-846. *)
Definition n_alias (nd : node) : M unit :=
  self ← get_self;
  (if tuple_le (version self) [2; 1] then
     len ← lift (py_len nd);
     (if len =? 2 then
        store ← lift (getitem nd 1);
        py_assert (node_is store "store");;
        store0 ← lift (getitem store 0);
        bound ← lift (node_pattr store0);
        nd0 ← lift (getitem nd 0);
        imported ← lift (node_pattr nd0);
        if py_eq bound imported
        then write ["import " +:+ py_str imported +:+ str1 nl]
        else write ["import " +:+ py_str imported +:+ " as " +:+ py_str bound
                    +:+ str1 nl]
      else mret ());;
     prune
   else mret ());;
  last ← lift (getitem nd (-1));
  store_node ← lift (getitem last (-1));
  py_assert (startswith (node_kind store_node) "STORE_");;
  nd0 ← lift (getitem nd 0);
  iname ← lift (node_pattr nd0);
  sname ← lift (node_pattr store_node);
  same ← (if truthy iname && py_eq iname sname then mret true
          else match iname with
               | VStr i =>
                 match sname with
                 | VStr s => mret (startswith i (s +:+ "."))
                 | _ => raise TypeError
                 end
               | _ => raise AttributeError
               end);
  (if same : bool
   then write [py_str iname]
   else write [py_str iname; " as "; py_str sname]);;
  prune.

(** *** [n_docstring], lines 875-954 *)

Definition triple_dquote : string := String dquote (String dquote (str1 dquote)).
Definition triple_squote : string := "'''".

(** Lines 890-893: the delimiter. *)
Definition docstring_quote (docstring : string) : string :=
  if 0 <=? find docstring triple_dquote then
    if find docstring triple_squote =? -1 then triple_squote else triple_dquote
  else triple_dquote.

(** Lines 896-906: [repr] without its quotes, then the escapes undone; a
    doubled backslash becomes a tab for the time being. *)
Definition docstring_unescape (docstring : string) : string :=
  foldl (fun d '(orig, new) => replace d orig new)
        (strip_ends (repr (expandtabs docstring)))
        [("\\", str1 tab); ("\r\n", str1 nl); ("\n", str1 nl); ("\r", str1 nl);
         (String backslash (str1 dquote), str1 dquote);
         (String backslash (str1 squote), str1 squote)].

(** Lines 910-916: the test for a raw string. *)
Definition docstring_is_raw (docstring : string) : bool :=
  contains docstring (str1 tab)
  && negb (contains docstring (str1 backslash))
  && (2 <=? String.length docstring)%nat
  && negb (bool_decide (from_end 1 docstring = Some tab))
  && (negb (bool_decide (from_end 1 docstring = Some dquote))
      || bool_decide (from_end 2 docstring = Some tab)).

(** Lines 921-935: the escapes of a string that is not raw. *)
Definition docstring_escape (quote docstring : string) : string :=
  let quote1 := from_end 1 quote in
  let docstring :=
    if negb (String.length docstring =? 0)%nat
       && bool_decide (from_end 1 docstring = quote1)
    then drop_last 1 docstring +:+ str1 backslash
         +:+ match quote1 with Some c => str1 c | None => "" end
    else docstring in
  let replace_str := String backslash quote in
  let docstring := replace docstring quote replace_str in
  replace docstring (str1 tab) (String backslash (str1 backslash)).

(** Lines 946-952: the lines between the first and the last. *)
Fixpoint println_middle (lines : list string) : M unit :=
  match lines with
  | [] => mret ()
  | line :: lines' =>
    (if negb (String.eqb line "") then println [line]
     else println [newlines 2]);;
    println_middle lines'
  end.

Definition n_docstring (nd : node) : M unit :=
  self ← get_self;
  let indent := indent (params self) in
  doc_node ← lift (getitem nd 0);
  doc_attr ← lift (node_attr doc_node);
  docstring ← (if truthy doc_attr then
                 match doc_attr with
                 | VStr s => mret s
                 | _ => prune;; mret ""
                 end
               else
                 nd0 ← lift (getitem nd 0);
                 v ← lift (node_pattr nd0);
                 match v with
                 | VStr s => mret s
                 | _ => raise AttributeError
                 end);
  let quote := docstring_quote docstring in
  write [indent];;
  let docstring := docstring_unescape docstring in
  docstring ← (if docstring_is_raw docstring
               then write ["r"];;
                    mret (replace docstring (str1 tab) (str1 backslash))
               else mret (docstring_escape quote docstring));
  let lines := split nl docstring in
  write [quote];;
  match lines with
  | [] => println [quote]
  | [line] => println [line; quote]
  | line :: rest =>
    println [line];;
    println_middle (removelast rest);;
    println [List.last rest ""; quote]
  end;;
  prune.

(** *** [code_deparse], lines 2601-2712 *)

Fixpoint write_each (items : list string) : M unit :=
  match items with
  | [] => mret ()
  | item :: items' => write [item];; write_each items'
  end.

Definition unused_global_warning (g : string) : string :=
  "# global " +:+ g +:+ " ## Warning: Unused global" +:+ str1 nl.

(** Lines 2700-2712, on the walker [deparsed] as [gen_source] left it on
    line 2698. *)
Definition code_deparse_finish : M SourceWalker :=
  self ← get_self;
  write_each (map unused_global_warning (sorted (mod_globs self)));;
  self ← get_self;
  (if negb (length (ast_errors self) =? 0)%nat then
     write ["# NOTE: have internal decompilation grammar errors." +:+ str1 nl];;
     write ["# Use -T option to show full context."];;
     write_each (ast_errors self);;
     raise (SourceWalkerError "Deparsing hit an internal grammar-rule bug")
   else mret ());;
  (if truthy (ERROR self)
   then raise (SourceWalkerError "Deparsing stopped due to parse error")
   else mret ());;
  get_self.

(** The whole function.  Lines 2616-2698 (scanning, [build_ast], the checks
    on the tree and [gen_source]) rest on the scanner and the parser, which
    are not part of this development: they are the parameter
    [build_and_render], which returns [false] when line 2657 returns [None]
    and [true] when line 2698 has been reached.  The result is [None] or the
    walker. *)
Definition code_deparse (build_and_render : M bool) : M (option SourceWalker) :=
  rendered ← build_and_render;
  if rendered : bool then
    deparsed ← code_deparse_finish;
    mret (Some deparsed)
  else mret None.

End Pysource.


(** ** Further methods of the source walker *)

Module PysourceRest.

Import Pysource.

(** [self.indent = s] (the property of lines 397-402). *)
Definition set_indent (s : string) (self : SourceWalker) : SourceWalker :=
  let p := params self in
  set_params (mkParams (f p) s (is_lambda p) (_globals p) (_nonlocals p)) self.

(** [s[:-k]] for [k] a length: [-0] is [0], so [s[:-0]] is empty. *)
Definition slice_to_minus (k : nat) (s : string) : string :=
  if (k =? 0)%nat then "" else drop_last k s.

(** [indent_more] and [indent_less], lines 426-430; the default argument
    [TAB] of consts.py is passed by the caller. *)
Definition indent_more (ind : string) : M unit :=
  modify (fun self => set_indent (indent (params self) +:+ ind) self).

Definition indent_less (ind : string) : M unit :=
  modify (fun self =>
            set_indent (slice_to_minus (String.length ind) (indent (params self)))
              self).

(** [self.params["is_lambda"]]: a bundle may lack the key. *)
Definition params_is_lambda : M bool := fun self =>
  match is_lambda (params self) with
  | Some b => (Ret b, self)
  | None => (Raise KeyError, self)
  end.

(** [deparse_code2str], lines 2715-2737: the attribute [text] of what
    [code_deparse] returns.  [None] has no such attribute, and a walker has
    it only once line 2504 has run. *)
Definition deparse_code2str (build_and_render : M bool) : M string :=
  deparsed ← code_deparse build_and_render;
  match deparsed with
  | Some walker =>
    match text walker with
    | Some t => mret t
    | None => raise AttributeError
    end
  | None => raise AttributeError
  end.

Section MoreHandlers.

Variable preorder : node → M unit.

(** [SyntaxTree.isNone] of treenode.py, and the comparison of a node with
    the constant tree for [return None] on lines 500-502, which rests on the
    tree equality of the parser library: both are parameters. *)
Variable isNone : node → outcome bool.
Variable is_return_none_tree : node → bool.

(** [n_bin_op], lines 504-514. *)
Definition n_bin_op (nd : node) : M unit :=
  left ← lift (getitem nd 0);
  preorder left;;
  write [" "];;
  operator ← lift (getitem nd (-1));
  preorder operator;;
  write [" "];;
  modify (fun self => set_prec (prec self - 1) self);;
  right ← lift (getitem nd 1);
  preorder right;;
  modify (fun self => set_prec (prec self + 1) self);;
  prune.

(** One bound of a slice: rendered unless it is the "no bound" node. *)
Definition slice_bound (nd : node) (i : Z) : M unit :=
  bound ← lift (getitem nd i);
  none ← lift (isNone bound);
  if none : bool then mret ()
  else bound ← lift (getitem nd i); preorder bound.

(** [n_slice2] and [n_slice3], lines 630-655. *)
Definition n_slice2 (nd : node) : M unit :=
  self ← get_self;
  let p := prec self in
  modify (set_prec 100);;
  slice_bound nd 0;;
  write [":"];;
  slice_bound nd 1;;
  modify (set_prec p);;
  prune.

Definition n_slice3 (nd : node) : M unit :=
  self ← get_self;
  let p := prec self in
  modify (set_prec 100);;
  slice_bound nd 0;;
  write [":"];;
  slice_bound nd 1;;
  write [":"];;
  slice_bound nd 2;;
  modify (set_prec p);;
  prune.

(** [is_return_none], lines 489-502. *)
Definition is_return_none (nd : node) : outcome bool :=
  nd0 ← getitem nd 0;
  ret ← (if node_is nd0 "return_expr" then
           nd00 ← getitem nd0 0;
           if node_is nd00 "expr" then
             nd000 ← getitem nd00 0;
             if node_is nd000 "LOAD_CONST" then
               v ← node_pattr nd000;
               Ret (bool_decide (v = VNone))
             else Ret false
           else Ret false
         else Ret false);
  Ret (ret || is_return_none_tree nd).

(** The tail shared by lines 595-603 and 621-626. *)
Definition write_return (nd : node) : M unit :=
  self ← get_self;
  write [indent (params self); "return"];;
  self ← get_self;
  keep ← (if return_none self then mret true
          else none ← lift (is_return_none nd); mret (negb none));
  (if keep : bool
   then write [" "];; value ← lift (getitem nd 0); preorder value
   else mret ());;
  println [];;
  prune.

(** [n_return], lines 586-603. *)
Definition n_return (nd : node) : M unit :=
  lam ← params_is_lambda;
  bare ← (if lam : bool then mret true
          else nd0 ← lift (getitem nd 0);
               mret (node_in nd0 ["pop_return"; "popb_return"; "pop_ex_return"]));
  if bare : bool then
    value ← lift (getitem nd 0);
    preorder value;;
    prune
  else write_return nd.

(** [n_return_if_stmt], lines 615-626. *)
Definition n_return_if_stmt (nd : node) : M unit :=
  lam ← params_is_lambda;
  if lam : bool then
    write [" return "];;
    value ← lift (getitem nd 0);
    preorder value;;
    prune
  else write_return nd.

(** [print_super_classes], lines 1669-1687. *)
Fixpoint write_super_classes (sep : string) (elems : list node) : M unit :=
  match elems with
  | [] => mret ()
  | elem :: elems' =>
    value ← traverse preorder elem None false;
    write [sep; value];;
    write_super_classes ", " elems'
  end.

Definition print_super_classes (nd : node) : M unit :=
  if negb (node_is nd "tuple") then mret ()
  else
    match nd with
    | Tok _ => raise IndexError
    | SyntaxTree _ children =>
      let bases := removelast children in
      let n_subclasses := Z.of_nat (length bases) in
      self ← get_self;
      let parens := (0 <? n_subclasses) || negb (tuple_le (version self) [2; 4]) in
      (if parens then write ["("] else mret ());;
      write_super_classes "" bases;;
      (if parens then write [")"] else mret ())
    end.

End MoreHandlers.

End PysourceRest.

(** ** The token list on its way to the parser ([build_ast], lines 2509-2569) *)

Module BuildAst.

Section Tokens.

(** [Token(kind)] with every other field at the default of the class, which
    is not part of this development: a parameter, known by its kind. *)
Variable Token_new : string → Token.

(** Lines 2524-2528: the kinds a lambda body may not hold are renamed. *)
Definition lambda_kind (k : string) : string :=
  if bool_decide (k = "RETURN_END_IF") then "RETURN_END_IF_LAMBDA"
  else if bool_decide (k = "RETURN_VALUE") then "RETURN_VALUE_LAMBDA"
  else k.

Definition relabel (t : Token) : Token :=
  mkToken (lambda_kind (kind t)) (attr t) (pattr t) (offset t).

(** What [build_ast] does with the token list before it calls the parser:
    the list goes to the lambda parser (line 2541), the constant tree [PASS]
    is returned without parsing (line 2569), or the list goes to the parser
    of the walker (line 2579). *)
Inductive prepared : Type :=
| ParseLambda (tokens : list Token)
| ReturnPASS (tokens : list Token)
| Parse (tokens : list Token).

(** [tokens[-1]] and [tokens[-2]] of a list of two tokens or more. *)
Definition last_two (tokens : list Token) : option (Token * Token) :=
  match rev tokens with
  | t1 :: t2 :: _ => Some (t2, t1)
  | _ => None
  end.

(** Lines 2556-2567: the trailing [LOAD_CONST; RETURN_VALUE] is deleted, or
    the marker [RETURN_LAST] is appended. *)
Definition hide_return (noneInNames isTopLevel : bool) (tokens : list Token)
    : list Token :=
  if (2 <=? length tokens)%nat && negb noneInNames then
    match last_two tokens with
    | Some (load_const, last) =>
      if str_in (kind last) ["RETURN_VALUE"; "RETURN_VALUE_LAMBDA"] then
        if bool_decide (kind load_const = "LOAD_CONST") then
          if isTopLevel || bool_decide (pattr load_const = VNone)
          then firstn (length tokens - 2) tokens
          else (tokens ++ [Token_new "RETURN_LAST"])%list
        else (tokens ++ [Token_new "RETURN_LAST"])%list
      else tokens
    | None => tokens
    end
  else tokens.

Definition build_ast_tokens (hide_internal is_lambda noneInNames isTopLevel : bool)
    (tokens : list Token) : prepared :=
  if is_lambda then
    ParseLambda (map relabel tokens ++ [Token_new "LAMBDA_MARKER"])%list
  else if hide_internal then
    let tokens := hide_return noneInNames isTopLevel tokens in
    if (length tokens =? 0)%nat then ReturnPASS tokens else Parse tokens
  else Parse tokens.

End Tokens.

End BuildAst.

(** ** The template table and [customize] (lines 2325-2409) *)

Module Templates.

(** The arguments of a template entry: integers, strings, [None] and tuples
    of these. *)
Inductive targ : Type :=
| AInt (z : Z)
| AStr (s : string)
| ANone
| ATuple (items : list targ).

(** A table entry: the format string and its arguments. *)
Definition entry : Type := string * list targ.

(** [k.rfind(c)]: the last index of the character, or [-1]. *)
Fixpoint rfind_from (c : ascii) (s : string) (i : Z) (found : Z) : Z :=
  match s with
  | "" => found
  | String x s' => rfind_from c s' (i + 1) (if Ascii.eqb x c then i else found)
  end.

Definition rfind (s : string) (c : ascii) : Z := rfind_from c s 0 (-1).

(** [k[:i]] for an index as [rfind] gives it: [k[:-1]] drops the last
    character. *)
Definition slice_to (s : string) (i : Z) : string :=
  if i <? 0 then drop_last (Z.to_nat (- i)) s else substring 0 (Z.to_nat i) s.

Definition opname_base (k : string) : string := slice_to k (rfind k "_").

(** The truth value of an argument, and a tuple of three. *)
Definition targ_truthy (a : targ) : bool :=
  match a with
  | AInt z => negb (z =? 0)
  | AStr s => negb (String.eqb s "")
  | ANone => false
  | ATuple items => negb (length items =? 0)%nat
  end.

Definition tuple3 (p : targ * targ * targ) : targ :=
  ATuple [p.1.1; p.1.2; p.2].

Definition call_entry : entry :=
  ("%c(%P)", [AInt 0; ATuple [AInt 1; AInt (-1); AStr ", "; AInt 100]]).

Section Customize.

Variable version : list Z.
Variable PRECEDENCE : gmap string Z.

(** Lines 2351-2399, the keys [CALL_FUNCTION_VAR], [CALL_FUNCTION_VAR_KW]
    and [CALL_FUNCTION_KW]. *)
Definition var_kw_entry (op : string) (v : Z) : outcome entry :=
  let str := if v =? 0 then "%c(%C" else "%c(%C, " in
  let p2 := if v =? 0 then (AInt 0, AInt 0, ANone)
            else (AInt 1, AInt (-2), AStr ", ") in
  if bool_decide (op = "CALL_FUNCTION_VAR") then
    if bool_decide (version = [3; 5]) then
      if bool_decide (str = "%c(%C, ")
      then Ret ("%c(*%C, %c)", [AInt 0; tuple3 p2; AInt (-2)])
      else Ret ("%c(*%C)", [AInt 0; ATuple [AInt 1; AInt 100; AStr ""]])
    else if bool_decide (version = [3; 4]) then
      if v =? 0
      then Ret ("%c(*%c)", [AInt 0; AInt (-2)])
      else Ret ("%c(%C, *%c)", [AInt 0; tuple3 p2; AInt (-2)])
    else Ret (str +:+ "*%c)", [AInt 0; tuple3 p2; AInt (-2)])
  else if bool_decide (op = "CALL_FUNCTION_KW") then
    Ret (str +:+ "**%c)", [AInt 0; tuple3 p2; AInt (-2)])
  else if bool_decide (op = "CALL_FUNCTION_VAR_KW") then
    let str := str +:+ "*%c, **%c)" in
    let na := Z.land v 255 in
    if bool_decide (version = [3; 5]) && (na =? 0) then
      let p2 := if targ_truthy p2.2 then (AInt 2, AInt (-2), AStr ", ") else p2 in
      Ret (str, [AInt 0; tuple3 p2; AInt 1; AInt (-2)])
    else
      let p2 := if targ_truthy p2.2 then (AInt 1, AInt (-3), AStr ", ") else p2 in
      Ret (str, [AInt 0; tuple3 p2; AInt (-3); AInt (-2)])
  else Raise AssertionError.

(** Lines 2333-2401 for one key that is not in the table: the entry to add,
    if any. *)
Definition customize_entry (k : string) (v : Z) : outcome (option entry) :=
  let op := opname_base k in
  if startswith k "CALL_METHOD" then Ret (Some call_entry)
  else if startswith k "CALL_FUNCTION_KW" then Ret (Some call_entry)
  else if bool_decide (op = "CALL_FUNCTION") then
    match PRECEDENCE !! "yield" with
    | Some y =>
      Ret (Some ("%c(%P)",
                 [ATuple [AInt 0; AStr "expr"];
                  ATuple [AInt 1; AInt (-1); AStr ", "; AInt (y - 1)]]))
    | None => Raise KeyError
    end
  else if str_in op ["CALL_FUNCTION_VAR"; "CALL_FUNCTION_VAR_KW"; "CALL_FUNCTION_KW"]
  then e ← var_kw_entry op v; Ret (Some e)
  else Ret None.

(** [customize]: the loop over the items of the [customize] dict, on the
    table [TABLE_R] of consts.py.  An entry already in the table is kept; an
    exception leaves the entries added so far. *)
Fixpoint customize (items : list (string * Z)) (TABLE_R : gmap string entry)
    : outcome unit * gmap string entry :=
  match items with
  | [] => (Ret (), TABLE_R)
  | (k, v) :: items' =>
    match TABLE_R !! k with
    | Some _ => customize items' TABLE_R
    | None =>
      match customize_entry k v with
      | Ret (Some e) => customize items' (<[k := e]> TABLE_R)
      | Ret None => customize items' TABLE_R
      | Raise err => (Raise err, TABLE_R)
      end
    end
  end.

End Customize.

End Templates.
(** * Sample inputs and specification-side predicates *)

Import Iflaststmt.

(** An instruction array for the sample tokens: the test ends in an absolute
    conditional jump at offset 12 to [target]; the body instruction at offset
    20 is described by [body_optype] and [body_argval]. *)
Definition parser_a (target : Z) (body_optype : string) (body_argval : pyval)
    : Parser :=
  mkParser
    [Inst.mk 10 "name" (VStr "a");
     Inst.mk 12 "jabs" (VInt target);
     Inst.mk 20 body_optype body_argval;
     Inst.mk 25 "name" (VStr "c");
     Inst.mk 30 "jabs" (VInt 4)]
    (list_to_map [(10, 0); (12, 1); (20, 2); (25, 3); (30, 4)]).

Definition rule_a : rule_t := ("iflaststmt", ["testexpr"; "stmts"]).

Definition ast_a (target : Z) : node :=
  SyntaxTree "iflaststmt" [testexpr_to target; body20 "stmts"].

(** Four tokens, the first a [POP_JUMP_IF_FALSE] to [target0]. *)
Definition tokens4 (target0 : Z) : list Token :=
  tok "POP_JUMP_IF_FALSE" (VInt target0) 6 :: tokens3.

(** ** The scan of lines 45-52, as its comment describes it

    "Looking for another jump to the same target": positions are indices
    into [self.insts], starting from the first instruction of the body. *)

(** [inst] is a jump whose target is [target]. *)
Definition jumps_to (target : Z) (inst : Inst.t) : Prop :=
  Inst.optype inst ∈ ["jabs"; "jrel"] ∧ Inst.argval inst = VInt target.

(** Every instruction at an index in [i, j) lies before [target] and is not
    a jump to it. *)
Definition scanned (insts : list Inst.t) (target i j : Z) : Prop :=
  ∀ k, i <= k < j →
    ∃ inst, insts !! Z.to_nat k = Some inst
            ∧ Inst.offset inst < target ∧ ¬ jumps_to target inst.

(** The scan from index [i] meets, at index [j], another jump to [target]
    that lies before [target]. *)
Definition second_jump_at (insts : list Inst.t) (target i j : Z) : Prop :=
  i <= j ∧ scanned insts target i j
  ∧ ∃ inst, insts !! Z.to_nat j = Some inst
            ∧ Inst.offset inst < target ∧ jumps_to target inst.

(** The scan from index [i] reaches, at index [j], an instruction at or
    after [target] without having met such a jump. *)
Definition target_reached_at (insts : list Inst.t) (target i j : Z) : Prop :=
  i <= j ∧ scanned insts target i j
  ∧ ∃ inst, insts !! Z.to_nat j = Some inst ∧ target <= Inst.offset inst.

(** ** Sample inputs for the source walker *)

Import Pysource.

(** The writes [write("\n\n")], [write("a")], [write("\n")], [write("\n")],
    then the flush of line 446. *)
Definition newline_writes : M unit :=
  write [newlines 2];; write ["a"];; write [newlines 1];; write [newlines 1];;
  modify flush_newlines.

(** The text written to the current stream, and a run of a method on a
    walker that keeps the final state only. *)
Definition stream (self : SourceWalker) : string := f (params self).

Definition exec {A : Type} (m : M A) (self : SourceWalker) : SourceWalker :=
  snd (m self).

(** A method that never raises. *)
Definition returns (m : M unit) : Prop :=
  ∀ self, m self = (Ret (), exec m self).

(** The docstring text [He said "hi"] followed by a newline, and a docstring
    node holding [s]. *)
Definition said_hi : string :=
  "He said " +:+ str1 dquote +:+ "hi" +:+ str1 dquote.

Definition hi_docstring : string := said_hi +:+ str1 nl.

Definition docstring_node (s : string) : node :=
  SyntaxTree "docstring" [Tok (mkToken "LOAD_STR" (VStr s) (VStr s) 0)].

(** [alias ::= IMPORT_NAME store]: import [iname], bind it to [sname]. *)
Definition alias_node (iname sname : string) : node :=
  SyntaxTree "alias"
    [Tok (mkToken "IMPORT_NAME" (VInt 0) (VStr iname) 4);
     SyntaxTree "store" [Tok (mkToken "STORE_NAME" (VInt 1) (VStr sname) 6)]].

(** ** The import-alias rule in the words of the specification

    "Omits the as-name suffix when the imported name and the bound name are
    equal (or the bound name is the last dotted component)." *)
Definition last_dotted_component (iname : string) : string :=
  List.last (split "." iname) "".

Definition spec_omits_as (iname sname : string) : Prop :=
  iname = sname ∨ last_dotted_component iname = sname.

(** The test of line 842 on two strings. *)
Definition omits_as (iname sname : string) : Prop :=
  (iname ≠ "" ∧ iname = sname) ∨ startswith iname (sname +:+ ".") = true.

(** A stand-in for the dispatcher: every node is rendered as its kind. *)
Definition preorder_kind (nd : node) : M unit := write [node_kind nd].

(** A precedence table with the one entry [n_return_expr] reads. *)
Definition precedence_yield : gmap string Z := {["yield" := 38]}.

(** [return_expr ::= expr], the expression being the token [t]. *)
Definition return_expr_node (t : Token) : node :=
  SyntaxTree "return_expr" [SyntaxTree "expr" [Tok t]].

Definition load_name (s : string) : Token :=
  mkToken "LOAD_NAME" (VInt 0) (VStr s) 0.

(** The walker with its stream replaced by [s], and the relation "equal up
    to the stream and the pending-newline count". *)
Definition set_stream (s : string) (self : SourceWalker) : SourceWalker :=
  let p := params self in
  set_params (mkParams s (indent p) (is_lambda p) (_globals p) (_nonlocals p))
    self.

Definition same_but_output (a b : SourceWalker) : Prop :=
  set_pending_newlines 0 (set_stream "" a)
  = set_pending_newlines 0 (set_stream "" b).

(** The state in which [traverse] starts the nested render (lines 433-444):
    the caller's bundle is pushed, no newline is pending, and the new bundle
    has an empty stream. *)
Definition scope_entry (self : SourceWalker) (indent_arg : option string)
    (is_lambda_arg : bool) : SourceWalker :=
  set_params
    (mkParams ""
       (match indent_arg with
        | None => indent (params self)
        | Some i => i
        end)
       (Some is_lambda_arg) (Some []) (Some []))
    (set_pending_newlines 0
       (set_param_stack (params self :: param_stack self) self)).

(** The two header lines of lines 2704-2705. *)
Definition note_line : string :=
  "# NOTE: have internal decompilation grammar errors.".

Definition use_line : string := "# Use -T option to show full context.".

(** A walker after [gen_source], with one unused global and one recorded
    grammar error. *)
Definition walker_with_errors : SourceWalker :=
  mkSourceWalker [3; 8] (mkParams "x = 1" "" None None None) [] VNone 100 false
    ["g"] 1 ["# bad rule"] (Some "<module>") None (Some "x = 1").

(** An outcome of the Python code proper: a value or a Python exception,
    not the model's [OutOfFuel]. *)
Definition python_outcome {A : Type} (o : outcome A) : Prop :=
  o ≠ Raise OutOfFuel.

(** ** Further sample inputs *)

(** As [parser_a], with a relative jump at offset 12. *)
Definition parser_b : Parser :=
  mkParser
    [Inst.mk 10 "name" (VStr "a"); Inst.mk 12 "jrel" (VInt 25);
     Inst.mk 20 "name" (VStr "b"); Inst.mk 30 "name" (VStr "c")]
    (list_to_map [(10, 0); (12, 1); (20, 2); (30, 3)]).

(** [testexpr ::= testtrue], [testtrue ::= and]. *)
Definition ast_and : node :=
  SyntaxTree "iflaststmt"
    [SyntaxTree "testexpr" [SyntaxTree "testtrue" [SyntaxTree "and" []]];
     body20 "stmts"].

(** A test expression that is a comparison, not one of the test nodes. *)
Definition ast_compare : node :=
  SyntaxTree "iflaststmtc"
    [SyntaxTree "testexpr" [SyntaxTree "c_compare" []]; body20 "c_stmts"].

(** The three sample tokens followed by the end marker. *)
Definition tokens3_marked : list Token :=
  (tokens3 ++ [tok "RETURN_LAST" VNone (-1)])%list.

(** Four tokens inside a loop: a [JUMP_BACK] before the last token of the
    candidate, and a token after it. *)
Definition tokens_back : list Token :=
  [tok "LOAD_NAME" (VStr "a") 10; tok "JUMP_BACK" (VInt 4) 20;
   tok "LOAD_NAME" (VStr "b") 30; tok "POP_BLOCK" VNone 40].

(** Four tokens at the end of a loop: [COME_FROM_LOOP] follows the last
    token of the candidate. *)
Definition tokens_loop_exit : list Token :=
  [tok "LOAD_NAME" (VStr "a") 10; tok "LOAD_NAME" (VStr "b") 20;
   tok "POP_BLOCK" VNone 30; tok "COME_FROM_LOOP" VNone 32].


(** A walker inside a scope that is no lambda, indented by four spaces. *)
Definition scope_walker : SourceWalker :=
  mkSourceWalker [3; 8] (mkParams "" "    " (Some false) None None) [] VNone 100
    false [] 0%nat [] None None None.

(** [return ::= return_expr RETURN_VALUE] for [return None]. *)
Definition return_none_node : node :=
  SyntaxTree "return"
    [return_expr_node (mkToken "LOAD_CONST" VNone VNone 0);
     Tok (mkToken "RETURN_VALUE" VNone VNone 2)].

(** [bin_op ::= expr expr binary_operator] for [a + b]. *)
Definition bin_op_node : node :=
  SyntaxTree "bin_op"
    [Tok (load_name "a"); Tok (load_name "b");
     Tok (mkToken "BINARY_ADD" VNone VNone 4)].

(** A slice node whose bounds are all absent, and a test that takes every
    node for the absent bound. *)
Definition slice_node : node :=
  SyntaxTree "slice3"
    [Tok (mkToken "LOAD_CONST" VNone VNone 0);
     Tok (mkToken "LOAD_CONST" VNone VNone 2);
     Tok (mkToken "LOAD_CONST" VNone VNone 4)].

Definition always_none (nd : node) : outcome bool := Ret true.

(** A token that has its kind only. *)
Definition token_of_kind (k : string) : Token := mkToken k VNone VNone (-1).

(** The tokens of a function that ends in [return x]. *)
Definition tokens_return_x : list Token :=
  [tok "LOAD_NAME" (VStr "x") 0; tok "RETURN_VALUE" VNone 2].

(** The tokens of a module body that is empty but for [return None]. *)
Definition tokens_return_none : list Token :=
  [mkToken "LOAD_CONST" VNone VNone 0; tok "RETURN_VALUE" VNone 2].

(** A [customize] dict with a method call and a call of two arguments, and
    a table that has an entry for the first. *)
Definition customize_calls : list (string * Z) :=
  [("CALL_METHOD_1", 1); ("CALL_FUNCTION_2", 2)].

Definition table_with_method : gmap string Templates.entry :=
  {["CALL_METHOD_1" := ("%c.%c", [Templates.AInt 0; Templates.AInt 1])]}.

(** [class C(A, B)]: the node of the base classes. *)
Definition bases_node : node :=
  SyntaxTree "tuple"
    [Tok (load_name "A"); Tok (load_name "B");
     Tok (mkToken "BUILD_TUPLE_2" (VInt 2) (VInt 2) 4)].

(** The texts of the nodes, each with a comma and a space in front but the
    first, which has [sep] in front. *)
Fixpoint joined_texts (render : node → string) (sep : string)
    (bases : list node) : string :=
  match bases with
  | [] => ""
  | elem :: bases' => sep +:+ render elem +:+ joined_texts render ", " bases'
  end.
(** * Properties of [iflaststmt] *)

Lemma bind_Ret {A B : Type} (a : A) (k : A → outcome B) : (Ret a ≫= k) = k a.
Proof. reflexivity. Qed.

(** Run the binds whose left side is a value, and the tests on constants. *)
Ltac run_binds := repeat (progress (cbv beta iota; rewrite ?bind_Ret)).

Section IflaststmtFacts.

Lemma py_index_lookup {A : Type} (l : list A) (i : Z) (x : A) :
  0 <= i → l !! Z.to_nat i = Some x → py_index l i = Ret x.
Proof.
  intros Hi Hx. unfold py_index.
  assert (Hlt : (Z.to_nat i < length l)%nat) by (eapply lookup_lt_Some; eauto).
  destruct (i <? 0) eqn:Hneg; [lia|].
  assert (Hin : (i <? 0) || (Z.of_nat (length l) <=? i) = false).
  { rewrite Hneg. simpl. apply Z.leb_gt. lia. }
  rewrite Hin, Hx. reflexivity.
Qed.

Lemma py_index_past_end {A : Type} (l : list A) (i : Z) :
  Z.of_nat (length l) <= i → py_index l i = Raise IndexError.
Proof.
  intros Hi. unfold py_index.
  destruct (i <? 0) eqn:Hneg; [lia|].
  replace (Z.of_nat (length l) <=? i) with true by (symmetry; apply Z.leb_le; lia).
  rewrite orb_true_r. reflexivity.
Qed.

Lemma py_index_Ret_lt {A : Type} (l : list A) (i : Z) (x : A) :
  py_index l i = Ret x → i < Z.of_nat (length l).
Proof.
  intros H. destruct (Z_lt_le_dec i (Z.of_nat (length l))) as [|Hge]; [assumption|].
  rewrite py_index_past_end in H by assumption. discriminate.
Qed.

(** A node with a second child is a nonterminal with at least two children. *)
Lemma getitem_1_len (nd child : node) :
  getitem nd 1 = Ret child → ∃ len, py_len nd = Ret len ∧ 1 < len.
Proof.
  destruct nd as [t|k children]; simpl; [discriminate|].
  intros H. eexists; split; [reflexivity|].
  apply py_index_Ret_lt in H. lia.
Qed.

(** The scan loop is never short of fuel: it ends by a [return] or by the
    [IndexError] of [self.insts[i]]. *)
Lemma scan_jumps_fuel_enough (insts : list Inst.t) (target : pyval) :
  ∀ (fuel : nat) (i : Z) (inst : Inst.t),
    i < Z.of_nat (length insts) →
    (Z.to_nat (Z.of_nat (length insts) - i) <= fuel)%nat →
    scan_jumps fuel insts target i inst ≠ Raise OutOfFuel.
Proof.
  induction fuel as [|fuel IH]; intros i inst Hi Hfuel; [lia|].
  simpl. destruct (py_int_lt (Inst.offset inst) target) as [below|e] eqn:Hlt.
  - rewrite bind_Ret. destruct below; [|discriminate].
    destruct (_ && _); [discriminate|].
    destruct (py_index insts (i + 1)) as [inst'|e] eqn:Hnext.
    + rewrite bind_Ret. apply IH; [|lia].
      apply py_index_Ret_lt in Hnext. lia.
    + simpl. unfold py_index in Hnext.
      destruct (_ || _); [congruence|]. destruct (insts !! _); congruence.
  - simpl. destruct target; simpl in Hlt; congruence.
Qed.

Lemma jumps_to_test (target : Z) (inst : Inst.t) :
  str_in (Inst.optype inst) ["jabs"; "jrel"]
  && py_eq (Inst.argval inst) (VInt target) = true ↔ jumps_to target inst.
Proof.
  unfold jumps_to, str_in, py_eq.
  rewrite andb_true_iff, !bool_decide_eq_true. reflexivity.
Qed.

Lemma jumps_to_test_false (target : Z) (inst : Inst.t) :
  ¬ jumps_to target inst →
  str_in (Inst.optype inst) ["jabs"; "jrel"]
  && py_eq (Inst.argval inst) (VInt target) = false.
Proof.
  intros Hno. apply not_true_is_false. rewrite jumps_to_test. exact Hno.
Qed.

(** One round of the loop over an instruction that is not the one looked
    for. *)
Lemma scan_jumps_step (insts : list Inst.t) (target : Z) (fuel : nat) (i : Z)
    (inst next : Inst.t) :
  Inst.offset inst < target → ¬ jumps_to target inst →
  0 <= i → insts !! Z.to_nat (i + 1) = Some next →
  scan_jumps (S fuel) insts (VInt target) i inst
  = scan_jumps fuel insts (VInt target) (i + 1) next.
Proof.
  intros Hoff Hno Hi Hnext. simpl.
  replace (Inst.offset inst <? target) with true by (symmetry; apply Z.ltb_lt; lia).
  rewrite (jumps_to_test_false _ _ Hno).
  rewrite (py_index_lookup _ _ next) by (assumption || lia).
  reflexivity.
Qed.

Lemma scanned_head (insts : list Inst.t) (target i j : Z) (inst : Inst.t) :
  scanned insts target i j → i < j → insts !! Z.to_nat i = Some inst →
  Inst.offset inst < target ∧ ¬ jumps_to target inst.
Proof.
  intros Hsc Hij Hi. destruct (Hsc i) as (inst' & Hl & Hoff & Hno); [lia|].
  rewrite Hi in Hl. injection Hl as <-. auto.
Qed.

Lemma scanned_tail (insts : list Inst.t) (target i j : Z) :
  scanned insts target i j → scanned insts target (i + 1) j.
Proof. intros Hsc k Hk. apply Hsc. lia. Qed.

(** The loop returns [False] when it meets another jump to the target ... *)
Lemma scan_jumps_found (insts : list Inst.t) (target : Z) :
  ∀ (d : nat) (i : Z) (inst : Inst.t) (fuel : nat),
    0 <= i → insts !! Z.to_nat i = Some inst → (d < fuel)%nat →
    second_jump_at insts target i (i + Z.of_nat d) →
    scan_jumps fuel insts (VInt target) i inst = Ret false.
Proof.
  induction d as [|d IH]; intros i inst fuel Hi Hinst Hfuel (Hij & Hsc & found & Hl & Hoff & Hj).
  - replace (i + Z.of_nat 0) with i in Hl by lia.
    rewrite Hinst in Hl. injection Hl as <-.
    destruct fuel as [|fuel]; [lia|]. simpl.
    replace (Inst.offset inst <? target) with true by (symmetry; apply Z.ltb_lt; lia).
    apply jumps_to_test in Hj. rewrite Hj. reflexivity.
  - destruct fuel as [|fuel]; [lia|].
    destruct (scanned_head _ _ _ _ _ Hsc ltac:(lia) Hinst) as [Hoff0 Hno0].
    assert (Hnext : ∃ next, insts !! Z.to_nat (i + 1) = Some next).
    { destruct d as [|d].
      - exists found. rewrite <- Hl. f_equal; lia.
      - destruct (Hsc (i + 1)) as (next & Hn & _); [lia|]. eauto. }
    destruct Hnext as [next Hnext].
    rewrite (scan_jumps_step _ _ _ _ _ next) by assumption.
    apply IH; [lia|assumption|lia|].
    split; [lia|]. split; [apply scanned_tail; replace (i + 1 + Z.of_nat d) with (i + Z.of_nat (S d)) by lia; assumption|].
    exists found. replace (i + 1 + Z.of_nat d) with (i + Z.of_nat (S d)) by lia. auto.
Qed.

(** ... and [True] when it reaches the target first. *)
Lemma scan_jumps_reached (insts : list Inst.t) (target : Z) :
  ∀ (d : nat) (i : Z) (inst : Inst.t) (fuel : nat),
    0 <= i → insts !! Z.to_nat i = Some inst → (d < fuel)%nat →
    target_reached_at insts target i (i + Z.of_nat d) →
    scan_jumps fuel insts (VInt target) i inst = Ret true.
Proof.
  induction d as [|d IH]; intros i inst fuel Hi Hinst Hfuel (Hij & Hsc & last & Hl & Hoff).
  - replace (i + Z.of_nat 0) with i in Hl by lia.
    rewrite Hinst in Hl. injection Hl as <-.
    destruct fuel as [|fuel]; [lia|]. simpl.
    replace (Inst.offset inst <? target) with false by (symmetry; apply Z.ltb_ge; lia).
    reflexivity.
  - destruct fuel as [|fuel]; [lia|].
    destruct (scanned_head _ _ _ _ _ Hsc ltac:(lia) Hinst) as [Hoff0 Hno0].
    assert (Hnext : ∃ next, insts !! Z.to_nat (i + 1) = Some next).
    { destruct d as [|d].
      - exists last. rewrite <- Hl. f_equal; lia.
      - destruct (Hsc (i + 1)) as (next & Hn & _); [lia|]. eauto. }
    destruct Hnext as [next Hnext].
    rewrite (scan_jumps_step _ _ _ _ _ next) by assumption.
    apply IH; [lia|assumption|lia|].
    split; [lia|]. split; [apply scanned_tail; replace (i + 1 + Z.of_nat d) with (i + Z.of_nat (S d)) by lia; assumption|].
    exists last. replace (i + 1 + Z.of_nat d) with (i + Z.of_nat (S d)) by lia. auto.
Qed.

Lemma scan_start_lookup (insts : list Inst.t) (target i j : Z) (x : Inst.t) :
  i <= j → scanned insts target i j → insts !! Z.to_nat j = Some x →
  ∃ inst, insts !! Z.to_nat i = Some inst.
Proof.
  intros Hij Hsc Hx. destruct (Z.eq_dec i j) as [->|Hne]; [eauto|].
  destruct (Hsc i) as (inst & Hl & _); [lia|]. eauto.
Qed.

(** The predicate, once [ast[0]] and the adjusted [last] are known. *)
Lemma iflaststmt_unfold (self : Parser) (lhs : string) (n : Z) (rule : rule_t)
    (ast : node) (tokens : list Token) (first last : Z) (testexpr : node)
    (last1 : Z) :
  getitem ast 0 = Ret testexpr → adjust_last tokens last = Ret last1 →
  iflaststmt self lhs n rule ast tokens first last
  = (variantA self rule ast tokens last1 ≫= λ r,
       match r with
       | Some b => Ret b
       | None => variantB n rule testexpr tokens first last1
       end).
Proof. intros H0 Hl. unfold iflaststmt. rewrite H0, bind_Ret, Hl, bind_Ret. reflexivity. Qed.

(** Lines 56-67 for a test node that carries a conditional jump. *)
Lemma variantB_with_jump (n : Z) (rule : rule_t) (testexpr : node)
    (tokens : list Token) (first last1 : Z) (test test1 : node)
    (jump_target : pyval) :
  getitem testexpr 0 = Ret test →
  node_in test ["testtrue"; "testtruec"; "testfalse"; "testfalsec"] = true →
  getitem test 1 = Ret test1 →
  startswith (node_kind test1) "POP_JUMP_IF_" = true →
  node_attr test1 = Ret jump_target →
  variantB n rule testexpr tokens first last1
  = (jump_checks n tokens first (clip_last n last1) jump_target ≫= λ r,
       match r with
       | Some b => Ret b
       | None => chained_checks tokens first (clip_last n last1) jump_target
       end).
Proof.
  intros Htest Hkind H1 Hjump Hattr. unfold variantB.
  rewrite Htest, bind_Ret, Hkind.
  destruct (getitem_1_len _ _ H1) as (len & Hlen & Hgt).
  rewrite Hlen, bind_Ret.
  replace (len =? 1) with false by (symmetry; apply Z.eqb_neq; lia).
  replace (1 <? len) with true by (symmetry; apply Z.ltb_lt; lia).
  run_binds. rewrite H1. run_binds. rewrite Hjump. run_binds.
  rewrite Hattr. run_binds. reflexivity.
Qed.

End IflaststmtFacts.

(** C1 (as amended).  When the block of lines 24-54 leaves the decision to
    the rest of the predicate and the test node carries a conditional jump
    whose target [t] satisfies
    [tokens[first].offset <= t < tokens[last].offset], the predicate returns
    [True]; [last] is the index the code uses there, after the [RETURN_LAST]
    adjustment of line 21 and the decrement of line 65.  For the three
    tokens at offsets 10, 20 and 30 and a rule other than
    [iflaststmt ::= testexpr stmts], target 25 gives [True], targets 30 and 5
    give [False]. *)
Theorem iflaststmt_containment_rejects :
  (∀ (self : Parser) (lhs : string) (n : Z) (rule : rule_t) (ast : node)
     (tokens : list Token) (first last : Z) (testexpr : node) (last1 : Z)
     (test test1 : node) (t : Z) (tok_first tok_last : Token),
     getitem ast 0 = Ret testexpr →
     adjust_last tokens last = Ret last1 →
     variantA self rule ast tokens last1 = Ret None →
     getitem testexpr 0 = Ret test →
     node_in test ["testtrue"; "testtruec"; "testfalse"; "testfalsec"] = true →
     getitem test 1 = Ret test1 →
     startswith (node_kind test1) "POP_JUMP_IF_" = true →
     node_attr test1 = Ret (VInt t) →
     py_index tokens first = Ret tok_first →
     py_index tokens (clip_last n last1) = Ret tok_last →
     offset tok_first <= t < offset tok_last →
     iflaststmt self lhs n rule ast tokens first last = Ret true)
  ∧ iflaststmt no_insts "iflaststmtc" 3 rule_c (ast_c 25) tokens3 0 2 = Ret true
  ∧ iflaststmt no_insts "iflaststmtc" 3 rule_c (ast_c 30) tokens3 0 2 = Ret false
  ∧ iflaststmt no_insts "iflaststmtc" 3 rule_c (ast_c 5) tokens3 0 2 = Ret false.
Proof.
  split; [|repeat split; reflexivity].
  intros self lhs n rule ast tokens first last testexpr last1 test test1 t
    tok_first tok_last H0 Hlast HA Htest Hkind H1 Hjump Hattr Hfirst Hlast' [Hlo Hhi].
  rewrite (iflaststmt_unfold _ _ _ _ _ _ _ _ _ _ H0 Hlast), HA, bind_Ret.
  rewrite (variantB_with_jump _ _ _ _ _ _ _ _ _ Htest Hkind H1 Hjump Hattr).
  unfold jump_checks. rewrite Hfirst. run_binds. unfold py_int_le.
  replace (offset tok_first <=? t) with true by (symmetry; apply Z.leb_le; lia).
  run_binds. rewrite Hlast'. run_binds. unfold py_lt_int.
  replace (t <? offset tok_last) with true by (symmetry; apply Z.ltb_lt; lia).
  reflexivity.
Qed.

Lemma iflaststmt_containment_rejects_witness :
  iflaststmt no_insts "iflaststmtc" 4 rule_c (ast_c 25) (tokens4 40) 1 3 = Ret true.
Proof.
  eapply (proj1 iflaststmt_containment_rejects) with (t := 25);
    [reflexivity | reflexivity | reflexivity | reflexivity | reflexivity
    | reflexivity | reflexivity | reflexivity | reflexivity | reflexivity
    | simpl; lia].
Defined.

(** Counterexample to C1 as the specification states it: with the rule
    [iflaststmt ::= testexpr stmts] the block of lines 24-54 decides first.
    The test jumps to 25, inside [10, 30), the body holds another jump to 25,
    and the predicate returns [False]. *)
Lemma iflaststmt_containment_counterexample :
  getitem (ast_a 25) 0 = Ret (testexpr_to 25)
  ∧ (test ← getitem (testexpr_to 25) 0; test1 ← getitem test 1; node_attr test1)
    = Ret (VInt 25)
  ∧ offset <$> tokens3 !! 0%nat = Some 10
  ∧ offset <$> tokens3 !! 2%nat = Some 30
  ∧ 10 <= 25 < 30
  ∧ iflaststmt (parser_a 25 "jrel" (VInt 25)) "iflaststmt" 3 rule_a (ast_a 25)
      tokens3 0 2 = Ret false.
Proof. repeat split; try reflexivity; lia. Qed.

(** C2 (as amended).  For the rule [iflaststmt ::= testexpr stmts], when the
    instruction before the first instruction of the body is an absolute jump
    ([optype] "jabs") to [target]: if [target] is the offset of the token at
    the adjusted [last], the block of lines 24-54 returns nothing and the
    result is that of the checks from line 56 on; otherwise the instructions
    are scanned from the body start, and the predicate returns [False]
    (accept) when another jump to [target] is met before [target], [True]
    (reject) when an instruction at or after [target] is reached first. *)
Theorem iflaststmt_variantA_scan :
  ∀ (self : Parser) (lhs : string) (n : Z) (ast : node) (tokens : list Token)
    (first last : Z) (testexpr : node) (last1 : Z) (stmts leaf : node)
    (stmt_offset inst_offset : Z) (jump : Inst.t) (target : Z)
    (tok_last : Token),
    getitem ast 0 = Ret testexpr →
    adjust_last tokens last = Ret last1 →
    getitem ast 1 = Ret stmts →
    first_child stmts = Ret leaf →
    off2int leaf = Ret stmt_offset →
    offset2inst_index self !! stmt_offset = Some inst_offset →
    0 <= inst_offset →
    py_index (insts self) (inst_offset - 1) = Ret jump →
    Inst.optype jump = "jabs" →
    Inst.argval jump = VInt target →
    py_index tokens last1 = Ret tok_last →
    let result := iflaststmt self lhs n rule_a ast tokens first last in
    (target = offset tok_last →
     result = variantB n rule_a testexpr tokens first last1)
    ∧ (target ≠ offset tok_last →
       (∃ j, second_jump_at (insts self) target inst_offset j) →
       result = Ret false)
    ∧ (target ≠ offset tok_last →
       (∃ j, target_reached_at (insts self) target inst_offset j) →
       result = Ret true).
Proof.
  intros self lhs n ast tokens first last testexpr last1 stmts leaf stmt_offset
    inst_offset jump target tok_last H0 Hlast H1 Hleaf Hoff Hidx Hpos Hjump
    Hopt Harg Htok result.
  assert (HA : variantA self rule_a ast tokens last1
               = if negb (py_eq (VInt target) (VInt (offset tok_last)))
                 then inst ← py_index (insts self) inst_offset;
                      r ← scan_jumps (scan_fuel (insts self) inst_offset)
                            (insts self) (VInt target) inst_offset inst;
                      Ret (Some r)
                 else Ret None).
  { unfold variantA. rewrite bool_decide_eq_true_2 by reflexivity.
    rewrite H1. run_binds. rewrite Hleaf. run_binds. rewrite Hoff. run_binds.
    unfold py_dict_get. rewrite Hidx. run_binds. rewrite Hjump. run_binds.
    rewrite Hopt, bool_decide_eq_true_2 by reflexivity.
    rewrite Harg, Htok. run_binds. reflexivity. }
  subst result.
  rewrite (iflaststmt_unfold _ _ _ _ _ _ _ _ _ _ H0 Hlast), HA. unfold py_eq.
  assert (Hscan : ∀ j x, inst_offset <= j →
            scanned (insts self) target inst_offset j →
            insts self !! Z.to_nat j = Some x →
            ∃ inst d, py_index (insts self) inst_offset = Ret inst
                      ∧ insts self !! Z.to_nat inst_offset = Some inst
                      ∧ j = inst_offset + Z.of_nat d
                      ∧ (d < scan_fuel (insts self) inst_offset)%nat).
  { intros j x Hij Hsc Hx.
    destruct (scan_start_lookup _ _ _ _ _ Hij Hsc Hx) as [inst Hinst].
    exists inst, (Z.to_nat (j - inst_offset)).
    split; [apply py_index_lookup; assumption|].
    split; [assumption|]. split; [lia|].
    apply lookup_lt_Some in Hx. unfold scan_fuel. lia. }
  split; [|split].
  - intros ->. rewrite bool_decide_eq_true_2 by reflexivity. reflexivity.
  - intros Hne [j Hfound].
    rewrite bool_decide_eq_false_2 by congruence. simpl negb. cbv iota.
    destruct Hfound as (Hij & Hsc & x & Hx & Hrest).
    destruct (Hscan j x Hij Hsc Hx) as (inst & d & Hpy & Hinst & -> & Hfuel).
    rewrite Hpy. run_binds.
    rewrite (scan_jumps_found _ _ d) by (try assumption; repeat split; eauto).
    reflexivity.
  - intros Hne [j Hreached].
    rewrite bool_decide_eq_false_2 by congruence. simpl negb. cbv iota.
    destruct Hreached as (Hij & Hsc & x & Hx & Hrest).
    destruct (Hscan j x Hij Hsc Hx) as (inst & d & Hpy & Hinst & -> & Hfuel).
    rewrite Hpy. run_binds.
    rewrite (scan_jumps_reached _ _ d) by (try assumption; repeat split; eauto).
    reflexivity.
Qed.

(** C2 at a concrete input: the jump at offset 12 targets 25, the last token
    is at 30, and the body instruction at offset 20 is a relative jump to 25
    (first part) or no jump at all (second part). *)
Lemma iflaststmt_variantA_scan_witness :
  iflaststmt (parser_a 25 "jrel" (VInt 25)) "iflaststmt" 3 rule_a (ast_a 25)
    tokens3 0 2 = Ret false
  ∧ iflaststmt (parser_a 25 "name" (VStr "b")) "iflaststmt" 3 rule_a (ast_a 25)
      tokens3 0 2 = Ret true.
Proof.
  split.
  - eapply (iflaststmt_variantA_scan (parser_a 25 "jrel" (VInt 25)))
      with (target := 25) (inst_offset := 2);
      [reflexivity | reflexivity | reflexivity | reflexivity | reflexivity
      | reflexivity | lia | reflexivity | reflexivity | reflexivity
      | reflexivity | simpl; lia | ].
    exists 2. split; [lia|]. split.
    + intros k Hk. lia.
    + eexists. split; [reflexivity|]. split; [simpl; lia|].
      split; [|reflexivity]. simpl. set_solver.
  - eapply (iflaststmt_variantA_scan (parser_a 25 "name" (VStr "b")))
      with (target := 25) (inst_offset := 2);
      [reflexivity | reflexivity | reflexivity | reflexivity | reflexivity
      | reflexivity | lia | reflexivity | reflexivity | reflexivity
      | reflexivity | simpl; lia | ].
    exists 3. split; [lia|]. split.
    + intros k Hk. assert (k = 2) as -> by lia.
      eexists. split; [reflexivity|]. split; [simpl; lia|].
      intros [_ Harg]. discriminate Harg.
    + eexists. split; [reflexivity|]. simpl. lia.
Defined.

(** Counterexample to C2 as the specification states it: with a second jump to the same target the
    predicate returns [False] (accept), without one it returns [True]
    (reject). *)
Lemma iflaststmt_variantA_counterexample :
  second_jump_at (insts (parser_a 25 "jrel" (VInt 25))) 25 2 2
  ∧ iflaststmt (parser_a 25 "jrel" (VInt 25)) "iflaststmt" 3 rule_a (ast_a 25)
      tokens3 0 2 ≠ Ret true
  ∧ (∀ j, ¬ second_jump_at (insts (parser_a 25 "name" (VStr "b"))) 25 2 j)
  ∧ iflaststmt (parser_a 25 "name" (VStr "b")) "iflaststmt" 3 rule_a (ast_a 25)
      tokens3 0 2 ≠ Ret false.
Proof.
  split; [|split; [|split]].
  - split; [lia|]. split; [intros k Hk; lia|].
    eexists. split; [reflexivity|]. split; [simpl; lia|].
    split; [simpl; set_solver|reflexivity].
  - discriminate.
  - intros j (Hij & Hsc & x & Hx & Hoff & Hopt & Harg).
    assert (Hlt : (Z.to_nat j < 5)%nat) by (apply lookup_lt_Some in Hx; exact Hx).
    assert (Hj : j = 2 ∨ j = 3 ∨ j = 4) by lia.
    destruct Hj as [ -> | [ -> | -> ] ]; simpl in Hx; injection Hx as <-;
      simpl in *; (discriminate || lia).
  - discriminate.
Qed.

(** C3 (as amended).  When the checks of lines 24-85 have not returned and
    the token before [first] is a [POP_JUMP_IF_FALSE], the predicate returns
    [True] (reject) exactly when that token's jump target equals the jump
    target of the test, and [False] (accept) otherwise. *)
Theorem iflaststmt_chained_and :
  ∀ (self : Parser) (lhs : string) (n : Z) (rule : rule_t) (ast : node)
    (tokens : list Token) (first last : Z) (testexpr : node) (last1 : Z)
    (test test1 : node) (jump_target : pyval) (tok_before : Token),
    getitem ast 0 = Ret testexpr →
    adjust_last tokens last = Ret last1 →
    variantA self rule ast tokens last1 = Ret None →
    getitem testexpr 0 = Ret test →
    node_in test ["testtrue"; "testtruec"; "testfalse"; "testfalsec"] = true →
    getitem test 1 = Ret test1 →
    startswith (node_kind test1) "POP_JUMP_IF_" = true →
    node_attr test1 = Ret jump_target →
    jump_checks n tokens first (clip_last n last1) jump_target = Ret None →
    0 < first →
    py_index tokens (first - 1) = Ret tok_before →
    kind tok_before = "POP_JUMP_IF_FALSE" →
    iflaststmt self lhs n rule ast tokens first last
    = Ret (bool_decide (attr tok_before = jump_target)).
Proof.
  intros self lhs n rule ast tokens first last testexpr last1 test test1
    jump_target tok_before H0 Hlast HA Htest Hkind H1 Hjump Hattr Hchecks Hpos
    Hbefore Hpop.
  rewrite (iflaststmt_unfold _ _ _ _ _ _ _ _ _ _ H0 Hlast), HA, bind_Ret.
  rewrite (variantB_with_jump _ _ _ _ _ _ _ _ _ Htest Hkind H1 Hjump Hattr).
  rewrite Hchecks. run_binds. unfold chained_checks.
  replace (0 <? first) with true by (symmetry; apply Z.ltb_lt; lia).
  rewrite Hbefore. run_binds. unfold tok_is.
  rewrite bool_decide_eq_true_2 by assumption. run_binds. reflexivity.
Qed.

Lemma iflaststmt_chained_and_witness :
  iflaststmt no_insts "iflaststmtc" 4 rule_c (ast_c 40) (tokens4 40) 1 3 = Ret true
  ∧ iflaststmt no_insts "iflaststmtc" 4 rule_c (ast_c 40) (tokens4 50) 1 3 = Ret false.
Proof.
  split.
  - etransitivity;
      [eapply (iflaststmt_chained_and no_insts "iflaststmtc" 4 rule_c (ast_c 40)
                 (tokens4 40) 1 3);
       [reflexivity | reflexivity | reflexivity | reflexivity | reflexivity
       | reflexivity | reflexivity | reflexivity | reflexivity | lia
       | reflexivity | reflexivity]
      | reflexivity].
  - etransitivity;
      [eapply (iflaststmt_chained_and no_insts "iflaststmtc" 4 rule_c (ast_c 40)
                 (tokens4 50) 1 3);
       [reflexivity | reflexivity | reflexivity | reflexivity | reflexivity
       | reflexivity | reflexivity | reflexivity | reflexivity | lia
       | reflexivity | reflexivity]
      | reflexivity].
Defined.

(** Counterexample to C3 as the specification states it: the token before [first] is a
    [POP_JUMP_IF_FALSE] to 40, the test jumps to 40 as well, and the predicate
    returns [True] (reject); with the earlier jump going to 50 instead it
    returns [False] (accept). *)
Lemma iflaststmt_chained_and_counterexample :
  (kind <$> tokens4 40 !! 0%nat) = Some "POP_JUMP_IF_FALSE"
  ∧ (attr <$> tokens4 40 !! 0%nat) = Some (VInt 40)
  ∧ (test ← getitem (testexpr_to 40) 0; test1 ← getitem test 1; node_attr test1)
    = Ret (VInt 40)
  ∧ jump_checks 4 (tokens4 40) 1 3 (VInt 40) = Ret None
  ∧ iflaststmt no_insts "iflaststmtc" 4 rule_c (ast_c 40) (tokens4 40) 1 3
    = Ret true
  ∧ (attr <$> tokens4 50 !! 0%nat) = Some (VInt 50)
  ∧ iflaststmt no_insts "iflaststmtc" 4 rule_c (ast_c 40) (tokens4 50) 1 3
    = Ret false.
Proof. repeat split; reflexivity. Qed.

(** ** The predicate always answers

    Every call returns a boolean or raises a Python exception: the scan loop
    is given enough fuel in every case. *)

Lemma python_Ret {A : Type} (a : A) : python_outcome (Ret a).
Proof. discriminate. Qed.

Lemma python_bind {A B : Type} (m : outcome A) (k : A → outcome B) :
  python_outcome m → (∀ a, m = Ret a → python_outcome (k a)) →
  python_outcome (m ≫= k).
Proof.
  destruct m as [a|e]; simpl; [auto|].
  intros H _ Hk. apply H. congruence.
Qed.

Lemma python_py_index {A : Type} (l : list A) (i : Z) :
  python_outcome (py_index l i).
Proof. unfold py_index. repeat case_match; discriminate. Qed.

Lemma python_getitem (nd : node) (i : Z) : python_outcome (getitem nd i).
Proof. destruct nd; [discriminate|apply python_py_index]. Qed.

Lemma python_py_dict_get (d : gmap Z Z) (k : Z) : python_outcome (py_dict_get d k).
Proof. unfold py_dict_get. case_match; discriminate. Qed.

Lemma python_compare (a : Z) (b : pyval) :
  python_outcome (py_int_lt a b) ∧ python_outcome (py_int_le a b)
  ∧ python_outcome (py_lt_int b a) ∧ python_outcome (py_gt_int b a).
Proof. destruct b; repeat split; discriminate. Qed.

Lemma python_node_methods (nd : node) :
  python_outcome (first_child nd) ∧ python_outcome (off2int nd)
  ∧ python_outcome (node_attr nd) ∧ python_outcome (py_len nd).
Proof. destruct nd; repeat split; discriminate. Qed.

(** Split a goal on the binds and tests of a definition; the calls of the
    built-ins are closed by the lemmas above. *)
Ltac python_steps :=
  repeat first
    [ apply python_Ret
    | apply python_py_index
    | apply python_getitem
    | apply python_py_dict_get
    | apply python_compare
    | apply python_node_methods
    | apply python_bind; [|intros ? ?]
    | match goal with
      | |- python_outcome (if ?c then _ else _) => destruct c
      | |- python_outcome (match ?x with _ => _ end) => destruct x
      end ].

Lemma python_variantA (self : Parser) (rule : rule_t) (ast : node)
    (tokens : list Token) (last : Z) :
  python_outcome (variantA self rule ast tokens last).
Proof.
  unfold variantA. python_steps.
  match goal with
  | H : py_index (insts self) ?i = Ret ?inst |- python_outcome (scan_jumps _ _ _ ?i ?inst) =>
    apply scan_jumps_fuel_enough;
      [apply (py_index_Ret_lt _ _ _ H)|unfold scan_fuel; lia]
  end.
Qed.

Lemma python_variantB (n : Z) (rule : rule_t) (testexpr : node)
    (tokens : list Token) (first last : Z) :
  python_outcome (variantB n rule testexpr tokens first last).
Proof. unfold variantB, jump_checks, chained_checks. python_steps. Qed.

Lemma iflaststmt_python_outcome (self : Parser) (lhs : string) (n : Z)
    (rule : rule_t) (ast : node) (tokens : list Token) (first last : Z) :
  python_outcome (iflaststmt self lhs n rule ast tokens first last).
Proof.
  unfold iflaststmt, adjust_last.
  apply python_bind; [apply python_getitem|intros testexpr _].
  apply python_bind; [python_steps|intros last1 _].
  apply python_bind; [apply python_variantA|intros [b|] _].
  - apply python_Ret.
  - apply python_variantB.
Qed.

(** * Properties of the source walker *)

Section BufferFacts.

Lemma length_newlines (n : nat) : String.length (newlines n) = n.
Proof. induction n as [|n IH]; simpl; congruence. Qed.

(** The first loop of [write] on a run of newlines: line 460 fires at the
    last character. *)
Lemma write_leading_newlines (m n : nat) :
  write_leading (newlines (S m)) n (n + S m) = OnlyNewlines (n + S m).
Proof.
  revert n. induction m as [|m IH]; intros n.
  - simpl. replace (n + 1)%nat with (S n) by lia. rewrite Nat.eqb_refl. reflexivity.
  - change (newlines (S (S m))) with (String nl (newlines (S m))).
    cbn [write_leading]. change (Ascii.eqb nl nl) with true. cbv iota.
    replace (S n =? n + S (S m))%nat with false by (symmetry; apply Nat.eqb_neq; lia).
    replace (n + S (S m))%nat with (S n + S m)%nat by lia. apply IH.
Qed.

(** A write of newlines only leaves the stream alone and raises the pending
    count to the length of the run, when that is larger. *)
Lemma write_newlines (k : nat) (self : SourceWalker) :
  write [newlines (S k)] self
  = (Ret (), set_pending_newlines (Nat.max (pending_newlines self) (S k)) self).
Proof.
  unfold write. change (nothing_to_write [newlines (S k)]) with false. cbv iota.
  change (String.concat "" [newlines (S k)]) with (newlines (S k)).
  rewrite length_newlines.
  change (S k) with (0 + S k)%nat at 2.
  rewrite (write_leading_newlines k 0). reflexivity.
Qed.

Lemma str_app_nil_l (s : string) : "" +:+ s = s.
Proof. reflexivity. Qed.

Lemma str_app_cons (c : ascii) (a b : string) :
  String c a +:+ b = String c (a +:+ b).
Proof. reflexivity. Qed.

(** Push an append through the constructors of its left operand. *)
Ltac str_app := rewrite ?str_app_cons, ?str_app_nil_l.

Lemma str_app_nil_r (s : string) : s +:+ "" = s.
Proof. induction s as [|c s IH]; str_app; congruence. Qed.

Lemma str_app_assoc (a b c : string) : (a +:+ b) +:+ c = a +:+ (b +:+ c).
Proof. induction a as [|x a IH]; str_app; congruence. Qed.

Lemma str_app_length (a b : string) :
  String.length (a +:+ b) = (String.length a + String.length b)%nat.
Proof. induction a as [|x a IH]; str_app; simpl; congruence. Qed.

Lemma list_ascii_of_string_app (a b : string) :
  list_ascii_of_string (a +:+ b)
  = (list_ascii_of_string a ++ list_ascii_of_string b)%list.
Proof. induction a as [|x a IH]; str_app; simpl; congruence. Qed.

Lemma substring_0_app (a b : string) : substring 0 (String.length a) (a +:+ b) = a.
Proof.
  induction a as [|x a IH]; str_app; simpl.
  - destruct b; reflexivity.
  - congruence.
Qed.

Lemma drop_last_app_newlines (body : string) (k : nat) :
  drop_last k (body +:+ newlines k) = body.
Proof.
  unfold drop_last, take. rewrite str_app_length, length_newlines.
  replace (String.length body + k - k)%nat with (String.length body) by lia.
  apply substring_0_app.
Qed.

Lemma leading_newlines_rev_app (k : nat) :
  ∀ l : list ascii,
    leading_newlines (rev (l ++ list_ascii_of_string (newlines k))%list)
    = (k + leading_newlines (rev l))%nat.
Proof.
  induction k as [|k IH]; intros l; simpl.
  - rewrite app_nil_r. reflexivity.
  - change (l ++ nl :: list_ascii_of_string (newlines k))%list
      with (l ++ [nl] ++ list_ascii_of_string (newlines k))%list.
    rewrite app_assoc, IH, rev_app_distr. simpl. lia.
Qed.

Lemma trailing_newlines_app (body : string) (k : nat) :
  trailing_newlines (body +:+ newlines k) = (k + trailing_newlines body)%nat.
Proof.
  unfold trailing_newlines. rewrite list_ascii_of_string_app.
  apply leading_newlines_rev_app.
Qed.

Lemma write_leading_plain (body tail : string) (len : nat) :
  starts_plain body = true → write_leading (body +:+ tail) 0 len = NoNewlines.
Proof.
  destruct body as [|c body]; simpl; [discriminate|].
  intros Hc. apply negb_true_iff in Hc. str_app. simpl. rewrite Hc. reflexivity.
Qed.

Lemma concat_nothing (data : list string) :
  nothing_to_write data = true → String.concat "" data = "".
Proof.
  destruct data as [|x [|y data]]; simpl; try reflexivity.
  - unfold nothing_to_write, only_empty. simpl. intros H.
    apply bool_decide_eq_true in H. congruence.
  - discriminate.
Qed.

(** A write whose text is [body] followed by [k] newlines, where [body]
    neither starts nor ends with a newline: the pending newlines are
    materialized, [body] is appended, and [k] newlines stay pending. *)
Lemma write_text (data : list string) (body : string) (k : nat)
    (self : SourceWalker) :
  String.concat "" data = body +:+ newlines k →
  starts_plain body = true → trailing_newlines body = 0%nat →
  write data self
  = (Ret (),
     set_pending_newlines k
       (f_write body (f_write (newlines (pending_newlines self)) self))).
Proof.
  intros Hout Hfirst Hlast. unfold write.
  destruct (nothing_to_write data) eqn:Hnothing.
  { apply concat_nothing in Hnothing. rewrite Hnothing in Hout.
    destruct body; discriminate. }
  rewrite Hout, (write_leading_plain _ _ _ Hfirst).
  f_equal. unfold write_out.
  assert (Hk : trailing_newlines (body +:+ newlines k) = k)
    by (rewrite trailing_newlines_app; lia).
  destruct self as [ver [fs ind lam gl nl'] stack err pr rn mg pn ae nm dbg tx].
  destruct pn as [|pn]; simpl; rewrite Hk; simpl;
    (destruct k as [|k]; simpl; rewrite ?drop_last_app_newlines;
     unfold f_write, set_params, set_pending_newlines; simpl;
     rewrite ?str_app_nil_r; reflexivity).
Qed.

(** [write] never raises, and it only appends to the stream. *)
Lemma write_returns (data : list string) (self : SourceWalker) :
  write data self = (Ret (), exec (write data) self).
Proof.
  unfold exec, write. destruct (nothing_to_write data); [reflexivity|].
  destruct (write_leading _ _ _); reflexivity.
Qed.

Lemma write_out_appends (out : string) (self : SourceWalker) :
  ∃ tail, stream (write_out out self) = stream self +:+ tail.
Proof.
  unfold write_out, stream.
  destruct (0 <? pending_newlines self)%nat; cbn;
    eexists; rewrite ?str_app_assoc; reflexivity.
Qed.

Lemma write_appends (data : list string) (self : SourceWalker) :
  ∃ tail, stream (exec (write data) self) = stream self +:+ tail.
Proof.
  unfold exec, write. destruct (nothing_to_write data).
  { exists "". rewrite str_app_nil_r. reflexivity. }
  destruct (write_leading _ _ _); simpl.
  - exists "". rewrite str_app_nil_r. reflexivity.
  - apply (write_out_appends _ (set_pending_newlines _ self)).
  - apply write_out_appends.
Qed.

Lemma write_each_cons (item : string) (items : list string) (self : SourceWalker) :
  write_each (item :: items) self = write_each items (exec (write [item]) self).
Proof.
  cbn [write_each].
  change ((write [item];; write_each items) self)
    with (match write [item] self with
          | (Ret a, self') => write_each items self'
          | (Raise e, self') => (Raise e, self')
          end).
  rewrite write_returns. reflexivity.
Qed.

Lemma write_each_returns (items : list string) :
  ∀ self, write_each items self = (Ret (), exec (write_each items) self).
Proof.
  induction items as [|item items IH]; intros self; [reflexivity|].
  unfold exec. rewrite write_each_cons. rewrite IH. reflexivity.
Qed.

Lemma write_each_appends (items : list string) :
  ∀ self, ∃ tail, stream (exec (write_each items) self) = stream self +:+ tail.
Proof.
  induction items as [|item items IH]; intros self.
  - exists "". unfold exec. simpl. rewrite str_app_nil_r. reflexivity.
  - unfold exec. rewrite write_each_cons.
    destruct (IH (exec (write [item]) self)) as [t2 H2].
    destruct (write_appends [item] self) as [t1 H1].
    exists (t1 +:+ t2). unfold exec in *. rewrite H2, H1, str_app_assoc. reflexivity.
Qed.

Lemma bind_get_self {B : Type} (k : SourceWalker → M B) (self : SourceWalker) :
  (get_self ≫= k) self = k self self.
Proof. reflexivity. Qed.

Lemma bind_lift_Ret {A B : Type} (a : A) (k : A → M B) (self : SourceWalker) :
  (lift (Ret a) ≫= k) self = k a self.
Proof. reflexivity. Qed.

Lemma bind_mret {A B : Type} (a : A) (k : A → M B) (self : SourceWalker) :
  (mret a ≫= k) self = k a self.
Proof. reflexivity. Qed.

Lemma bind_raise {A B : Type} (e : exn) (k : A → M B) (self : SourceWalker) :
  (raise e ≫= k) self = (Raise e, self).
Proof. reflexivity. Qed.

Lemma bind_modify {B : Type} (g : SourceWalker → SourceWalker) (k : unit → M B)
    (self : SourceWalker) :
  (modify g ≫= k) self = k () (g self).
Proof. reflexivity. Qed.

Lemma bind_assoc {A B C : Type} (m : M A) (k1 : A → M B) (k2 : B → M C)
    (self : SourceWalker) :
  ((m ≫= k1) ≫= k2) self = (m ≫= λ a, k1 a ≫= k2) self.
Proof.
  change (((m ≫= k1) ≫= k2) self)
    with (match (match m self with
                 | (Ret a, self') => k1 a self'
                 | (Raise e, self') => (Raise e, self')
                 end) with
          | (Ret b, self') => k2 b self'
          | (Raise e, self') => (Raise e, self')
          end).
  change ((m ≫= λ a, k1 a ≫= k2) self)
    with (match m self with
          | (Ret a, self') => (k1 a ≫= k2) self'
          | (Raise e, self') => (Raise e, self')
          end).
  destruct (m self) as [[a|e] self']; reflexivity.
Qed.

Lemma returns_write (data : list string) : returns (write data).
Proof. intros self. apply write_returns. Qed.

Lemma returns_modify (g : SourceWalker → SourceWalker) : returns (modify g).
Proof. intros self. reflexivity. Qed.

Lemma returns_mret : returns (mret ()).
Proof. intros self. reflexivity. Qed.

Lemma bind_returns {B : Type} (m : M unit) (k : M B) (self : SourceWalker) :
  returns m → (m;; k) self = k (exec m self).
Proof.
  intros Hm.
  change ((m;; k) self)
    with (match m self with
          | (Ret a, self') => k self'
          | (Raise e, self') => (Raise e, self')
          end).
  rewrite Hm. reflexivity.
Qed.

Lemma exec_bind {B : Type} (m : M unit) (k : M B) (self : SourceWalker) :
  returns m → exec (m;; k) self = exec k (exec m self).
Proof. intros Hm. unfold exec at 1. rewrite bind_returns by assumption. reflexivity. Qed.

Lemma returns_bind (m k : M unit) : returns m → returns k → returns (m;; k).
Proof.
  intros Hm Hk self. rewrite bind_returns, exec_bind by assumption. apply Hk.
Qed.

Lemma returns_println (data : list string) : returns (println data).
Proof.
  unfold println. apply returns_bind; [|apply returns_modify].
  destruct (_ && _); [apply returns_write|apply returns_mret].
Qed.

End BufferFacts.

(** Run the steps of a method that read the state, look a value up or return
    one. *)
Ltac run_M :=
  repeat (progress (cbv beta iota;
                    rewrite ?bind_assoc, ?bind_get_self, ?bind_lift_Ret, ?bind_mret,
                      ?bind_modify, ?bind_raise)).

(** The same, also running the steps known never to raise. *)
Ltac run_returns :=
  repeat (run_M; rewrite ?bind_returns by auto with returns).

Create HintDb returns.
#[local] Hint Resolve returns_write returns_println returns_modify returns_mret
  returns_bind : returns.

(** C4 (as amended).  From a fresh walker, the writes ["\n\n"], ["a"], ["\n"],
    ["\n"] followed by the flush of the pending newlines produce exactly
    ["\n\na\n"]; and, from any state, consecutive writes of newline runs leave
    the stream alone and leave pending the longest run requested by one of
    them (or the count pending before, when that is larger): never more,
    never fewer. *)
Theorem write_coalesces_newlines :
  (∀ ver : list Z,
     stream (exec newline_writes (fresh_walker ver))
     = newlines 2 +:+ "a" +:+ newlines 1)
  ∧ (∀ (runs : list nat) (self : SourceWalker),
       exec (write_each (map (λ k, newlines (S k)) runs)) self
       = set_pending_newlines
           (foldl (λ pending k, Nat.max pending (S k)) (pending_newlines self) runs)
           self).
Proof.
  split; [reflexivity|].
  induction runs as [|k runs IH]; intros self.
  - destruct self; reflexivity.
  - cbn [map foldl]. unfold exec in *.
    rewrite write_each_cons. unfold exec. rewrite write_newlines. simpl snd.
    rewrite IH. reflexivity.
Qed.

(** Counterexample to C4 as the specification states it: the text is ["\n\na\n"], one newline short
    of ["\n\na\n\n"]. *)
Lemma write_coalesces_newlines_counterexample :
  stream (exec newline_writes (fresh_walker [3; 8])) = newlines 2 +:+ "a" +:+ newlines 1
  ∧ stream (exec newline_writes (fresh_walker [3; 8])) ≠ newlines 2 +:+ "a" +:+ newlines 2.
Proof. split; [reflexivity|discriminate]. Qed.

(** C5 (as amended).  For the docstring [He said "hi"] followed by a
    newline, the renderer keeps triple double quotes as the delimiter (the
    text holds no triple double quote), escapes neither embedded double
    quote (none of them abuts the closing delimiter), and emits the embedded
    newline as a line break: it writes the indentation, the delimiter, the
    line [He said "hi"], and on the next line the closing delimiter.  Without
    the final newline the last double quote would abut the delimiter, and it
    alone is escaped. *)
Theorem n_docstring_said_hi :
  docstring_quote hi_docstring = triple_dquote
  ∧ (∀ self : SourceWalker,
       n_docstring (docstring_node hi_docstring) self
       = (Raise GenericASTTraversalPruningException,
          exec (write [indent (params self)];; write [triple_dquote];;
                println [said_hi];; println [""; triple_dquote]) self))
  ∧ (∀ ver : list Z,
       stream (exec (n_docstring (docstring_node hi_docstring)) (fresh_walker ver))
       = triple_dquote +:+ said_hi +:+ str1 nl +:+ triple_dquote)
  ∧ docstring_escape triple_dquote (docstring_unescape said_hi)
    = "He said " +:+ str1 dquote +:+ "hi" +:+ str1 backslash +:+ str1 dquote.
Proof.
  split; [reflexivity|]. split; [|split; reflexivity].
  intros self.
  change (n_docstring (docstring_node hi_docstring) self)
    with ((write [indent (params self)];; write [triple_dquote];;
           println [said_hi];; println [""; triple_dquote];; prune) self).
  rewrite !bind_returns, !exec_bind by auto with returns. reflexivity.
Qed.

(** Counterexample to C5 as the specification states it: the text holds double quotes and no
    triple single quote, and the delimiter is not the triple single quote. *)
Lemma n_docstring_said_hi_counterexample :
  has_char dquote hi_docstring = true
  ∧ find hi_docstring triple_squote = -1
  ∧ docstring_quote hi_docstring ≠ triple_squote
  ∧ startswith
      (stream (exec (n_docstring (docstring_node hi_docstring)) (fresh_walker [3; 8])))
      triple_squote = false.
Proof. repeat split; (reflexivity || discriminate). Qed.

(** C6 (as amended).  For an import-alias node rendered for a version above
    (2, 1), whose imported name [iname] and bound name [sname] are strings:
    the renderer writes [iname] alone exactly when [iname] is not empty and
    equals [sname], or [iname] starts with [sname] followed by a dot (the
    bound name is the leading part of the dotted name); in all other cases
    it writes [iname], " as " and [sname]. *)
Theorem n_alias_as_suffix :
  ∀ (self : SourceWalker) (nd last store_node nd0 : node) (iname sname : string),
    tuple_le (version self) [2; 1] = false →
    getitem nd (-1) = Ret last →
    getitem last (-1) = Ret store_node →
    startswith (node_kind store_node) "STORE_" = true →
    getitem nd 0 = Ret nd0 →
    node_pattr nd0 = Ret (VStr iname) →
    node_pattr store_node = Ret (VStr sname) →
    (omits_as iname sname →
     n_alias nd self
     = (Raise GenericASTTraversalPruningException, exec (write [iname]) self))
    ∧ (¬ omits_as iname sname →
       n_alias nd self
       = (Raise GenericASTTraversalPruningException,
          exec (write [iname; " as "; sname]) self)).
Proof.
  intros self nd last store_node nd0 iname sname Hver Hlast Hstore Hkind H0
    Hiname Hsname.
  assert (Hrun : n_alias nd self
                 = ((if negb (String.eqb iname "") && py_eq (VStr iname) (VStr sname)
                        || startswith iname (sname +:+ ".")
                     then write [iname]
                     else write [iname; " as "; sname]);; prune) self).
  { unfold n_alias. run_M. rewrite Hver. run_M.
    rewrite Hlast. run_M. rewrite Hstore. run_M. rewrite Hkind.
    unfold py_assert. run_M. rewrite H0. run_M. rewrite Hiname. run_M.
    rewrite Hsname. run_M.
    unfold truthy, py_str.
    destruct (negb (String.eqb iname "") && py_eq (VStr iname) (VStr sname)) eqn:Heq;
      run_M; [reflexivity|].
    destruct (startswith iname (sname +:+ ".")); reflexivity. }
  assert (Htest : negb (String.eqb iname "") && py_eq (VStr iname) (VStr sname)
                  || startswith iname (sname +:+ ".") = true
                  ↔ omits_as iname sname).
  { unfold omits_as, py_eq.
    rewrite orb_true_iff, andb_true_iff, negb_true_iff, String.eqb_neq,
      bool_decide_eq_true.
    split; (intros [[Hne Heq]|Hpre]; [left; split; congruence|right; assumption]). }
  rewrite Hrun. split.
  - intros Homit. apply Htest in Homit. rewrite Homit.
    rewrite bind_returns by auto with returns. reflexivity.
  - intros Hkeep. destruct (_ || _) eqn:Hb; [exfalso; apply Hkeep, Htest; reflexivity|].
    rewrite bind_returns by auto with returns. reflexivity.
Qed.

Lemma n_alias_as_suffix_witness :
  n_alias (alias_node "os.path" "os") (fresh_walker [3; 8])
  = (Raise GenericASTTraversalPruningException,
     exec (write ["os.path"]) (fresh_walker [3; 8]))
  ∧ n_alias (alias_node "a.b" "b") (fresh_walker [3; 8])
    = (Raise GenericASTTraversalPruningException,
       exec (write ["a.b"; " as "; "b"]) (fresh_walker [3; 8])).
Proof.
  split.
  - eapply (n_alias_as_suffix (fresh_walker [3; 8]) (alias_node "os.path" "os"));
      [reflexivity | reflexivity | reflexivity | reflexivity | reflexivity
      | reflexivity | reflexivity | right; reflexivity].
  - eapply (n_alias_as_suffix (fresh_walker [3; 8]) (alias_node "a.b" "b"));
      [reflexivity | reflexivity | reflexivity | reflexivity | reflexivity
      | reflexivity | reflexivity | ].
    intros [[_ Heq]|Hpre]; discriminate.
Defined.

(** Counterexample to C6 as the specification states it, in both directions: [b] is the last dotted
    component of [a.b], yet the suffix is written; [os] is neither equal to
    [os.path] nor its last component, yet the suffix is omitted. *)
Lemma n_alias_as_suffix_counterexample :
  spec_omits_as "a.b" "b"
  ∧ stream (exec (n_alias (alias_node "a.b" "b")) (fresh_walker [3; 8])) = "a.b as b"
  ∧ ¬ spec_omits_as "os.path" "os"
  ∧ stream (exec (n_alias (alias_node "os.path" "os")) (fresh_walker [3; 8])) = "os.path".
Proof.
  split; [right; reflexivity|]. split; [reflexivity|]. split; [|reflexivity].
  intros [Heq|Hlast]; discriminate.
Qed.

(** ** Precedence across a handler *)

Lemma write_keeps_prec (data : list string) (self : SourceWalker) :
  prec (exec (write data) self) = prec self.
Proof.
  unfold exec, write. destruct (nothing_to_write data); [reflexivity|].
  destruct (write_leading _ _ _); simpl; try reflexivity;
    unfold write_out; repeat (destruct (_ <? _)%nat; simpl); reflexivity.
Qed.

Section Precedence.

Variable preorder : node → M unit.
Variable PRECEDENCE : gmap string Z.

(** The best case for a handler: the render of a child returns and leaves
    the precedence as it found it. *)
Hypothesis preorder_keeps_prec :
  ∀ (nd : node) (self : SourceWalker),
    ∃ self', preorder nd self = (Ret (), self') ∧ prec self' = prec self.

Lemma bind_preorder {B : Type} (nd : node) (k : unit → M B) (self : SourceWalker) :
  ∃ self', (preorder nd ≫= k) self = k () self' ∧ prec self' = prec self.
Proof.
  destruct (preorder_keeps_prec nd self) as (self' & Hrun & Hprec).
  exists self'. split; [|assumption].
  change ((preorder nd ≫= k) self)
    with (match preorder nd self with
          | (Ret a, self') => k a self'
          | (Raise e, self') => (Raise e, self')
          end).
  rewrite Hrun. reflexivity.
Qed.

(** Lines 546-554, from any state: the parentheses and the child are
    written, then [p] is put back and the handler prunes. *)
Lemma n_expr_tail (p : Z) (nd : node) (self : SourceWalker) :
  ∃ self',
    ((if p <? prec self
      then write ["("];; preorder nd;; write [")"]
      else preorder nd);;
     modify (set_prec p);; prune) self
    = (Raise GenericASTTraversalPruningException, self')
    ∧ prec self' = p.
Proof.
  destruct (p <? prec self).
  - rewrite bind_assoc. rewrite bind_returns by auto with returns.
    rewrite bind_assoc.
    destruct (bind_preorder nd (λ _, write [")"];; modify (set_prec p);; prune)
                (exec (write ["("]) self)) as (self' & -> & _).
    rewrite bind_returns by auto with returns. run_M.
    eexists. split; reflexivity.
  - destruct (bind_preorder nd (λ _, modify (set_prec p);; prune) self)
      as (self' & -> & _).
    run_M. eexists. split; reflexivity.
Qed.

(** [n_expr] saves the precedence on entry and puts it back before it
    prunes (lines 528 and 553). *)
Lemma n_expr_restores_prec (k : string) (t : Token) (self : SourceWalker) :
  startswith (kind t) "bin_op" = false →
  ∃ self',
    n_expr preorder PRECEDENCE (SyntaxTree k [Tok t]) self
    = (Raise GenericASTTraversalPruningException, self')
    ∧ prec self' = prec self.
Proof.
  intros Hbin. unfold n_expr.
  change (getitem (SyntaxTree k [Tok t]) 0) with (Ret (Tok t)).
  run_M. change (node_kind (Tok t)) with (kind t). rewrite Hbin. run_M.
  destruct (node_is (Tok t) "LOAD_CONST"); run_M.
  - change (node_pattr (Tok t)) with (Ret (pattr t)). run_M.
    match goal with
    | |- context [bool_decide ?P] => destruct (bool_decide P)
    end; run_M; apply n_expr_tail.
  - apply n_expr_tail.
Qed.

(** C7: a handler that does not put the precedence back.  [n_return_expr]
    (lines 605-611) stores [PRECEDENCE["yield"] - 1] before it renders its
    expression and never restores the precedence it found, although every
    child render restores it: after the call the precedence is
    [PRECEDENCE["yield"] - 1], whatever it was before. *)
Theorem n_return_expr_leaks_prec (t : Token) (self : SourceWalker) (y : Z) :
  startswith (kind t) "bin_op" = false →
  PRECEDENCE !! "yield" = Some y →
  ∃ self',
    n_return_expr preorder PRECEDENCE (return_expr_node t) self
    = (Raise GenericASTTraversalPruningException, self')
    ∧ prec self' = y - 1.
Proof.
  intros Hbin Hyield. unfold n_return_expr, return_expr_node.
  change (py_len (SyntaxTree "return_expr" [SyntaxTree "expr" [Tok t]]))
    with (Ret 1).
  run_M. change (1 =? 1) with true. cbv iota.
  change (getitem (SyntaxTree "return_expr" [SyntaxTree "expr" [Tok t]]) 0)
    with (Ret (SyntaxTree "expr" [Tok t])).
  run_M. change (node_is (SyntaxTree "expr" [Tok t]) "expr") with true.
  run_M. rewrite Hyield. run_M.
  destruct (n_expr_restores_prec "expr" t (set_prec (y - 1) self) Hbin)
    as (self' & Hrun & Hprec).
  exists self'. split; assumption.
Qed.

End Precedence.

Lemma n_return_expr_leaks_prec_witness :
  prec (fresh_walker [3; 8]) = 100
  ∧ prec (exec (n_return_expr preorder_kind precedence_yield
                  (return_expr_node (load_name "x")))
            (fresh_walker [3; 8])) = 37.
Proof.
  split; [reflexivity|].
  destruct (n_return_expr_leaks_prec preorder_kind precedence_yield
              (λ nd self, ex_intro _ (exec (write [node_kind nd]) self)
                            (conj (write_returns [node_kind nd] self)
                                  (write_keeps_prec [node_kind nd] self)))
              (load_name "x") (fresh_walker [3; 8]) 38 eq_refl eq_refl)
    as (self' & Hrun & Hprec).
  unfold exec. rewrite Hrun. exact Hprec.
Defined.

(** ** What [write] leaves alone *)

Lemma same_but_output_refl (a : SourceWalker) : same_but_output a a.
Proof. reflexivity. Qed.

Lemma same_but_output_trans (a b c : SourceWalker) :
  same_but_output a b → same_but_output b c → same_but_output a c.
Proof. unfold same_but_output. congruence. Qed.

Lemma write_out_same (out : string) (self : SourceWalker) :
  same_but_output self (write_out out self).
Proof.
  unfold write_out.
  destruct (0 <? pending_newlines self)%nat;
    match goal with
    | |- context [negb ?c] => destruct (negb c)
    end; reflexivity.
Qed.

Lemma write_same (data : list string) (self : SourceWalker) :
  same_but_output self (exec (write data) self).
Proof.
  unfold exec, write. destruct (nothing_to_write data); [reflexivity|].
  destruct (write_leading _ _ _); simpl snd.
  - reflexivity.
  - eapply same_but_output_trans; [|apply write_out_same]. reflexivity.
  - apply write_out_same.
Qed.

Lemma write_each_same (items : list string) :
  ∀ self, same_but_output self (exec (write_each items) self).
Proof.
  induction items as [|item items IH]; intros self; [reflexivity|].
  unfold exec. rewrite write_each_cons.
  eapply same_but_output_trans; [apply write_same|apply IH].
Qed.

Lemma same_but_output_ast_errors (a b : SourceWalker) :
  same_but_output a b → ast_errors a = ast_errors b.
Proof. intros H. apply (f_equal ast_errors) in H. exact H. Qed.

Lemma same_but_output_param_stack (a b : SourceWalker) :
  same_but_output a b → param_stack a = param_stack b.
Proof. intros H. apply (f_equal param_stack) in H. exact H. Qed.

Lemma returns_write_each (items : list string) : returns (write_each items).
Proof. intros self. apply write_each_returns. Qed.

#[local] Hint Resolve returns_write_each : returns.

(** Lines 2700-2712 with a non-empty list of diagnostics. *)
Lemma code_deparse_finish_raises (self : SourceWalker) :
  ast_errors self ≠ [] →
  code_deparse_finish self
  = (Raise (SourceWalkerError "Deparsing hit an internal grammar-rule bug"),
     exec (write_each (ast_errors self))
       (exec (write [note_line +:+ str1 nl];; write [use_line])
          (exec (write_each (map unused_global_warning (sorted (mod_globs self))))
             self))).
Proof.
  intros Herrs. unfold code_deparse_finish. run_M.
  rewrite bind_returns by auto with returns.
  set (warned := exec _ self). run_M.
  rewrite <- (same_but_output_ast_errors self warned) by apply write_each_same.
  destruct (ast_errors self) as [|err errs] eqn:Hlist; [congruence|].
  change (negb (length (err :: errs) =? 0)%nat) with true.
  run_returns. rewrite exec_bind by auto with returns. reflexivity.
Qed.

(** C8.  When tree building and rendering have completed and the list of
    grammar diagnostics is not empty, [code_deparse] writes the warnings
    about unused globals, then the two header comment lines and every
    diagnostic, in order, after the text produced so far, and then raises
    [SourceWalkerError]: it does not return. *)
Theorem code_deparse_reports_then_raises :
  ∀ (build_and_render : M bool) (self0 self : SourceWalker),
    build_and_render self0 = (Ret true, self) →
    ast_errors self ≠ [] →
    let warned :=
      exec (write_each (map unused_global_warning (sorted (mod_globs self))))
        self in
    let noted := exec (write [note_line +:+ str1 nl];; write [use_line]) warned in
    let reported := exec (write_each (ast_errors self)) noted in
    code_deparse build_and_render self0
    = (Raise (SourceWalkerError "Deparsing hit an internal grammar-rule bug"),
       reported)
    ∧ stream noted
      = stream warned +:+ newlines (pending_newlines warned) +:+ note_line
        +:+ str1 nl +:+ use_line
    ∧ (∃ tail, stream warned = stream self +:+ tail)
    ∧ (∃ tail, stream reported = stream noted +:+ tail).
Proof.
  intros build_and_render self0 self Hfront Herrs warned noted reported.
  split; [|split; [|split]].
  - unfold code_deparse.
    change ((build_and_render ≫= ?k) self0)
      with (match build_and_render self0 with
            | (Ret a, self') => k a self'
            | (Raise e, self') => (Raise e, self')
            end).
    rewrite Hfront. cbv beta iota.
    change ((code_deparse_finish ≫= ?k) self)
      with (match code_deparse_finish self with
            | (Ret a, self') => k a self'
            | (Raise e, self') => (Raise e, self')
            end).
    rewrite (code_deparse_finish_raises self Herrs). reflexivity.
  - subst noted. rewrite exec_bind by auto with returns. unfold exec.
    rewrite (write_text [note_line +:+ str1 nl] note_line 1)
      by reflexivity.
    cbn [snd].
    rewrite (write_text [use_line] use_line 0)
      by (reflexivity || (symmetry; apply str_app_nil_r)).
    unfold stream. simpl. rewrite !str_app_assoc. reflexivity.
  - apply write_each_appends.
  - apply write_each_appends.
Qed.

Lemma code_deparse_reports_then_raises_witness :
  fst (code_deparse (mret true) walker_with_errors)
  = Raise (SourceWalkerError "Deparsing hit an internal grammar-rule bug")
  ∧ stream (exec (code_deparse (mret true)) walker_with_errors)
    = "x = 1" +:+ str1 nl +:+ "# global g ## Warning: Unused global" +:+ str1 nl
      +:+ note_line +:+ str1 nl +:+ use_line +:+ "# bad rule".
Proof.
  pose proof (code_deparse_reports_then_raises (mret true) walker_with_errors
                walker_with_errors eq_refl ltac:(discriminate)) as [Hrun _].
  unfold exec. rewrite Hrun. split; reflexivity.
Defined.

(** ** The scope stack *)

Section Scopes.

Variable preorder : node → M unit.

(** The stack discipline of a nested render: when it returns, the stack is
    the one it started with.  [traverse] is the only method that pushes or
    pops, and it satisfies the discipline itself (see below). *)
Hypothesis preorder_keeps_stack :
  ∀ (nd : node) (self self' : SourceWalker),
    preorder nd self = (Ret (), self') → param_stack self' = param_stack self.

(** [traverse], step by step, when the nested render returns. *)
Lemma traverse_returns (nd : node) (indent_arg : option string)
    (is_lambda_arg : bool) (self inner : SourceWalker) :
  preorder nd (scope_entry self indent_arg is_lambda_arg) = (Ret (), inner) →
  traverse preorder nd indent_arg is_lambda_arg self
  = (Ret (stream inner +:+ newlines (pending_newlines inner)),
     set_pending_newlines (pending_newlines self)
       (set_params (params self)
          (set_param_stack (param_stack self) (flush_newlines inner)))).
Proof.
  intros Hrun.
  pose proof (preorder_keeps_stack _ _ _ Hrun) as Hstack.
  unfold traverse. run_M.
  change (set_params _ (set_pending_newlines 0 (set_param_stack _ self)))
    with (scope_entry self indent_arg is_lambda_arg).
  change ((preorder nd ≫= ?k) (scope_entry self indent_arg is_lambda_arg))
    with (match preorder nd (scope_entry self indent_arg is_lambda_arg) with
          | (Ret a, self') => k a self'
          | (Raise e, self') => (Raise e, self')
          end).
  rewrite Hrun. run_M.
  change (param_stack (flush_newlines inner)) with (param_stack inner).
  rewrite Hstack.
  change (param_stack (scope_entry self indent_arg is_lambda_arg))
    with (params self :: param_stack self).
  run_M. reflexivity.
Qed.

(** C9.  A nested render through [traverse] starts on an empty stream with
    no newline pending; when it returns, [traverse] returns the text of that
    stream (with the newlines still pending there), and the caller's
    parameter bundle (stream and indentation included), its pending-newline
    count and the stack below are exactly what they were before the call. *)
Theorem traverse_isolates_scope :
  ∀ (nd : node) (indent_arg : option string) (is_lambda_arg : bool)
    (self inner : SourceWalker),
    preorder nd (scope_entry self indent_arg is_lambda_arg) = (Ret (), inner) →
    stream (scope_entry self indent_arg is_lambda_arg) = ""
    ∧ pending_newlines (scope_entry self indent_arg is_lambda_arg) = 0%nat
    ∧ ∃ self',
        traverse preorder nd indent_arg is_lambda_arg self
        = (Ret (stream inner +:+ newlines (pending_newlines inner)), self')
        ∧ params self' = params self
        ∧ pending_newlines self' = pending_newlines self
        ∧ param_stack self' = param_stack self.
Proof.
  intros nd indent_arg is_lambda_arg self inner Hrun.
  split; [reflexivity|]. split; [reflexivity|].
  eexists. split; [apply traverse_returns; exact Hrun|].
  repeat split; reflexivity.
Qed.

(** [traverse] keeps the discipline it relies on. *)
Lemma traverse_keeps_stack (nd : node) (indent_arg : option string)
    (is_lambda_arg : bool) (self self' : SourceWalker) (result : string) :
  traverse preorder nd indent_arg is_lambda_arg self = (Ret result, self') →
  param_stack self' = param_stack self.
Proof.
  destruct (preorder nd (scope_entry self indent_arg is_lambda_arg))
    as [[[]|e] inner] eqn:Hrun.
  - rewrite (traverse_returns _ _ _ _ _ Hrun). intros [= _ <-]. reflexivity.
  - unfold traverse. run_M.
    change (set_params _ (set_pending_newlines 0 (set_param_stack _ self)))
      with (scope_entry self indent_arg is_lambda_arg).
    change ((preorder nd ≫= ?k) (scope_entry self indent_arg is_lambda_arg))
      with (match preorder nd (scope_entry self indent_arg is_lambda_arg) with
            | (Ret a, self') => k a self'
            | (Raise e, self') => (Raise e, self')
            end).
    rewrite Hrun. discriminate.
Qed.

End Scopes.

Lemma preorder_kind_keeps_stack (nd : node) (self self' : SourceWalker) :
  preorder_kind nd self = (Ret (), self') → param_stack self' = param_stack self.
Proof.
  unfold preorder_kind. rewrite write_returns. intros [= <-].
  symmetry. apply same_but_output_param_stack, write_same.
Qed.

Lemma traverse_isolates_scope_witness :
  ∃ self',
    traverse preorder_kind (docstring_node "doc") (Some "    ") false
      walker_with_errors
    = (Ret "docstring", self')
    ∧ params self' = params walker_with_errors
    ∧ pending_newlines self' = 1%nat
    ∧ param_stack self' = [].
Proof.
  destruct (traverse_isolates_scope preorder_kind preorder_kind_keeps_stack
              (docstring_node "doc") (Some "    ") false walker_with_errors
              (exec (preorder_kind (docstring_node "doc"))
                 (scope_entry walker_with_errors (Some "    ") false))
              eq_refl)
    as (_ & _ & self' & Hrun & Hparams & Hpending & Hstack).
  exists self'. repeat split; assumption.
Defined.

(** ** [gen_source] on an empty tree *)

(** C10.  For a tree without children, [gen_source] writes the current
    indentation followed by [pass] through [println], and puts [name] and
    [return_none] back; neither [customize] nor [traverse] (and so no
    template) takes part: the result is the same for every [customize] and
    every dispatcher.  When the indentation is made of spaces, the stream
    gets the pending newlines, the indentation and [pass], and one newline
    is left pending. *)
Theorem gen_source_empty_tree :
  ∀ (preorder : node → M unit) (customize_t : Type)
    (customize : customize_t → M unit) (k : string) (name_arg : string)
    (customize_arg : customize_t) (is_lambda_arg returnNone : bool)
    (debug_opts_arg : DebugOpts) (self : SourceWalker),
    let written :=
      exec (println [indent (params self); "pass"])
        (set_debug_opts (Some debug_opts_arg)
           (set_name (Some name_arg) (set_return_none returnNone self))) in
    gen_source preorder customize_t customize (SyntaxTree k []) name_arg
      customize_arg is_lambda_arg returnNone debug_opts_arg self
    = (Ret (), set_return_none (return_none self) (set_name (name self) written))
    ∧ (∀ level : nat,
         indent (params self) = spaces level →
         stream written
         = stream self +:+ newlines (pending_newlines self) +:+ spaces level
           +:+ "pass"
         ∧ pending_newlines written = 1%nat).
Proof.
  intros preorder customize_t customize k name_arg customize_arg is_lambda_arg
    returnNone debug_opts_arg self written.
  split.
  - unfold gen_source. run_M.
    change (py_len (SyntaxTree k [])) with (Ret 0). run_M.
    change (0 =? 0) with true. run_M.
    rewrite bind_returns by auto with returns. run_M. reflexivity.
  - intros level Hindent. subst written. rewrite Hindent.
    unfold println.
    change (negb (length [spaces level; "pass"] =? 0)%nat
            && negb (only_empty [spaces level; "pass"])) with true.
    cbv iota. rewrite exec_bind by auto with returns.
    set (self0 := set_debug_opts _ _).
    assert (Hw : exec (write [spaces level; "pass"]) self0
                 = set_pending_newlines 0
                     (f_write (spaces level +:+ "pass")
                        (f_write (newlines (pending_newlines self0)) self0))).
    { unfold exec.
      rewrite (write_text [spaces level; "pass"] (spaces level +:+ "pass") 0).
      - reflexivity.
      - simpl. rewrite !str_app_nil_r. reflexivity.
      - destruct level; reflexivity.
      - unfold trailing_newlines. rewrite list_ascii_of_string_app, rev_app_distr.
        reflexivity. }
    rewrite Hw. split; [|reflexivity].
    unfold stream, exec, modify, f_write, set_params. simpl.
    rewrite ?str_app_assoc. reflexivity.
Qed.

Lemma gen_source_empty_tree_witness :
  stream (exec (println ["    "; "pass"])
            (set_debug_opts (Some (mkDebugOpts false (false, false) []))
               (set_name (Some "f")
                  (set_return_none false
                     (set_params (mkParams "def f():" "    " None None None)
                        walker_with_errors)))))
  = "def f():" +:+ str1 nl +:+ "    pass".
Proof.
  pose proof (gen_source_empty_tree preorder_kind unit (λ _, mret ()) "stmts" "f"
                () false false (mkDebugOpts false (false, false) [])
                (set_params (mkParams "def f():" "    " None None None)
                   walker_with_errors)) as [_ Hspaces].
  destruct (Hspaces 4%nat eq_refl) as [Hstream _].
  exact Hstream.
Defined.

(** * Further properties of [iflaststmt] *)

Section IflaststmtMore.

Context (self : Parser) (lhs : string) (n : Z) (rule : rule_t) (ast : node)
  (tokens : list Token) (first last : Z).

(** X1.  A bare [and]/[nand] test wins over the statement rule (lines
    59-62): when the block of lines 24-54 has not decided, the test node has
    the single child [and] or [nand], and the right-hand side of the rule is
    [testexpr stmts], the reduction is rejected. *)
Theorem iflaststmt_and_rule_rejects (testexpr : node) (last1 : Z)
    (k : string) (operand : node) :
  getitem ast 0 = Ret testexpr →
  adjust_last tokens last = Ret last1 →
  variantA self rule ast tokens last1 = Ret None →
  getitem testexpr 0 = Ret (SyntaxTree k [operand]) →
  k ∈ ["testtrue"; "testtruec"; "testfalse"; "testfalsec"] →
  node_kind operand ∈ ["nand"; "and"] →
  rule.2 = ["testexpr"; "stmts"] →
  iflaststmt self lhs n rule ast tokens first last = Ret true.
Proof.
  intros H0 Hlast HA Htest Hk Hop Hrule.
  rewrite (iflaststmt_unfold _ _ _ _ _ _ _ _ _ _ H0 Hlast), HA, bind_Ret.
  unfold variantB. rewrite Htest, bind_Ret.
  unfold node_in, str_in. cbn [node_kind].
  rewrite (bool_decide_eq_true_2 _ Hk).
  cbn [py_len length]. run_binds. change (Z.of_nat 1 =? 1) with true. run_binds.
  change (getitem (SyntaxTree k [operand]) 0) with (Ret operand). run_binds.
  rewrite (bool_decide_eq_true_2 _ Hop), (bool_decide_eq_true_2 _ Hrule).
  reflexivity.
Qed.

(** X2.  Without one of the four test nodes there is nothing to check
    (lines 56 and 100): when the block of lines 24-54 has not decided and
    [testexpr[0]] is not a [testtrue], [testtruec], [testfalse] or
    [testfalsec] node, the reduction is accepted. *)
Theorem iflaststmt_other_test_accepts (testexpr test : node) (last1 : Z) :
  getitem ast 0 = Ret testexpr →
  adjust_last tokens last = Ret last1 →
  variantA self rule ast tokens last1 = Ret None →
  getitem testexpr 0 = Ret test →
  node_kind test ∉ ["testtrue"; "testtruec"; "testfalse"; "testfalsec"] →
  iflaststmt self lhs n rule ast tokens first last = Ret false.
Proof.
  intros H0 Hlast HA Htest Hk.
  rewrite (iflaststmt_unfold _ _ _ _ _ _ _ _ _ _ H0 Hlast), HA, bind_Ret.
  unfold variantB. rewrite Htest, bind_Ret.
  unfold node_in, str_in. rewrite (bool_decide_eq_false_2 _ Hk). reflexivity.
Qed.

(** X3.  The end marker is transparent (line 21): with [RETURN_LAST] at
    index [last] and another token before it, the predicate answers as it
    does for [last - 1]. *)
Theorem iflaststmt_skips_return_last (marker before : Token) :
  0 < last →
  tokens !! Z.to_nat last = Some marker →
  kind marker = "RETURN_LAST" →
  tokens !! Z.to_nat (last - 1) = Some before →
  kind before ≠ "RETURN_LAST" →
  iflaststmt self lhs n rule ast tokens first last
  = iflaststmt self lhs n rule ast tokens first (last - 1).
Proof.
  intros Hpos Hmarker Hkind Hbefore Hother.
  assert (H1 : adjust_last tokens last = Ret (last - 1)).
  { unfold adjust_last. rewrite (py_index_lookup _ _ marker) by (assumption || lia).
    run_binds. unfold tok_is. rewrite (bool_decide_eq_true_2 _ Hkind). reflexivity. }
  assert (H2 : adjust_last tokens (last - 1) = Ret (last - 1)).
  { unfold adjust_last. rewrite (py_index_lookup _ _ before) by (assumption || lia).
    run_binds. unfold tok_is. rewrite (bool_decide_eq_false_2 _ Hother). reflexivity. }
  unfold iflaststmt. rewrite H1, H2. reflexivity.
Qed.

(** The checks of lines 68-85 and 90-98 for a test node with a conditional
    jump to the integer [t]. *)
Lemma iflaststmt_with_jump (testexpr test test1 : node) (last1 t : Z) :
  getitem ast 0 = Ret testexpr →
  adjust_last tokens last = Ret last1 →
  variantA self rule ast tokens last1 = Ret None →
  getitem testexpr 0 = Ret test →
  node_in test ["testtrue"; "testtruec"; "testfalse"; "testfalsec"] = true →
  getitem test 1 = Ret test1 →
  startswith (node_kind test1) "POP_JUMP_IF_" = true →
  node_attr test1 = Ret (VInt t) →
  iflaststmt self lhs n rule ast tokens first last
  = (jump_checks n tokens first (clip_last n last1) (VInt t) ≫= λ r,
       match r with
       | Some b => Ret b
       | None => chained_checks tokens first (clip_last n last1) (VInt t)
       end).
Proof.
  intros H0 Hlast HA Htest Hkind H1 Hjump Hattr.
  rewrite (iflaststmt_unfold _ _ _ _ _ _ _ _ _ _ H0 Hlast), HA, bind_Ret.
  apply (variantB_with_jump _ _ _ _ _ _ _ _ _ Htest Hkind H1 Hjump Hattr).
Qed.

(** X4.  A jump back before the end (lines 74-80): the branch jumps to or
    past the last token, after the first one; another token follows [last];
    the token before [last] is a [JUMP_BACK].  The reduction is rejected. *)
Theorem iflaststmt_jump_back_rejects (testexpr test test1 : node) (last1 t : Z)
    (tok_first tok_last tok_prev : Token) :
  getitem ast 0 = Ret testexpr →
  adjust_last tokens last = Ret last1 →
  variantA self rule ast tokens last1 = Ret None →
  getitem testexpr 0 = Ret test →
  node_in test ["testtrue"; "testtruec"; "testfalse"; "testfalsec"] = true →
  getitem test 1 = Ret test1 →
  startswith (node_kind test1) "POP_JUMP_IF_" = true →
  node_attr test1 = Ret (VInt t) →
  py_index tokens first = Ret tok_first →
  py_index tokens (clip_last n last1) = Ret tok_last →
  offset tok_first < t → offset tok_last <= t →
  clip_last n last1 + 1 < n →
  py_index tokens (clip_last n last1 - 1) = Ret tok_prev →
  kind tok_prev = "JUMP_BACK" →
  iflaststmt self lhs n rule ast tokens first last = Ret true.
Proof.
  intros H0 Hlast HA Htest Hkind H1 Hjump Hattr Hfirst Hlast' Hlo Hhi Hmore
    Hprev Hback.
  rewrite (iflaststmt_with_jump _ _ _ _ _ H0 Hlast HA Htest Hkind H1 Hjump Hattr).
  unfold jump_checks. rewrite Hfirst. run_binds. unfold py_int_le.
  replace (offset tok_first <=? t) with true by (symmetry; apply Z.leb_le; lia).
  run_binds. rewrite Hlast'. run_binds. unfold py_lt_int.
  replace (t <? offset tok_last) with false by (symmetry; apply Z.ltb_ge; lia).
  run_binds.
  replace (clip_last n last1 + 1 <? n) with true by (symmetry; apply Z.ltb_lt; lia).
  rewrite Hprev. run_binds. unfold tok_is.
  rewrite (bool_decide_eq_true_2 _ Hback). unfold py_gt_int.
  replace (offset tok_first <? t) with true by (symmetry; apply Z.ltb_lt; lia).
  reflexivity.
Qed.

(** X5.  A jump out of a loop (lines 82-85): the branch target is outside
    [[first offset, last offset)]; the token before [last] is not a
    [JUMP_BACK]; the token after [last] is [COME_FROM_LOOP] and the token at
    [last] is not [BREAK_LOOP].  The reduction is rejected. *)
Theorem iflaststmt_loop_exit_rejects (testexpr test test1 : node) (last1 t : Z)
    (tok_first tok_last tok_prev tok_next : Token) :
  getitem ast 0 = Ret testexpr →
  adjust_last tokens last = Ret last1 →
  variantA self rule ast tokens last1 = Ret None →
  getitem testexpr 0 = Ret test →
  node_in test ["testtrue"; "testtruec"; "testfalse"; "testfalsec"] = true →
  getitem test 1 = Ret test1 →
  startswith (node_kind test1) "POP_JUMP_IF_" = true →
  node_attr test1 = Ret (VInt t) →
  py_index tokens first = Ret tok_first →
  py_index tokens (clip_last n last1) = Ret tok_last →
  t < offset tok_first ∨ offset tok_last <= t →
  py_index tokens (clip_last n last1 - 1) = Ret tok_prev →
  kind tok_prev ≠ "JUMP_BACK" →
  py_index tokens (clip_last n last1 + 1) = Ret tok_next →
  kind tok_next = "COME_FROM_LOOP" →
  kind tok_last ≠ "BREAK_LOOP" →
  clip_last n last1 + 1 < n →
  iflaststmt self lhs n rule ast tokens first last = Ret true.
Proof.
  intros H0 Hlast HA Htest Hkind H1 Hjump Hattr Hfirst Hlast' Hout Hprev Hback
    Hnext Hloop Hbreak Hmore.
  rewrite (iflaststmt_with_jump _ _ _ _ _ H0 Hlast HA Htest Hkind H1 Hjump Hattr).
  unfold jump_checks. rewrite Hfirst. run_binds. unfold py_int_le.
  assert (Hinside : (if offset tok_first <=? t
                     then tok_last0 ← py_index tokens (clip_last n last1);
                          py_lt_int (VInt t) (offset tok_last0)
                     else Ret false) = Ret false).
  { destruct (offset tok_first <=? t) eqn:Hle; [|reflexivity].
    rewrite Hlast'. run_binds. unfold py_lt_int. apply Z.leb_le in Hle.
    replace (t <? offset tok_last) with false by (symmetry; apply Z.ltb_ge; lia).
    reflexivity. }
  run_binds. rewrite Hinside. run_binds.
  replace (clip_last n last1 + 1 <? n) with true by (symmetry; apply Z.ltb_lt; lia).
  rewrite Hprev. run_binds. unfold tok_is.
  rewrite (bool_decide_eq_false_2 _ Hback), Hnext. run_binds.
  rewrite (bool_decide_eq_true_2 _ Hloop), Hlast'. run_binds.
  rewrite (bool_decide_eq_false_2 _ Hbreak). reflexivity.
Qed.

(** X6.  The last checks reject for one reason only (lines 90-100): they
    return [True] only on line 91, when the token before [first] is a
    [POP_JUMP_IF_FALSE] whose target is the jump target of the test; the
    comparison of lines 93-96 never changes the answer. *)
Theorem chained_checks_true_only_by_chain (last' : Z) (jump_target : pyval) :
  chained_checks tokens first last' jump_target = Ret true →
  0 < first
  ∧ ∃ tok_before,
      py_index tokens (first - 1) = Ret tok_before
      ∧ kind tok_before = "POP_JUMP_IF_FALSE"
      ∧ attr tok_before = jump_target.
Proof.
  unfold chained_checks. intros Hrun.
  destruct (0 <? first) eqn:Hpos.
  - apply Z.ltb_lt in Hpos. split; [assumption|].
    destruct (py_index tokens (first - 1)) as [tok_before|e] eqn:Hbefore;
      [|discriminate].
    exists tok_before. revert Hrun. run_binds. unfold tok_is.
    destruct (bool_decide (kind tok_before = "POP_JUMP_IF_FALSE")) eqn:Hk.
    + run_binds. unfold py_eq. intros [= Heq].
      apply bool_decide_eq_true in Hk, Heq. auto.
    + run_binds. intros Hrest. exfalso.
      destruct (py_index tokens last') as [tl|e]; [|discriminate].
      revert Hrest. run_binds.
      destruct (py_gt_int jump_target (offset tl)) as [[]|e]; run_binds;
        try discriminate.
      destruct (py_index tokens (last' - 1)) as [tp|e]; run_binds;
        [destruct (py_eq _ _)|]; discriminate.
  - exfalso. revert Hrun. run_binds.
    destruct (py_index tokens last') as [tl|e]; [|discriminate].
    run_binds.
    destruct (py_gt_int jump_target (offset tl)) as [[]|e]; run_binds;
      try discriminate.
    destruct (py_index tokens (last' - 1)) as [tp|e]; run_binds;
      [destruct (py_eq _ _)|]; discriminate.
Qed.

(** The scan leaves by [IndexError] when every instruction up to the end of
    the array lies before the target and none jumps to it. *)
Lemma scan_jumps_off_end (target : Z) :
  ∀ (d : nat) (i : Z) (inst : Inst.t) (fuel : nat),
    0 <= i → insts self !! Z.to_nat i = Some inst → (d < fuel)%nat →
    i + Z.of_nat d + 1 = Z.of_nat (length (insts self)) →
    scanned (insts self) target i (Z.of_nat (length (insts self))) →
    scan_jumps fuel (insts self) (VInt target) i inst = Raise IndexError.
Proof.
  induction d as [|d IH]; intros i inst fuel Hi Hinst Hfuel Hlen Hsc;
    (destruct fuel as [|fuel]; [lia|]);
    destruct (scanned_head _ _ _ _ _ Hsc ltac:(lia) Hinst) as [Hoff Hno].
  - simpl.
    replace (Inst.offset inst <? target) with true by (symmetry; apply Z.ltb_lt; lia).
    rewrite (jumps_to_test_false _ _ Hno).
    rewrite py_index_past_end by lia. reflexivity.
  - destruct (Hsc (i + 1)) as (next & Hnext & _); [lia|].
    rewrite (scan_jumps_step _ _ _ _ _ next) by assumption.
    apply IH; [lia|assumption|lia|lia|apply scanned_tail; assumption].
Qed.

(** X7.  A scan that finds neither a second jump nor the target runs off
    the instruction array (lines 45-51): for the rule
    [iflaststmt ::= testexpr stmts] with an absolute jump before the body
    whose target is not the offset of the last token, when every instruction
    from the body start on lies before the target and none of them jumps to
    it, the call raises [IndexError]. *)
Theorem iflaststmt_scan_off_end (testexpr : node) (last1 : Z)
    (stmts leaf : node) (stmt_offset inst_offset : Z) (jump : Inst.t)
    (target : Z) (tok_last : Token) :
  rule = rule_a →
  getitem ast 0 = Ret testexpr →
  adjust_last tokens last = Ret last1 →
  getitem ast 1 = Ret stmts →
  first_child stmts = Ret leaf →
  off2int leaf = Ret stmt_offset →
  offset2inst_index self !! stmt_offset = Some inst_offset →
  0 <= inst_offset →
  py_index (insts self) (inst_offset - 1) = Ret jump →
  Inst.optype jump = "jabs" →
  Inst.argval jump = VInt target →
  py_index tokens last1 = Ret tok_last →
  target ≠ offset tok_last →
  scanned (insts self) target inst_offset (Z.of_nat (length (insts self))) →
  iflaststmt self lhs n rule ast tokens first last = Raise IndexError.
Proof.
  intros -> H0 Hlast H1 Hleaf Hoff Hidx Hpos Hjump Hopt Harg Htok Hne Hsc.
  rewrite (iflaststmt_unfold _ _ _ _ _ _ _ _ _ _ H0 Hlast).
  unfold variantA, rule_a. rewrite bool_decide_eq_true_2 by reflexivity.
  rewrite H1. run_binds. rewrite Hleaf. run_binds. rewrite Hoff. run_binds.
  unfold py_dict_get. rewrite Hidx. run_binds. rewrite Hjump. run_binds.
  rewrite Hopt, bool_decide_eq_true_2 by reflexivity.
  rewrite Harg, Htok. run_binds. unfold py_eq.
  rewrite bool_decide_eq_false_2 by congruence. simpl negb. cbv iota.
  destruct (Z_lt_le_dec inst_offset (Z.of_nat (length (insts self)))) as [Hin|Hout].
  - destruct (Hsc inst_offset) as (inst & Hinst & _); [lia|].
    rewrite (py_index_lookup _ _ inst) by assumption. run_binds.
    rewrite (scan_jumps_off_end target
               (Z.to_nat (Z.of_nat (length (insts self)) - inst_offset - 1)))
      by (try assumption; unfold scan_fuel; lia).
    reflexivity.
  - rewrite py_index_past_end by assumption. reflexivity.
Qed.

(** X8.  A body whose first offset the parser does not know (line 32): for
    the rule [iflaststmt ::= testexpr stmts], when the offset of the first
    token of the body is not a key of [offset2inst_index], the call raises
    [KeyError]. *)
Theorem iflaststmt_unknown_offset (testexpr : node) (last1 : Z)
    (stmts leaf : node) (stmt_offset : Z) :
  rule = rule_a →
  getitem ast 0 = Ret testexpr →
  adjust_last tokens last = Ret last1 →
  getitem ast 1 = Ret stmts →
  first_child stmts = Ret leaf →
  off2int leaf = Ret stmt_offset →
  offset2inst_index self !! stmt_offset = None →
  iflaststmt self lhs n rule ast tokens first last = Raise KeyError.
Proof.
  intros -> H0 Hlast H1 Hleaf Hoff Hidx.
  rewrite (iflaststmt_unfold _ _ _ _ _ _ _ _ _ _ H0 Hlast).
  unfold variantA, rule_a. rewrite bool_decide_eq_true_2 by reflexivity.
  rewrite H1. run_binds. rewrite Hleaf. run_binds. rewrite Hoff. run_binds.
  unfold py_dict_get. rewrite Hidx. reflexivity.
Qed.

End IflaststmtMore.

Lemma iflaststmt_and_rule_rejects_witness :
  iflaststmt parser_b "iflaststmt" 3 rule_a ast_and tokens3 0 2 = Ret true.
Proof.
  eapply (iflaststmt_and_rule_rejects parser_b "iflaststmt" 3 rule_a ast_and
            tokens3 0 2);
    [reflexivity | reflexivity | reflexivity | reflexivity | set_solver
    | simpl; set_solver | reflexivity].
Defined.

Lemma iflaststmt_other_test_accepts_witness :
  iflaststmt no_insts "iflaststmtc" 3 rule_c ast_compare tokens3 0 2 = Ret false.
Proof.
  eapply (iflaststmt_other_test_accepts no_insts "iflaststmtc" 3 rule_c
            ast_compare tokens3 0 2);
    [reflexivity | reflexivity | reflexivity | reflexivity | ].
  simpl. intros Hin. repeat (apply elem_of_cons in Hin as [Hin|Hin]; [discriminate|]).
  inversion Hin.
Defined.

Lemma iflaststmt_skips_return_last_witness :
  iflaststmt no_insts "iflaststmtc" 4 rule_c (ast_c 25) tokens3_marked 0 3
  = iflaststmt no_insts "iflaststmtc" 4 rule_c (ast_c 25) tokens3_marked 0 2.
Proof.
  eapply (iflaststmt_skips_return_last no_insts "iflaststmtc" 4 rule_c (ast_c 25)
            tokens3_marked 0 3);
    [lia | reflexivity | reflexivity | reflexivity | discriminate].
Defined.

Lemma iflaststmt_jump_back_rejects_witness :
  iflaststmt no_insts "iflaststmtc" 4 rule_c (ast_c 30) tokens_back 0 2 = Ret true.
Proof.
  eapply (iflaststmt_jump_back_rejects no_insts "iflaststmtc" 4 rule_c (ast_c 30)
            tokens_back 0 2) with (t := 30);
    [reflexivity | reflexivity | reflexivity | reflexivity | reflexivity
    | reflexivity | reflexivity | reflexivity | reflexivity | reflexivity
    | simpl; lia | simpl; lia | vm_compute; reflexivity | reflexivity
    | reflexivity].
Defined.

Lemma iflaststmt_loop_exit_rejects_witness :
  iflaststmt no_insts "iflaststmtc" 4 rule_c (ast_c 5) tokens_loop_exit 0 2
  = Ret true.
Proof.
  eapply (iflaststmt_loop_exit_rejects no_insts "iflaststmtc" 4 rule_c (ast_c 5)
            tokens_loop_exit 0 2) with (t := 5);
    [reflexivity | reflexivity | reflexivity | reflexivity | reflexivity
    | reflexivity | reflexivity | reflexivity | reflexivity | reflexivity
    | left; simpl; lia | reflexivity | discriminate | reflexivity | reflexivity
    | discriminate | vm_compute; reflexivity].
Defined.

Lemma chained_checks_true_only_by_chain_witness :
  0 < 1
  ∧ ∃ tok_before,
      py_index (tokens4 40) (1 - 1) = Ret tok_before
      ∧ kind tok_before = "POP_JUMP_IF_FALSE"
      ∧ attr tok_before = VInt 40.
Proof.
  exact (chained_checks_true_only_by_chain (tokens4 40) 1 3 (VInt 40) eq_refl).
Defined.

Lemma iflaststmt_scan_off_end_witness :
  iflaststmt (parser_a 99 "name" (VStr "b")) "iflaststmt" 3 rule_a (ast_a 99)
    tokens3 0 2 = Raise IndexError.
Proof.
  eapply (iflaststmt_scan_off_end (parser_a 99 "name" (VStr "b")) "iflaststmt" 3
            rule_a (ast_a 99) tokens3 0 2)
    with (target := 99) (inst_offset := 2);
    [reflexivity | reflexivity | reflexivity | reflexivity | reflexivity
    | reflexivity | reflexivity | lia | reflexivity | reflexivity | reflexivity
    | reflexivity | simpl; lia | ].
  intros k Hk. simpl in Hk.
  assert (Hcases : k = 2 ∨ k = 3 ∨ k = 4) by lia.
  destruct Hcases as [ -> | [ -> | -> ] ];
    (eexists; split; [reflexivity|]; split; [simpl; lia|];
     intros [_ Harg]; discriminate Harg).
Defined.

Lemma iflaststmt_unknown_offset_witness :
  iflaststmt no_insts "iflaststmt" 3 rule_a (ast_a 25) tokens3 0 2 = Raise KeyError.
Proof.
  eapply (iflaststmt_unknown_offset no_insts "iflaststmt" 3 rule_a (ast_a 25)
            tokens3 0 2);
    reflexivity.
Defined.

(** * Further properties of the output buffer *)

Lemma write_leading_strip (j : nat) :
  ∀ (n : nat) (rest : string) (len_out : nat),
    starts_plain rest = true → (n + j < len_out)%nat → (0 < n + j)%nat →
    write_leading (newlines j +:+ rest) n len_out = StripNewlines (n + j).
Proof.
  induction j as [|j IH]; intros n rest len_out Hplain Hlen Hpos.
  - rewrite str_app_nil_l. destruct rest as [|c rest]; [discriminate|].
    simpl in Hplain. apply negb_true_iff in Hplain. simpl. rewrite Hplain.
    replace (n =? 0)%nat with false by (symmetry; apply Nat.eqb_neq; lia).
    rewrite Nat.add_0_r. reflexivity.
  - change (newlines (S j)) with (String nl (newlines j)). rewrite str_app_cons.
    cbn [write_leading]. change (Ascii.eqb nl nl) with true. cbv iota.
    replace (S n =? len_out)%nat with false by (symmetry; apply Nat.eqb_neq; lia).
    rewrite IH by (assumption || lia). f_equal. lia.
Qed.

Lemma drop_newlines (j : nat) (rest : string) : drop j (newlines j +:+ rest) = rest.
Proof.
  induction j as [|j IH]; [destruct rest; reflexivity|].
  change (newlines (S j)) with (String nl (newlines j)). rewrite str_app_cons.
  exact IH.
Qed.

(** Lines 470-482 on a text followed by [k] newlines. *)
Lemma write_out_text (body : string) (k : nat) (self : SourceWalker) :
  trailing_newlines body = 0%nat →
  write_out (body +:+ newlines k) self
  = set_pending_newlines k
      (f_write body (f_write (newlines (pending_newlines self)) self)).
Proof.
  intros Hlast. unfold write_out.
  assert (Hk : trailing_newlines (body +:+ newlines k) = k)
    by (rewrite trailing_newlines_app; lia).
  destruct self as [ver [fs ind lam gl nl'] stack err pr rn mg pn ae nm dbg tx].
  destruct pn as [|pn]; simpl; rewrite Hk; simpl;
    (destruct k as [|k]; simpl; rewrite ?drop_last_app_newlines;
     unfold f_write, set_params, set_pending_newlines; simpl;
     rewrite ?str_app_nil_r; reflexivity).
Qed.

(** X9.  [write] with newlines on both sides of a text (lines 452-482).
    When the joined arguments are [j] newlines, a text that neither starts
    nor ends with a newline, and [k] newlines: the stream gets as many
    newlines as the larger of [j] and the count pending, then the text; [k]
    newlines are left pending.  Nothing else changes and nothing is raised. *)
Theorem write_newlines_text_newlines (data : list string) (j k : nat)
    (body : string) (self : SourceWalker) :
  String.concat "" data = newlines j +:+ body +:+ newlines k →
  starts_plain body = true → trailing_newlines body = 0%nat →
  write data self
  = (Ret (),
     set_pending_newlines k
       (f_write body
          (f_write (newlines (Nat.max (pending_newlines self) j)) self))).
Proof.
  intros Hout Hfirst Hlast.
  destruct j as [|j].
  { rewrite str_app_nil_l in Hout. rewrite Nat.max_0_r.
    apply write_text; assumption. }
  unfold write.
  destruct (nothing_to_write data) eqn:Hnothing.
  { apply concat_nothing in Hnothing. rewrite Hnothing in Hout. discriminate. }
  rewrite Hout.
  assert (Hplain : starts_plain (body +:+ newlines k) = true).
  { destruct body; [discriminate|exact Hfirst]. }
  rewrite (write_leading_strip (S j) 0 _ _ Hplain).
  - cbn [Nat.add]. rewrite drop_newlines, write_out_text by assumption.
    reflexivity.
  - rewrite !str_app_length, length_newlines.
    destruct body; [discriminate|]. simpl. lia.
  - lia.
Qed.

Lemma write_newlines_text_newlines_witness :
  write [newlines 1; "x = 1"; newlines 2] walker_with_errors
  = (Ret (),
     set_pending_newlines 2
       (f_write "x = 1" (f_write (newlines 1) walker_with_errors))).
Proof.
  apply (write_newlines_text_newlines [newlines 1; "x = 1"; newlines 2] 1 2 "x = 1"
           walker_with_errors);
    reflexivity.
Defined.

(** X10.  Two lines in a row (lines 484-487): [println] of a text and
    [println] of another, neither starting nor ending with a newline, put
    the pending newlines, the first text, one newline and the second text in
    the stream, and leave one newline pending; [println] without a text
    writes nothing and only makes sure one newline is pending. *)
Theorem println_lines (a b : string) (self : SourceWalker) :
  starts_plain a = true → trailing_newlines a = 0%nat →
  starts_plain b = true → trailing_newlines b = 0%nat →
  (stream (exec (println [a];; println [b]) self)
   = stream self +:+ newlines (pending_newlines self) +:+ a +:+ str1 nl +:+ b
   ∧ pending_newlines (exec (println [a];; println [b]) self) = 1%nat)
  ∧ exec (println []) self
    = set_pending_newlines (Nat.max (pending_newlines self) 1) self.
Proof.
  intros Ha1 Ha2 Hb1 Hb2. split; [|reflexivity].
  assert (Hline : ∀ (x : string) (s : SourceWalker),
            starts_plain x = true → trailing_newlines x = 0%nat →
            exec (println [x]) s
            = set_pending_newlines 1
                (f_write x (f_write (newlines (pending_newlines s)) s))).
  { intros x s Hx1 Hx2. unfold println.
    assert (Hne : negb (length [x] =? 0)%nat && negb (only_empty [x]) = true).
    { destruct x; [discriminate|reflexivity]. }
    rewrite Hne, exec_bind by auto with returns.
    unfold exec at 2.
    rewrite (write_text [x] x 0) by (assumption || (simpl; rewrite ?str_app_nil_r; reflexivity)).
    reflexivity. }
  rewrite exec_bind by auto with returns.
  rewrite (Hline a self Ha1 Ha2), (Hline b _ Hb1 Hb2).
  split; [|reflexivity].
  unfold stream, f_write, set_params. simpl. rewrite !str_app_assoc. reflexivity.
Qed.

Lemma println_lines_witness :
  stream (exec (println ["import os"];; println ["x = 1"]) (fresh_walker [3; 8]))
  = "import os" +:+ str1 nl +:+ "x = 1".
Proof.
  exact (proj1 (proj1 (println_lines "import os" "x = 1" (fresh_walker [3; 8])
                         eq_refl eq_refl eq_refl eq_refl))).
Defined.

(** * Further properties of scopes, [gen_source] and [code_deparse] *)

Lemma bind_unfold {A B : Type} (m : M A) (k : A → M B) (self : SourceWalker) :
  (m ≫= k) self
  = match m self with
    | (Ret a, self') => k a self'
    | (Raise e, self') => (Raise e, self')
    end.
Proof. reflexivity. Qed.

Lemma bind_inv_Ret {A B : Type} (m : M A) (k : A → M B)
    (self self' : SourceWalker) (b : B) :
  (m ≫= k) self = (Ret b, self') →
  ∃ a self1, m self = (Ret a, self1) ∧ k a self1 = (Ret b, self').
Proof.
  rewrite bind_unfold. destruct (m self) as [[a|e] self1]; [eauto|discriminate].
Qed.

Lemma println_same (data : list string) (self : SourceWalker) :
  same_but_output self (exec (println data) self).
Proof.
  unfold println.
  destruct (negb (length data =? 0)%nat && negb (only_empty data)).
  - rewrite exec_bind by auto with returns.
    eapply same_but_output_trans; [apply (write_same data)|reflexivity].
  - reflexivity.
Qed.

Lemma same_but_output_text (a b : SourceWalker) :
  same_but_output a b → text a = text b ∧ ERROR a = ERROR b.
Proof.
  intros H. split; [apply (f_equal text) in H|apply (f_equal ERROR) in H]; exact H.
Qed.

(** X11.  No clean-up when the nested render raises (lines 445-449): the
    exception passes through [traverse], and the walker stays as the nested
    render left it, in the nested scope, with the caller's bundle still on
    the stack when the nested render left the stack alone. *)
Theorem traverse_raises (preorder : node → M unit) (nd : node)
    (indent_arg : option string) (is_lambda_arg : bool)
    (self inner : SourceWalker) (e : exn) :
  preorder nd (scope_entry self indent_arg is_lambda_arg) = (Raise e, inner) →
  traverse preorder nd indent_arg is_lambda_arg self = (Raise e, inner)
  ∧ (param_stack inner = param_stack (scope_entry self indent_arg is_lambda_arg) →
     param_stack inner = params self :: param_stack self).
Proof.
  intros Hrun. split; [|intros ->; reflexivity].
  unfold traverse. run_M.
  change (set_params _ (set_pending_newlines 0 (set_param_stack _ self)))
    with (scope_entry self indent_arg is_lambda_arg).
  rewrite bind_unfold, Hrun. reflexivity.
Qed.

Lemma traverse_raises_witness :
  traverse (λ nd, lift (getitem nd 0);; mret ()) (Tok (load_name "x")) None false
    walker_with_errors
  = (Raise IndexError, scope_entry walker_with_errors None false).
Proof.
  exact (proj1 (traverse_raises (λ nd, lift (getitem nd 0);; mret ())
                  (Tok (load_name "x")) None false walker_with_errors
                  (scope_entry walker_with_errors None false) IndexError eq_refl)).
Defined.

Section GenSource.

Context (preorder : node → M unit) (customize_t : Type)
  (customize : customize_t → M unit).

(** X12.  [gen_source] gives back what it borrowed (lines 2494-2507):
    whatever [customize] and the render do, when the call returns, [name]
    and [return_none] are what they were before it. *)
Theorem gen_source_restores_name (tree : node) (name_arg : string)
    (customize_arg : customize_t) (is_lambda_arg returnNone : bool)
    (debug_opts_arg : DebugOpts) (self self' : SourceWalker) :
  gen_source preorder customize_t customize tree name_arg customize_arg
    is_lambda_arg returnNone debug_opts_arg self = (Ret (), self') →
  name self' = name self ∧ return_none self' = return_none self.
Proof.
  unfold gen_source. run_M.
  destruct (py_len tree) as [len|e]; [|discriminate].
  run_M. intros Hrun.
  apply bind_inv_Ret in Hrun as ([] & self1 & _ & Hrest).
  revert Hrest. run_M. intros [= <-]. split; reflexivity.
Qed.

Hypothesis preorder_keeps_stack :
  ∀ (nd : node) (self self' : SourceWalker),
    preorder nd self = (Ret (), self') → param_stack self' = param_stack self.

(** X13.  The text [gen_source] keeps (lines 2503-2505): for a tree with
    children, once [customize] and the nested render have returned, [text]
    is the stream of the nested scope followed by the newlines pending
    there, and that text goes to the caller's stream through [println]. *)
Theorem gen_source_text (k : string) (child : node) (children : list node)
    (name_arg : string) (customize_arg : customize_t)
    (is_lambda_arg returnNone : bool) (debug_opts_arg : DebugOpts)
    (self customized inner : SourceWalker) :
  let tree := SyntaxTree k (child :: children) in
  let result := stream inner +:+ newlines (pending_newlines inner) in
  customize customize_arg
    (set_debug_opts (Some debug_opts_arg)
       (set_name (Some name_arg) (set_return_none returnNone self)))
  = (Ret (), customized) →
  preorder tree (scope_entry customized None is_lambda_arg) = (Ret (), inner) →
  ∃ final,
    gen_source preorder customize_t customize tree name_arg customize_arg
      is_lambda_arg returnNone debug_opts_arg self = (Ret (), final)
    ∧ text final = Some result
    ∧ final
      = set_return_none (return_none self)
          (set_name (name self)
             (exec (println [result])
                (set_text (Some result)
                   (set_pending_newlines (pending_newlines customized)
                      (set_params (params customized)
                         (set_param_stack (param_stack customized)
                            (flush_newlines inner))))))).
Proof.
  intros tree result Hcustom Hrun.
  eexists. split; [|split]; cycle 2; [reflexivity| |].
  - unfold gen_source. run_M.
    change (py_len tree) with (Ret (Z.of_nat (S (length children)))). run_M.
    replace (Z.of_nat (S (length children)) =? 0) with false
      by (symmetry; apply Z.eqb_neq; lia).
    run_M. rewrite bind_unfold, Hcustom. cbv beta iota. rewrite bind_assoc.
    rewrite bind_unfold, (traverse_returns preorder preorder_keeps_stack _ _ _ _ _ Hrun).
    run_M. rewrite bind_returns by auto with returns. run_M. reflexivity.
  - cbn [text set_return_none set_name].
    match goal with
    | |- text (exec (println [result]) ?s) = _ =>
      rewrite <- (proj1 (same_but_output_text _ _ (println_same [result] s)))
    end.
    reflexivity.
Qed.

End GenSource.

Lemma gen_source_restores_name_witness :
  name (exec (gen_source preorder_kind unit (λ _, mret ()) (docstring_node "doc")
                "f" () false true (mkDebugOpts false (false, false) []))
          walker_with_errors) = Some "<module>"
  ∧ return_none (exec (gen_source preorder_kind unit (λ _, mret ())
                         (docstring_node "doc") "f" () false true
                         (mkDebugOpts false (false, false) []))
                   walker_with_errors) = false.
Proof.
  apply (gen_source_restores_name preorder_kind unit (λ _, mret ())
           (docstring_node "doc") "f" () false true
           (mkDebugOpts false (false, false) []) walker_with_errors).
  vm_compute. reflexivity.
Defined.

Lemma gen_source_text_witness :
  text (exec (gen_source preorder_kind unit (λ _, mret ()) (docstring_node "doc")
                "f" () false true (mkDebugOpts false (false, false) []))
          walker_with_errors) = Some "docstring".
Proof.
  destruct (gen_source_text preorder_kind unit (λ _, mret ())
              preorder_kind_keeps_stack "docstring"
              (Tok (mkToken "LOAD_STR" (VStr "doc") (VStr "doc") 0)) [] "f" ()
              false true (mkDebugOpts false (false, false) []) walker_with_errors
              _ _ eq_refl eq_refl)
    as (final & Hrun & Htext & _).
  unfold exec. unfold docstring_node. rewrite Hrun. exact Htext.
Defined.

Import PysourceRest.

(** X14.  What [deparse_code2str] returns (lines 2700-2737): once the tree
    has been built and rendered without diagnostics or error, the result is
    the [text] that [gen_source] stored, and the warnings about unused
    globals, written afterwards, go to the stream only; when [text] was
    never stored (as after [gen_source] on an empty tree), or when
    [code_deparse] returns [None], the call raises [AttributeError]. *)
Theorem deparse_code2str_result (build_and_render : M bool)
    (self0 self : SourceWalker) :
  (build_and_render self0 = (Ret true, self) →
   ast_errors self = [] → truthy (ERROR self) = false →
   deparse_code2str build_and_render self0
   = (match text self with
      | Some t => Ret t
      | None => Raise AttributeError
      end,
      exec (write_each (map unused_global_warning (sorted (mod_globs self))))
        self))
  ∧ (build_and_render self0 = (Ret false, self) →
     deparse_code2str build_and_render self0 = (Raise AttributeError, self)).
Proof.
  split.
  - intros Hfront Herrs Herror.
    unfold deparse_code2str, code_deparse.
    rewrite bind_assoc, bind_unfold, Hfront. cbv beta iota.
    unfold code_deparse_finish. run_M.
    rewrite bind_returns by auto with returns.
    set (warned := exec _ self).
    assert (Hsame : same_but_output self warned) by apply write_each_same.
    run_M.
    rewrite <- (same_but_output_ast_errors _ _ Hsame), Herrs.
    rewrite <- (proj2 (same_but_output_text _ _ Hsame)), Herror.
    change (negb (length (@nil string) =? 0)%nat) with false. run_M.
    rewrite <- (proj1 (same_but_output_text _ _ Hsame)).
    destruct (text self); reflexivity.
  - intros Hfront. unfold deparse_code2str, code_deparse.
    rewrite bind_assoc, bind_unfold, Hfront. reflexivity.
Qed.

Lemma deparse_code2str_result_witness :
  fst (deparse_code2str
         (gen_source preorder_kind unit (λ _, mret ()) (SyntaxTree "stmts" [])
            "<module>" () false false (mkDebugOpts false (false, false) []);;
          mret true)
         (fresh_walker [3; 8]))
  = Raise AttributeError.
Proof.
  pose proof (proj1 (deparse_code2str_result
                       (gen_source preorder_kind unit (λ _, mret ())
                          (SyntaxTree "stmts" []) "<module>" () false false
                          (mkDebugOpts false (false, false) []);;
                        mret true)
                       (fresh_walker [3; 8]) _) eq_refl eq_refl eq_refl) as Hrun.
  rewrite Hrun. reflexivity.
Defined.

(** * Further properties of the handlers *)

(** X15.  Imports for the oldest versions (lines 826-836): for a version up
    to (2, 1), a node that does not have exactly two children is pruned
    with nothing written; a node with two children gets [import name] or
    [import name as bound] and a newline, and is pruned before the test of
    line 839 is reached. *)
Theorem n_alias_legacy (self : SourceWalker) (nd : node) :
  tuple_le (version self) [2; 1] = true →
  (∀ len, py_len nd = Ret len → len ≠ 2 →
     n_alias nd self = (Raise GenericASTTraversalPruningException, self))
  ∧ (∀ (nd0 store store0 : node) (iname sname : string),
       py_len nd = Ret 2 →
       getitem nd 1 = Ret store → node_kind store = "store" →
       getitem store 0 = Ret store0 → node_pattr store0 = Ret (VStr sname) →
       getitem nd 0 = Ret nd0 → node_pattr nd0 = Ret (VStr iname) →
       n_alias nd self
       = (Raise GenericASTTraversalPruningException,
          exec (write [if bool_decide (sname = iname)
                       then "import " +:+ iname +:+ str1 nl
                       else "import " +:+ iname +:+ " as " +:+ sname +:+ str1 nl])
            self)).
Proof.
  intros Hver. split.
  - intros len Hlen Hne. unfold n_alias. run_M. rewrite Hver, Hlen. run_M.
    replace (len =? 2) with false by (symmetry; apply Z.eqb_neq; lia).
    run_M. reflexivity.
  - intros nd0 store store0 iname sname Hlen Hstore Hkind Hstore0 Hsname Hnd0
      Hiname.
    unfold n_alias. run_M. rewrite Hver, Hlen. run_M.
    change (2 =? 2) with true. run_M. rewrite Hstore. run_M.
    unfold node_is, py_assert. rewrite (bool_decide_eq_true_2 _ Hkind). run_M.
    rewrite Hstore0. run_M. rewrite Hsname. run_M. rewrite Hnd0. run_M.
    rewrite Hiname. run_M. unfold py_eq, py_str.
    destruct (decide (sname = iname)) as [->|Hne].
    + rewrite !bool_decide_eq_true_2 by reflexivity.
      rewrite bind_returns by auto with returns. reflexivity.
    + rewrite !bool_decide_eq_false_2 by congruence.
      rewrite bind_returns by auto with returns. reflexivity.
Qed.

Lemma n_alias_legacy_witness :
  n_alias (alias_node "a.b" "b") (fresh_walker [2; 1])
  = (Raise GenericASTTraversalPruningException,
     exec (write ["import a.b as b" +:+ str1 nl]) (fresh_walker [2; 1])).
Proof.
  exact (proj2 (n_alias_legacy (fresh_walker [2; 1]) (alias_node "a.b" "b") eq_refl)
           _ _ _ "a.b" "b" eq_refl eq_refl eq_refl eq_refl eq_refl eq_refl eq_refl).
Defined.

(** X16.  The test of line 839: for a version above (2, 1), a node whose
    last leaf is not a [STORE_] instruction raises [AssertionError] before
    anything is written. *)
Theorem n_alias_asserts_store (self : SourceWalker) (nd last store_node : node) :
  tuple_le (version self) [2; 1] = false →
  getitem nd (-1) = Ret last →
  getitem last (-1) = Ret store_node →
  startswith (node_kind store_node) "STORE_" = false →
  n_alias nd self = (Raise AssertionError, self).
Proof.
  intros Hver Hlast Hstore Hkind. unfold n_alias. run_M. rewrite Hver. run_M.
  rewrite Hlast. run_M. rewrite Hstore. run_M. rewrite Hkind. reflexivity.
Qed.

Lemma n_alias_asserts_store_witness :
  n_alias (SyntaxTree "alias" [Tok (load_name "os"); SyntaxTree "store" [Tok (load_name "os")]])
    (fresh_walker [3; 8])
  = (Raise AssertionError, fresh_walker [3; 8]).
Proof.
  eapply n_alias_asserts_store; reflexivity.
Defined.

(** X17.  A docstring node that holds no string (lines 879-886): when the
    operand of the node is a non-zero integer, the handler prunes and writes
    nothing. *)
Theorem n_docstring_not_a_string (self : SourceWalker) (nd doc_node : node) (z : Z) :
  getitem nd 0 = Ret doc_node →
  node_attr doc_node = Ret (VInt z) →
  z ≠ 0 →
  n_docstring nd self = (Raise GenericASTTraversalPruningException, self).
Proof.
  intros Hnd Hattr Hz. unfold n_docstring. run_M. rewrite Hnd. run_M.
  rewrite Hattr. run_M. unfold truthy.
  replace (z =? 0) with false by (symmetry; apply Z.eqb_neq; lia).
  reflexivity.
Qed.

Lemma n_docstring_not_a_string_witness :
  n_docstring (SyntaxTree "docstring" [Tok (mkToken "LOAD_CONST" (VInt 7) (VInt 7) 0)])
    (fresh_walker [3; 8])
  = (Raise GenericASTTraversalPruningException, fresh_walker [3; 8]).
Proof.
  eapply n_docstring_not_a_string with (z := 7);
    [reflexivity | reflexivity | lia].
Defined.

Lemma find_from_range (sub : string) :
  ∀ (s : string) (start : Z),
    find_from sub s start = -1 ∨ start <= find_from sub s start.
Proof.
  induction s as [|c s IH]; intros start; cbn [find_from].
  - destruct (String.prefix sub ""); [right; lia|left; reflexivity].
  - destruct (String.prefix sub (String c s)); [right; lia|].
    destruct (IH (start + 1)) as [->|Hle]; [left; reflexivity|right; lia].
Qed.

(** X18.  The delimiter of a docstring is free in the text (lines 890-893)
    unless the text holds both kinds of triple quote: when the text lacks
    the triple double quote or lacks the triple single quote, the chosen
    delimiter does not occur in it. *)
Theorem docstring_quote_free (docstring : string) :
  find docstring triple_dquote = -1 ∨ find docstring triple_squote = -1 →
  find docstring (docstring_quote docstring) = -1.
Proof.
  unfold docstring_quote, find.
  destruct (find_from_range triple_dquote docstring 0) as [Hd|Hd].
  - rewrite Hd. intros _. exact Hd.
  - replace (0 <=? find_from triple_dquote docstring 0) with true
      by (symmetry; apply Z.leb_le; assumption).
    intros [Hno|Hno]; [lia|]. rewrite Hno. exact Hno.
Qed.

Lemma docstring_quote_free_witness :
  find (triple_dquote +:+ "x") (docstring_quote (triple_dquote +:+ "x")) = -1.
Proof.
  apply docstring_quote_free. right. reflexivity.
Defined.

(** X19.  Indentation goes back and forth (lines 426-430): [indent_less]
    undoes [indent_more] for a non-empty step and leaves the walker as it
    was; for the empty step it does not: it erases the indentation. *)
Theorem indent_less_more (ind : string) (self : SourceWalker) :
  (ind ≠ "" → exec (indent_more ind;; indent_less ind) self = self)
  ∧ indent (params (exec (indent_less "") self)) = "".
Proof.
  split; [|reflexivity].
  intros Hne. unfold exec, indent_more, indent_less. run_M. cbn [snd].
  destruct self as [ver [fs i lam gl nl'] stack err pr rn mg pn ae nm dbg tx].
  unfold set_indent, set_params, slice_to_minus. cbn.
  replace (String.length ind =? 0)%nat with false
    by (symmetry; apply Nat.eqb_neq; destruct ind; [congruence|simpl; lia]).
  unfold drop_last, take. rewrite str_app_length.
  replace (String.length i + String.length ind - String.length ind)%nat
    with (String.length i) by lia.
  rewrite substring_0_app. reflexivity.
Qed.

Lemma indent_less_more_witness :
  exec (indent_more "    ";; indent_less "    ") walker_with_errors
  = walker_with_errors.
Proof.
  apply (proj1 (indent_less_more "    " walker_with_errors)). discriminate.
Defined.

(** ** Binary operators, slices and [return] *)

Lemma bind_fst_Ret {A B : Type} (m : M A) (k : A → M B) (a : A)
    (self : SourceWalker) :
  fst (m self) = Ret a → (m ≫= k) self = k a (snd (m self)).
Proof.
  intros Hrun. rewrite bind_unfold. destruct (m self) as [o self'].
  simpl in Hrun. subst o. reflexivity.
Qed.

Lemma bind_fst_Raise {A B : Type} (m : M A) (k : A → M B) (e : exn)
    (self : SourceWalker) :
  fst (m self) = Raise e → (m ≫= k) self = (Raise e, snd (m self)).
Proof.
  intros Hrun. rewrite bind_unfold. destruct (m self) as [o self'].
  simpl in Hrun. subst o. reflexivity.
Qed.

Lemma set_prec_prec (self : SourceWalker) : set_prec (prec self) self = self.
Proof. destruct self. reflexivity. Qed.

Lemma set_prec_twice (p q : Z) (self : SourceWalker) :
  set_prec p (set_prec q self) = set_prec p self.
Proof. destruct self. reflexivity. Qed.

Lemma write_out_set_prec (out : string) (q : Z) (self : SourceWalker) :
  write_out out (set_prec q self) = set_prec q (write_out out self).
Proof.
  assert (Hf : ∀ s x, f_write s (set_prec q x) = set_prec q (f_write s x))
    by (intros s x; destruct x; reflexivity).
  assert (Hn : ∀ n x, set_pending_newlines n (set_prec q x)
                      = set_prec q (set_pending_newlines n x))
    by (intros n x; destruct x; reflexivity).
  assert (Hp : ∀ x, pending_newlines (set_prec q x) = pending_newlines x)
    by (intros x; destruct x; reflexivity).
  unfold write_out. cbv zeta. rewrite Hp.
  destruct (0 <? pending_newlines self)%nat;
    rewrite ?Hf, ?Hn, ?Hp, ?Hf, ?Hn, ?Hp; reflexivity.
Qed.

Lemma write_set_prec (data : list string) (q : Z) (self : SourceWalker) :
  exec (write data) (set_prec q self) = set_prec q (exec (write data) self).
Proof.
  unfold exec, write. destruct (nothing_to_write data); [reflexivity|].
  change (pending_newlines (set_prec q self)) with (pending_newlines self).
  assert (Hn : ∀ n x, set_pending_newlines n (set_prec q x)
                      = set_prec q (set_pending_newlines n x))
    by (intros n x; destruct x; reflexivity).
  destruct (write_leading _ _ _); cbn [snd]; rewrite ?Hn;
    try reflexivity; apply write_out_set_prec.
Qed.

Lemma same_but_output_return_none (a b : SourceWalker) :
  same_but_output a b → return_none a = return_none b.
Proof. intros H. apply (f_equal return_none) in H. exact H. Qed.

Section OperatorsAndReturns.

Variable preorder : node → M unit.
Variable isNone : node → outcome bool.
Variable is_return_none_tree : node → bool.

(** X20.  The precedence across [n_bin_op] (lines 504-514), when a render
    of a child, returning or not, leaves the precedence as it found it: if
    the three renders return, the handler prunes with the precedence it was
    entered with; if the render of the right operand raises, the exception
    leaves the handler with the precedence still lowered by one. *)
Theorem n_bin_op_prec (nd left operator right : node) (self : SourceWalker) :
  (∀ nd' self', prec (snd (preorder nd' self')) = prec self') →
  getitem nd 0 = Ret left →
  getitem nd (-1) = Ret operator →
  getitem nd 1 = Ret right →
  (∀ self', fst (preorder left self') = Ret ()) →
  (∀ self', fst (preorder operator self') = Ret ()) →
  ((∀ self', fst (preorder right self') = Ret ()) →
   fst (n_bin_op preorder nd self) = Raise GenericASTTraversalPruningException
   ∧ prec (snd (n_bin_op preorder nd self)) = prec self)
  ∧ (∀ e, (∀ self', fst (preorder right self') = Raise e) →
     fst (n_bin_op preorder nd self) = Raise e
     ∧ prec (snd (n_bin_op preorder nd self)) = prec self - 1).
Proof.
  intros Hkeep Hleft Hop Hright Hl Ho.
  unfold n_bin_op. rewrite Hleft. run_M.
  rewrite (bind_fst_Ret _ _ () _ (Hl _)).
  rewrite bind_returns by auto with returns.
  rewrite Hop. run_M.
  rewrite (bind_fst_Ret _ _ () _ (Ho _)).
  rewrite bind_returns by auto with returns. run_M.
  rewrite Hright. run_M.
  set (s0 := exec (write [" "]) (snd (preorder operator _))).
  assert (Hs0 : prec s0 = prec self).
  { unfold s0. rewrite write_keeps_prec, Hkeep, write_keeps_prec, Hkeep.
    reflexivity. }
  split.
  - intros Hr. rewrite (bind_fst_Ret _ _ () _ (Hr _)). run_M.
    split; [reflexivity|]. cbn [snd]. rewrite Hkeep.
    destruct s0; simpl in *; lia.
  - intros e Hr. rewrite (bind_fst_Raise _ _ e _ (Hr _)).
    split; [reflexivity|]. cbn [snd]. rewrite Hkeep.
    destruct s0; simpl in *; lia.
Qed.

(** X21.  Slices without bounds (lines 630-655): when every bound of the
    node is the "no bound" node, [n_slice2] writes one colon and [n_slice3]
    two, no child is rendered, and the walker is otherwise as before, its
    precedence included. *)
Theorem n_slice_no_bounds (nd lower upper : node) (self : SourceWalker) :
  getitem nd 0 = Ret lower → isNone lower = Ret true →
  getitem nd 1 = Ret upper → isNone upper = Ret true →
  n_slice2 preorder isNone nd self
  = (Raise GenericASTTraversalPruningException, exec (write [":"]) self)
  ∧ (∀ step, getitem nd 2 = Ret step → isNone step = Ret true →
       n_slice3 preorder isNone nd self
       = (Raise GenericASTTraversalPruningException,
          exec (write [":"];; write [":"]) self)).
Proof.
  intros Hlower Hlnone Hupper Hunone. split.
  - unfold n_slice2, slice_bound. run_M. rewrite Hlower. run_M.
    rewrite Hlnone. run_M. rewrite bind_returns by auto with returns.
    rewrite Hupper. run_M. rewrite Hunone. run_M.
    rewrite write_set_prec, set_prec_twice.
    rewrite <- (write_keeps_prec [":"] self) at 1.
    rewrite set_prec_prec. reflexivity.
  - intros step Hstep Hsnone.
    unfold n_slice3, slice_bound. run_M. rewrite Hlower. run_M.
    rewrite Hlnone. run_M. rewrite bind_returns by auto with returns.
    rewrite Hupper. run_M. rewrite Hunone. run_M.
    rewrite bind_returns by auto with returns.
    rewrite Hstep. run_M. rewrite Hsnone. run_M.
    rewrite !exec_bind by auto with returns.
    rewrite !write_set_prec, set_prec_twice.
    rewrite <- (write_keeps_prec [":"] self) at 1.
    rewrite <- (write_keeps_prec [":"] (exec (write [":"]) self)) at 1.
    rewrite set_prec_prec. reflexivity.
Qed.

(** X22.  [return None] outside a lambda (lines 586-603 and 615-626, with
    [is_return_none], lines 489-502): for a node of the shape
    [return_expr (expr (LOAD_CONST None))], in a scope that is no lambda and
    with [return_none] off, both handlers write the indentation, the bare
    keyword and the end of the line, and render no child.  On a walker
    whose bundle has no [is_lambda] entry, as [__init__] leaves it, both
    raise [KeyError] before they write. *)
Theorem n_return_none_is_bare (nd : node) (k : string) (t : Token)
    (siblings1 siblings2 siblings3 : list node) (self : SourceWalker) :
  nd = SyntaxTree k
         (SyntaxTree "return_expr"
            (SyntaxTree "expr" (Tok t :: siblings1) :: siblings2) :: siblings3) →
  kind t = "LOAD_CONST" → pattr t = VNone →
  (is_lambda (params self) = Some false → return_none self = false →
   let bare := (Raise GenericASTTraversalPruningException,
                exec (write [indent (params self); "return"];; println []) self) in
   n_return preorder is_return_none_tree nd self = bare
   ∧ n_return_if_stmt preorder is_return_none_tree nd self = bare)
  ∧ (is_lambda (params self) = None →
     n_return preorder is_return_none_tree nd self = (Raise KeyError, self)
     ∧ n_return_if_stmt preorder is_return_none_tree nd self
       = (Raise KeyError, self)).
Proof.
  intros -> Hkind Hpattr. split.
  - intros Hlam Hnone.
    assert (Htail : write_return preorder is_return_none_tree
                      (SyntaxTree k
                         (SyntaxTree "return_expr"
                            (SyntaxTree "expr" (Tok t :: siblings1) :: siblings2)
                          :: siblings3)) self
                    = (Raise GenericASTTraversalPruningException,
                       exec (write [indent (params self); "return"];; println [])
                         self)).
    { unfold write_return. run_M. rewrite bind_returns by auto with returns.
      run_M.
      rewrite <- (same_but_output_return_none _ _ (write_same _ self)), Hnone.
      unfold is_return_none.
      change (getitem (SyntaxTree k _) 0) with
        (Ret (SyntaxTree "return_expr"
                (SyntaxTree "expr" (Tok t :: siblings1) :: siblings2))).
      run_binds. change (node_is (SyntaxTree "return_expr" _) "return_expr") with true.
      cbv iota.
      change (getitem (SyntaxTree "return_expr" _) 0) with
        (Ret (SyntaxTree "expr" (Tok t :: siblings1))).
      run_binds. change (node_is (SyntaxTree "expr" _) "expr") with true.
      cbv iota.
      change (getitem (SyntaxTree "expr" (Tok t :: siblings1)) 0) with (Ret (Tok t)).
      run_binds. unfold node_is at 1. change (node_kind (Tok t)) with (kind t).
      rewrite Hkind. rewrite bool_decide_eq_true_2 by reflexivity.
      change (node_pattr (Tok t)) with (Ret (pattr t)). rewrite Hpattr.
      run_binds. rewrite bool_decide_eq_true_2 by reflexivity.
      change (true || _) with true. run_M.
      rewrite bind_returns by auto with returns.
      rewrite exec_bind by auto with returns. reflexivity. }
    split.
    + unfold n_return, params_is_lambda. rewrite bind_unfold, Hlam.
      cbv beta iota. run_M.
      change (getitem (SyntaxTree k _) 0) with
        (Ret (SyntaxTree "return_expr"
                (SyntaxTree "expr" (Tok t :: siblings1) :: siblings2))).
      run_M.
      change (node_in (SyntaxTree "return_expr" _) _) with false.
      run_M. exact Htail.
    + unfold n_return_if_stmt, params_is_lambda. rewrite bind_unfold, Hlam.
      cbv beta iota. exact Htail.
  - intros Hlam. split.
    + unfold n_return, params_is_lambda. rewrite bind_unfold, Hlam. reflexivity.
    + unfold n_return_if_stmt, params_is_lambda. rewrite bind_unfold, Hlam.
      reflexivity.
Qed.

End OperatorsAndReturns.

Lemma preorder_kind_returns (nd : node) (self : SourceWalker) :
  fst (preorder_kind nd self) = Ret ().
Proof. unfold preorder_kind. rewrite write_returns. reflexivity. Qed.

Lemma n_bin_op_prec_witness :
  fst (n_bin_op preorder_kind bin_op_node (fresh_walker [3; 8]))
  = Raise GenericASTTraversalPruningException
  ∧ prec (snd (n_bin_op preorder_kind bin_op_node (fresh_walker [3; 8])))
    = prec (fresh_walker [3; 8]).
Proof.
  apply (proj1 (n_bin_op_prec preorder_kind bin_op_node _ _ _ (fresh_walker [3; 8])
                  (λ nd self, write_keeps_prec [node_kind nd] self)
                  eq_refl eq_refl eq_refl
                  (preorder_kind_returns _) (preorder_kind_returns _))).
  apply preorder_kind_returns.
Defined.

Lemma n_slice_no_bounds_witness :
  n_slice2 preorder_kind always_none slice_node (fresh_walker [3; 8])
  = (Raise GenericASTTraversalPruningException,
     exec (write [":"]) (fresh_walker [3; 8])).
Proof.
  exact (proj1 (n_slice_no_bounds preorder_kind always_none slice_node _ _
                  (fresh_walker [3; 8]) eq_refl eq_refl eq_refl eq_refl)).
Defined.

Lemma n_return_none_is_bare_witness :
  n_return preorder_kind (λ _, false) return_none_node scope_walker
  = (Raise GenericASTTraversalPruningException,
     exec (write ["    "; "return"];; println []) scope_walker).
Proof.
  exact (proj1 (proj1 (n_return_none_is_bare preorder_kind (λ _, false)
                         return_none_node _ _ _ _ _ scope_walker
                         eq_refl eq_refl eq_refl)
                  eq_refl eq_refl)).
Defined.

(** * The token list that [build_ast] hands to the parser *)

Import BuildAst.

Lemma last_two_app (front : list Token) (a b : Token) :
  last_two (front ++ [a; b]) = Some (a, b).
Proof. unfold last_two. rewrite rev_app_distr. reflexivity. Qed.

Lemma two_or_more_split (tokens : list Token) :
  (2 <= length tokens)%nat →
  ∃ front a b, tokens = (front ++ [a; b])%list.
Proof.
  intros Hlen.
  destruct (rev tokens) as [|b [|a r]] eqn:Hrev.
  - apply (f_equal (@length Token)) in Hrev. rewrite length_rev in Hrev.
    simpl in Hrev. lia.
  - apply (f_equal (@length Token)) in Hrev. rewrite length_rev in Hrev.
    simpl in Hrev. lia.
  - exists (rev r), a, b. rewrite <- (rev_involutive tokens), Hrev. simpl.
    rewrite <- app_assoc. reflexivity.
Qed.

Lemma firstn_front (front : list Token) (a b : Token) :
  firstn (length (front ++ [a; b]) - 2) (front ++ [a; b]) = front.
Proof.
  rewrite length_app. simpl.
  replace (length front + 2 - 2)%nat with (length front + 0)%nat by lia.
  rewrite firstn_app_2. simpl. apply app_nil_r.
Qed.

Lemma pair_eq_app (a b load_const last : Token) (front : list Token) :
  [a; b] = (front ++ [load_const; last])%list →
  front = [] ∧ a = load_const ∧ b = last.
Proof.
  intros Heq.
  assert (Hlen : length front = 0%nat).
  { apply (f_equal (@length Token)) in Heq. rewrite length_app in Heq.
    simpl in Heq. lia. }
  destruct front; [|discriminate Hlen].
  injection Heq as -> ->. auto.
Qed.

Section TokenFacts.

Variable Token_new : string → Token.

(** [Token(kind)] has the kind it is given. *)
Hypothesis Token_new_kind : ∀ k, kind (Token_new k) = k.

(** X23.  The token list of a lambda (lines 2523-2529): the parser gets one
    token more than [build_ast] was given, the last one being the
    [LAMBDA_MARKER]; no token before it has the kind [RETURN_END_IF] or
    [RETURN_VALUE], each keeps its operand and its offset, and its kind is
    the old one or the old one with [_LAMBDA] added.  The trailing
    [return None] is not hidden in this mode, whatever [hide_internal]. *)
Theorem build_ast_lambda_tokens (hide_internal noneInNames isTopLevel : bool)
    (tokens : list Token) :
  ∃ body,
    build_ast_tokens Token_new hide_internal true noneInNames isTopLevel tokens
    = ParseLambda (body ++ [Token_new "LAMBDA_MARKER"])%list
    ∧ length body = length tokens
    ∧ ∀ (i : nat) (t : Token),
        tokens !! i = Some t →
        ∃ t', body !! i = Some t'
              ∧ attr t' = attr t ∧ pattr t' = pattr t ∧ offset t' = offset t
              ∧ kind t' ≠ "RETURN_END_IF" ∧ kind t' ≠ "RETURN_VALUE"
              ∧ (kind t' = kind t ∨ kind t' = kind t +:+ "_LAMBDA").
Proof.
  exists (map relabel tokens). split; [reflexivity|].
  split; [apply length_map|].
  intros i t Hi. exists (relabel t).
  split; [rewrite list_lookup_fmap, Hi; reflexivity|].
  unfold relabel, lambda_kind. cbn [attr pattr offset kind].
  repeat split.
  - repeat case_bool_decide; congruence.
  - repeat case_bool_decide; congruence.
  - case_bool_decide as H1; [right; rewrite H1; reflexivity|].
    case_bool_decide as H2; [right; rewrite H2; reflexivity|left; reflexivity].
Qed.

Lemma hide_return_short (noneInNames isTopLevel : bool) (tokens : list Token) :
  (length tokens < 2)%nat →
  hide_return Token_new noneInNames isTopLevel tokens = tokens.
Proof.
  intros Hlen. unfold hide_return.
  replace (2 <=? length tokens)%nat with false
    by (symmetry; apply Nat.leb_gt; assumption).
  reflexivity.
Qed.

Lemma hide_return_long (noneInNames isTopLevel : bool) (front : list Token)
    (load_const last : Token) :
  hide_return Token_new noneInNames isTopLevel (front ++ [load_const; last])
  = if noneInNames then (front ++ [load_const; last])%list
    else if str_in (kind last) ["RETURN_VALUE"; "RETURN_VALUE_LAMBDA"] then
      if bool_decide (kind load_const = "LOAD_CONST")
         && (isTopLevel || bool_decide (pattr load_const = VNone))
      then front
      else (front ++ [load_const; last; Token_new "RETURN_LAST"])%list
    else (front ++ [load_const; last])%list.
Proof.
  unfold hide_return. rewrite last_two_app, firstn_front.
  replace (2 <=? length (front ++ [load_const; last]))%nat with true
    by (symmetry; apply Nat.leb_le; rewrite length_app; simpl; lia).
  destruct noneInNames; [reflexivity|]. cbn [negb andb].
  destruct (str_in (kind last) _); [|reflexivity].
  rewrite <- !app_assoc. cbn [app].
  destruct (bool_decide (kind load_const = "LOAD_CONST")); [|reflexivity].
  destruct (isTopLevel || bool_decide (pattr load_const = VNone)); reflexivity.
Qed.

(** X24.  When [build_ast] answers without parsing (lines 2555-2569): the
    constant tree [PASS] is returned exactly when [hide_internal] is set and
    the token list is empty, or is, with [noneInNames] off, the pair
    [LOAD_CONST; RETURN_VALUE] of a [return] that is hidden: at top level,
    or with the operand [None]. *)
Theorem build_ast_pass_iff (hide_internal noneInNames isTopLevel : bool)
    (tokens left_over : list Token) :
  build_ast_tokens Token_new hide_internal false noneInNames isTopLevel tokens
  = ReturnPASS left_over
  ↔ hide_internal = true ∧ left_over = []
    ∧ (tokens = []
       ∨ ∃ load_const last,
           tokens = [load_const; last] ∧ noneInNames = false
           ∧ str_in (kind last) ["RETURN_VALUE"; "RETURN_VALUE_LAMBDA"] = true
           ∧ kind load_const = "LOAD_CONST"
           ∧ (isTopLevel = true ∨ pattr load_const = VNone)).
Proof.
  unfold build_ast_tokens. destruct hide_internal; [|split; [discriminate|]].
  2: { intros (Hhide & _); discriminate. }
  destruct (le_lt_dec 2 (length tokens)) as [Hlong|Hshort].
  - destruct (two_or_more_split tokens Hlong) as (front & lc & rv & ->).
    rewrite hide_return_long.
    destruct noneInNames.
    { rewrite length_app. simpl.
      replace (length front + 2 =? 0)%nat with false
        by (symmetry; apply Nat.eqb_neq; lia).
      split; [discriminate|].
      intros (_ & _ & [Hnil|(a & b & _ & Hnone & _)]); [|discriminate].
      destruct front; discriminate. }
    destruct (str_in (kind rv) _) eqn:Hret.
    + destruct (bool_decide (kind lc = "LOAD_CONST")) eqn:Hlc; cbn [andb].
      * destruct (isTopLevel || bool_decide (pattr lc = VNone)) eqn:Hhidden.
        -- destruct front as [|t front]; cbn [length Nat.eqb].
           ++ split.
              ** intros [= <-]. split; [reflexivity|]. split; [reflexivity|].
                 right. exists lc, rv. repeat split; try reflexivity.
                 --- exact Hret.
                 --- apply bool_decide_eq_true in Hlc. exact Hlc.
                 --- apply orb_true_iff in Hhidden as [Htop|Hnone];
                       [left; assumption|right].
                     apply bool_decide_eq_true in Hnone. exact Hnone.
              ** intros (_ & -> & _). reflexivity.
           ++ split; [discriminate|].
              intros (_ & _ & [Hnil|(a & b & Heq & _)]); [discriminate|].
              apply (f_equal (@length Token)) in Heq.
              rewrite length_app in Heq. simpl in Heq. lia.
        -- rewrite length_app. simpl.
           replace (length front + 3 =? 0)%nat with false
             by (symmetry; apply Nat.eqb_neq; lia).
           split; [discriminate|].
           intros (_ & _ & [Hnil|(a & b & Heq & _ & _ & _ & Hwhy)]).
           ++ destruct front; discriminate.
           ++ symmetry in Heq. apply pair_eq_app in Heq as (-> & -> & ->).
              apply orb_false_iff in Hhidden as [Htop Hnone].
              destruct Hwhy as [Hwhy|Hwhy]; [congruence|].
              rewrite bool_decide_eq_true_2 in Hnone by assumption.
              discriminate.
      * rewrite length_app. simpl.
        replace (length front + 3 =? 0)%nat with false
          by (symmetry; apply Nat.eqb_neq; lia).
        split; [discriminate|].
        intros (_ & _ & [Hnil|(a & b & Heq & _ & _ & Hkind & _)]).
        -- destruct front; discriminate.
        -- symmetry in Heq. apply pair_eq_app in Heq as (-> & -> & ->).
           rewrite bool_decide_eq_true_2 in Hlc by assumption. discriminate.
    + rewrite length_app. simpl.
      replace (length front + 2 =? 0)%nat with false
        by (symmetry; apply Nat.eqb_neq; lia).
      split; [discriminate|].
      intros (_ & _ & [Hnil|(a & b & Heq & _ & Hkind & _)]).
      * destruct front; discriminate.
      * symmetry in Heq. apply pair_eq_app in Heq as (-> & -> & ->).
        congruence.
  - rewrite hide_return_short by assumption.
    destruct tokens as [|t [|t' tokens]]; cbn [length Nat.eqb].
    + split.
      * intros [= <-]. repeat split. left. reflexivity.
      * intros (_ & -> & _). reflexivity.
    + split; [discriminate|].
      intros (_ & _ & [Hnil|(a & b & Heq & _)]); discriminate.
    + simpl in Hshort. lia.
Qed.

(** X25.  The end marker and the reduction check (lines 2556-2567, and
    lines 21-22 of iflaststmt.py): when the list ends in a [RETURN_VALUE]
    that is not hidden, [build_ast] appends one token, and the check
    [iflaststmt], asked about a candidate that ends on that token, steps
    back onto the [RETURN_VALUE]. *)
Theorem build_ast_appends_return_last (isTopLevel : bool) (front : list Token)
    (value last : Token) :
  str_in (kind last) ["RETURN_VALUE"; "RETURN_VALUE_LAMBDA"] = true →
  kind value ≠ "LOAD_CONST" ∨ (isTopLevel = false ∧ pattr value ≠ VNone) →
  let tokens := (front ++ [value; last])%list in
  let marked := hide_return Token_new false isTopLevel tokens in
  marked = (tokens ++ [Token_new "RETURN_LAST"])%list
  ∧ adjust_last marked (Z.of_nat (length tokens))
    = Ret (Z.of_nat (length tokens) - 1)
  ∧ py_index marked (Z.of_nat (length tokens) - 1) = Ret last.
Proof.
  intros Hret Hshown tokens marked.
  assert (Hmarked : marked = (tokens ++ [Token_new "RETURN_LAST"])%list).
  { unfold marked, tokens. rewrite hide_return_long, Hret.
    rewrite <- app_assoc. cbn [app].
    destruct Hshown as [Hkind|[-> Hpattr]].
    - rewrite bool_decide_eq_false_2 by assumption. reflexivity.
    - rewrite (bool_decide_eq_false_2 (pattr value = VNone)) by assumption.
      rewrite andb_false_r. reflexivity. }
  split; [assumption|]. rewrite Hmarked.
  assert (Hlen : length tokens = (length front + 2)%nat)
    by (unfold tokens; rewrite length_app; reflexivity).
  split.
  - unfold adjust_last.
    rewrite (py_index_lookup _ _ (Token_new "RETURN_LAST")).
    + run_binds. unfold tok_is. rewrite Token_new_kind.
      rewrite bool_decide_eq_true_2 by reflexivity. reflexivity.
    + lia.
    + rewrite Nat2Z.id. rewrite lookup_app_r by lia.
      rewrite Nat.sub_diag. reflexivity.
  - apply py_index_lookup; [lia|].
    replace (Z.to_nat (Z.of_nat (length tokens) - 1)) with (length front + 1)%nat
      by lia.
    rewrite lookup_app_l by (rewrite Hlen; lia).
    unfold tokens. rewrite lookup_app_r by lia.
    replace (length front + 1 - length front)%nat with 1%nat by lia.
    reflexivity.
Qed.

End TokenFacts.

Lemma build_ast_lambda_tokens_witness :
  ∃ body,
    build_ast_tokens token_of_kind true true false true tokens_return_x
    = ParseLambda (body ++ [token_of_kind "LAMBDA_MARKER"])%list
    ∧ length body = 2%nat
    ∧ ∀ (i : nat) (t : Token),
        tokens_return_x !! i = Some t →
        ∃ t', body !! i = Some t'
              ∧ attr t' = attr t ∧ pattr t' = pattr t ∧ offset t' = offset t
              ∧ kind t' ≠ "RETURN_END_IF" ∧ kind t' ≠ "RETURN_VALUE"
              ∧ (kind t' = kind t ∨ kind t' = kind t +:+ "_LAMBDA").
Proof.
  exact (build_ast_lambda_tokens token_of_kind true false true tokens_return_x).
Defined.

Lemma build_ast_pass_iff_witness :
  build_ast_tokens token_of_kind true false false true tokens_return_none
  = ReturnPASS [].
Proof.
  apply (proj2 (build_ast_pass_iff token_of_kind true false true
                  tokens_return_none [])).
  split; [reflexivity|]. split; [reflexivity|]. right.
  exists (mkToken "LOAD_CONST" VNone VNone 0), (tok "RETURN_VALUE" VNone 2).
  repeat split; try reflexivity. left. reflexivity.
Defined.

Lemma build_ast_appends_return_last_witness :
  hide_return token_of_kind false false tokens_return_x
  = (tokens_return_x ++ [token_of_kind "RETURN_LAST"])%list
  ∧ adjust_last (hide_return token_of_kind false false tokens_return_x) 2
    = Ret 1
  ∧ py_index (hide_return token_of_kind false false tokens_return_x) 1
    = Ret (tok "RETURN_VALUE" VNone 2).
Proof.
  apply (build_ast_appends_return_last token_of_kind (λ k, eq_refl) false []
           (tok "LOAD_NAME" (VStr "x") 0) (tok "RETURN_VALUE" VNone 2)).
  - reflexivity.
  - left. discriminate.
Defined.

(** * The template table *)

Import Templates.



Section CustomizeFacts.

Variable version : list Z.
Variable PRECEDENCE : gmap string Z.

Lemma customize_subseteq (items : list (string * Z)) :
  ∀ TABLE_R : gmap string entry,
    TABLE_R ⊆ snd (customize version PRECEDENCE items TABLE_R).
Proof.
  induction items as [|[k v] items IH]; intros TABLE_R; cbn [customize].
  - reflexivity.
  - destruct (TABLE_R !! k) eqn:Hk; [apply IH|].
    destruct (customize_entry version PRECEDENCE k v) as [[e|]|err];
      [|apply IH|reflexivity].
    etransitivity; [|apply IH]. apply insert_subseteq. assumption.
Qed.

Lemma customize_only_items (items : list (string * Z)) :
  ∀ (TABLE_R : gmap string entry) (k : string),
    k ∉ items.*1 →
    snd (customize version PRECEDENCE items TABLE_R) !! k = TABLE_R !! k.
Proof.
  induction items as [|[k' v] items IH]; intros TABLE_R k Hk; cbn [customize].
  - reflexivity.
  - rewrite fmap_cons in Hk. cbn [fst] in Hk.
    apply not_elem_of_cons in Hk as [Hne Hk].
    destruct (TABLE_R !! k') eqn:Hk'; [apply IH; assumption|].
    destruct (customize_entry version PRECEDENCE k' v) as [[e|]|err];
      [|apply IH; assumption|reflexivity].
    rewrite IH by assumption. apply lookup_insert_ne. congruence.
Qed.

(** X26.  What [customize] does to the shared table (lines 2325-2409): an
    entry that is in the table when the method is called is there unchanged
    when it returns or raises, and a key that is not in the [customize]
    dict is neither added nor removed. *)
Theorem customize_frame (items : list (string * Z))
    (TABLE_R : gmap string entry) (k : string) :
  (∀ e, TABLE_R !! k = Some e →
        snd (customize version PRECEDENCE items TABLE_R) !! k = Some e)
  ∧ (k ∉ items.*1 →
     snd (customize version PRECEDENCE items TABLE_R) !! k = TABLE_R !! k).
Proof.
  split.
  - intros e He.
    exact (lookup_weaken _ _ _ _ He (customize_subseteq items TABLE_R)).
  - apply customize_only_items.
Qed.

Lemma customize_again (items : list (string * Z)) :
  ∀ TABLE_R filled larger : gmap string entry,
    customize version PRECEDENCE items TABLE_R = (Ret (), filled) →
    filled ⊆ larger →
    customize version PRECEDENCE items larger = (Ret (), larger).
Proof.
  induction items as [|[k v] items IH]; intros TABLE_R filled larger Hrun Hsub;
    cbn [customize] in *.
  - reflexivity.
  - destruct (TABLE_R !! k) as [e0|] eqn:Hk.
    + assert (Hin : larger !! k = Some e0).
      { eapply lookup_weaken; [|exact Hsub].
        eapply lookup_weaken; [exact Hk|].
        replace filled with (snd (customize version PRECEDENCE items TABLE_R))
          by (rewrite Hrun; reflexivity).
        apply customize_subseteq. }
      rewrite Hin. eapply IH; eassumption.
    + destruct (customize_entry version PRECEDENCE k v) as [[e|]|err] eqn:Hentry.
      * assert (Hin : larger !! k = Some e).
        { eapply lookup_weaken; [|exact Hsub].
          eapply lookup_weaken; [apply (lookup_insert_eq TABLE_R k e)|].
          replace filled
            with (snd (customize version PRECEDENCE items (<[k:=e]> TABLE_R)))
            by (rewrite Hrun; reflexivity).
          apply customize_subseteq. }
        rewrite Hin. eapply IH; eassumption.
      * destruct (larger !! k); eapply IH; eassumption.
      * discriminate Hrun.
Qed.

(** X27.  Calling [customize] again (the table is shared by every walker,
    and the method runs for every code object): after a call that returned,
    a second call with the same dict returns and leaves the table as the
    first call left it. *)
Theorem customize_idempotent (items : list (string * Z))
    (TABLE_R filled : gmap string entry) :
  customize version PRECEDENCE items TABLE_R = (Ret (), filled) →
  customize version PRECEDENCE items filled = (Ret (), filled).
Proof.
  intros Hrun. eapply customize_again; [exact Hrun|reflexivity].
Qed.


End CustomizeFacts.

Lemma customize_frame_witness :
  snd (customize [3; 8] precedence_yield customize_calls table_with_method)
    !! "CALL_METHOD_1"
  = Some ("%c.%c", [AInt 0; AInt 1]).
Proof.
  apply (proj1 (customize_frame [3; 8] precedence_yield customize_calls
                  table_with_method "CALL_METHOD_1")).
  reflexivity.
Defined.

Lemma customize_idempotent_witness :
  customize [3; 8] precedence_yield customize_calls
    (snd (customize [3; 8] precedence_yield customize_calls ∅))
  = (Ret (), snd (customize [3; 8] precedence_yield customize_calls ∅)).
Proof.
  apply (customize_idempotent [3; 8] precedence_yield customize_calls ∅).
  reflexivity.
Defined.


(** * The base classes of a class statement *)

Lemma leading_newlines_app_plain (l l' : list ascii) :
  l ≠ [] → leading_newlines l = 0%nat → leading_newlines (l ++ l') = 0%nat.
Proof.
  destruct l as [|c l]; [congruence|]. simpl.
  destruct (Ascii.eqb c nl); [discriminate|reflexivity].
Qed.

Lemma trailing_newlines_app_plain (a b : string) :
  b ≠ "" → trailing_newlines b = 0%nat → trailing_newlines (a +:+ b) = 0%nat.
Proof.
  intros Hne Hb. unfold trailing_newlines in *.
  rewrite list_ascii_of_string_app, rev_app_distr.
  apply leading_newlines_app_plain; [|assumption].
  destruct b as [|c b]; [congruence|]. simpl.
  intros Hnil. apply app_eq_nil in Hnil as [_ Hnil]. discriminate.
Qed.

Lemma starts_plain_app (a b : string) :
  starts_plain a = true → starts_plain (a +:+ b) = true.
Proof. destruct a; [discriminate|]. rewrite str_app_cons. intros H; exact H. Qed.

Lemma starts_plain_nonempty (a : string) : starts_plain a = true → a ≠ "".
Proof. destruct a; [discriminate|congruence]. Qed.

Lemma f_write_twice (a b : string) (self : SourceWalker) :
  f_write b (f_write a self) = f_write (a +:+ b) self.
Proof.
  destruct self as [ver [fs ind lam gl nl'] stack err pr rn mg pn ae nm dbg tx].
  unfold f_write, set_params. simpl. rewrite str_app_assoc. reflexivity.
Qed.

(** A write of text that neither starts nor ends with a newline, when no
    newline is pending, appends the text. *)
Lemma write_plain (data : list string) (self : SourceWalker) :
  starts_plain (String.concat "" data) = true →
  trailing_newlines (String.concat "" data) = 0%nat →
  pending_newlines self = 0%nat →
  write data self = (Ret (), f_write (String.concat "" data) self).
Proof.
  intros Hfirst Hlast Hpending.
  rewrite (write_text data (String.concat "" data) 0 self)
    by (rewrite ?str_app_nil_r; auto).
  rewrite Hpending, f_write_twice. f_equal.
  destruct self as [ver [fs ind lam gl nl'] stack err pr rn mg pn ae nm dbg tx].
  simpl in Hpending. subst pn. reflexivity.
Qed.

Section SuperClasses.

Variable preorder : node → M unit.

(** The text of a base class. *)
Variable render : node → string.

Lemma joined_concat (bases : list node) :
  joined_texts render "" bases = String.concat ", " (map render bases)
  ∧ joined_texts render ", " bases
    = match bases with
      | [] => ""
      | _ => ", " +:+ String.concat ", " (map render bases)
      end.
Proof.
  induction bases as [|elem bases [_ IH]]; [split; reflexivity|].
  cbn [joined_texts map]. rewrite IH.
  destruct bases as [|elem' bases]; cbn [map String.concat];
    rewrite ?str_app_nil_r, ?str_app_nil_l; split; reflexivity.
Qed.

Lemma joined_trailing (bases : list node) (sep : string) :
  (∀ elem, elem ∈ bases →
     starts_plain (render elem) = true
     ∧ trailing_newlines (render elem) = 0%nat) →
  bases ≠ [] →
  joined_texts render sep bases ≠ ""
  ∧ trailing_newlines (joined_texts render sep bases) = 0%nat.
Proof.
  revert sep. induction bases as [|elem bases IH]; intros sep Hplain Hne;
    [congruence|].
  cbn [joined_texts].
  destruct (Hplain elem (list_elem_of_here _ _)) as [Hfirst Hlast].
  pose proof (starts_plain_nonempty _ Hfirst) as Hrender.
  destruct bases as [|elem' bases].
  - cbn [joined_texts]. rewrite str_app_nil_r. split.
    + destruct sep; [rewrite str_app_nil_l; assumption|rewrite ?str_app_cons, ?str_app_nil_l; discriminate].
    + apply trailing_newlines_app_plain; assumption.
  - destruct (IH ", ") as [Hne' Hlast']; [|discriminate|].
    { intros e He. apply Hplain. apply list_elem_of_further. exact He. }
    split.
    + destruct sep; [|rewrite ?str_app_cons, ?str_app_nil_l; discriminate]. rewrite str_app_nil_l.
      destruct (render elem); [congruence|rewrite ?str_app_cons, ?str_app_nil_l; discriminate].
    + rewrite <- str_app_assoc.
      apply trailing_newlines_app_plain; assumption.
Qed.

Lemma write_super_classes_joined (bases : list node) :
  ∀ (sep : string) (self : SourceWalker),
    (∀ elem, elem ∈ bases →
       ∀ self', traverse preorder elem None false self'
                = (Ret (render elem), self')) →
    (∀ elem, elem ∈ bases →
       starts_plain (render elem) = true
       ∧ trailing_newlines (render elem) = 0%nat) →
    sep = "" ∨ sep = ", " →
    pending_newlines self = 0%nat →
    write_super_classes preorder sep bases self
    = (Ret (), f_write (joined_texts render sep bases) self).
Proof.
  induction bases as [|elem bases IH]; intros sep self Hrender Hplain Hsep Hpending.
  - cbn [write_super_classes joined_texts]. unfold f_write.
    destruct self as [ver [fs ind lam gl nl'] stack err pr rn mg pn ae nm dbg tx].
    simpl. rewrite str_app_nil_r. reflexivity.
  - cbn [write_super_classes joined_texts].
    rewrite bind_unfold, (Hrender elem (list_elem_of_here _ _)). cbv beta iota.
    destruct (Hplain elem (list_elem_of_here _ _)) as [Hfirst Hlast].
    assert (Hconcat : String.concat "" [sep; render elem] = sep +:+ render elem)
      by reflexivity.
    rewrite bind_unfold, write_plain; rewrite ?Hconcat; try assumption.
    + cbv beta iota. rewrite IH.
      * rewrite f_write_twice, str_app_assoc. reflexivity.
      * intros e He. apply Hrender. apply list_elem_of_further. exact He.
      * intros e He. apply Hplain. apply list_elem_of_further. exact He.
      * right. reflexivity.
      * destruct self. exact Hpending.
    + destruct Hsep as [-> | ->]; [rewrite str_app_nil_l; assumption|reflexivity].
    + apply trailing_newlines_app_plain;
        [apply starts_plain_nonempty|]; assumption.
Qed.

(** X29.  The base classes of a class (lines 1669-1687): when the render of
    every base through [traverse] returns its text and leaves the walker as
    it was, and no text starts or ends with a newline, then for a [tuple]
    node with one base or more the handler writes what one [write] of the
    texts, joined by a comma and a space and put in parentheses, writes.
    The last child of the node is not rendered. *)
Theorem print_super_classes_joined (bases : list node) (last_child : node)
    (self : SourceWalker) :
  (∀ elem, elem ∈ bases →
     ∀ self', traverse preorder elem None false self'
              = (Ret (render elem), self')) →
  (∀ elem, elem ∈ bases →
     starts_plain (render elem) = true
     ∧ trailing_newlines (render elem) = 0%nat) →
  bases ≠ [] →
  print_super_classes preorder (SyntaxTree "tuple" (bases ++ [last_child])) self
  = (Ret (),
     exec (write ["(" +:+ String.concat ", " (map render bases) +:+ ")"]) self).
Proof.
  intros Hrender Hplain Hne.
  unfold print_super_classes.
  change (node_is (SyntaxTree "tuple" _) "tuple") with true. cbv beta iota.
  rewrite removelast_last. run_M.
  replace (0 <? Z.of_nat (length bases)) with true
    by (symmetry; apply Z.ltb_lt; destruct bases; [congruence|simpl; lia]).
  cbn [orb]. cbv iota.
  destruct (joined_trailing bases "" Hplain Hne) as [Hjne Hjlast].
  rewrite (proj1 (joined_concat bases)) in Hjne, Hjlast.
  cbn [negb]. cbv iota. run_M.
  rewrite bind_unfold, (write_text ["("] "(" 0 self) by reflexivity.
  cbv beta iota.
  rewrite bind_unfold, write_super_classes_joined; auto.
  cbv beta iota.
  rewrite write_plain; [|reflexivity|reflexivity|reflexivity].
  unfold exec.
  rewrite (write_text _ ("(" +:+ String.concat ", " (map render bases) +:+ ")")
             0 self).
  - cbn [snd]. rewrite (proj1 (joined_concat bases)).
    change (String.concat "" [")"]) with ")".
    rewrite !f_write_twice.
    destruct self as [ver [fs ind lam gl nl'] stack err pr rn mg pn ae nm dbg tx].
    unfold f_write, set_params, set_pending_newlines. simpl.
    rewrite ?str_app_assoc. reflexivity.
  - cbn [String.concat]. rewrite str_app_nil_r. reflexivity.
  - reflexivity.
  - rewrite <- str_app_assoc. apply trailing_newlines_app_plain;
      [discriminate|reflexivity].
Qed.

End SuperClasses.

(** A render that writes the kind of the node: through [traverse] it
    returns the kind and leaves the walker as it was. *)
Lemma traverse_kind_scoped (nd : node) (self : SourceWalker) :
  starts_plain (node_kind nd) = true →
  trailing_newlines (node_kind nd) = 0%nat →
  traverse preorder_kind nd None false self = (Ret (node_kind nd), self).
Proof.
  intros Hfirst Hlast.
  rewrite (traverse_returns preorder_kind preorder_kind_keeps_stack nd None false
             self
             (set_pending_newlines 0
                (f_write (node_kind nd)
                   (f_write (newlines 0) (scope_entry self None false))))).
  - destruct self as [ver [fs ind lam gl nl'] stack err pr rn mg pn ae nm dbg tx].
    cbn. rewrite ?str_app_nil_l, ?str_app_nil_r. reflexivity.
  - unfold preorder_kind.
    apply (write_text [node_kind nd] (node_kind nd) 0); try assumption.
    cbn. rewrite str_app_nil_r. reflexivity.
Qed.

Lemma print_super_classes_joined_witness :
  print_super_classes preorder_kind bases_node (fresh_walker [3; 8])
  = (Ret (), exec (write ["(LOAD_NAME, LOAD_NAME)"]) (fresh_walker [3; 8])).
Proof.
  apply (print_super_classes_joined preorder_kind node_kind
           [Tok (load_name "A"); Tok (load_name "B")]
           (Tok (mkToken "BUILD_TUPLE_2" (VInt 2) (VInt 2) 4))
           (fresh_walker [3; 8])).
  - intros elem Hin self'. apply list_elem_of_In in Hin. simpl in Hin.
    destruct Hin as [<-|[<-|[]]]; apply traverse_kind_scoped; reflexivity.
  - intros elem Hin. apply list_elem_of_In in Hin. simpl in Hin.
    destruct Hin as [<-|[<-|[]]]; split; reflexivity.
  - discriminate.
Defined.

(** * Negative constants *)

Lemma decimal_negative (z : Z) : z < 0 → String.get 0 (decimal z) = Some "-"%char.
Proof. destruct z as [|p|p]; [lia|lia|reflexivity]. Qed.

Section NegativeConstants.

Variable preorder : node → M unit.
Variable PRECEDENCE : gmap string Z.

(** X30.  A negative constant under [n_expr] (lines 526-554): whatever the
    precedence table holds, the constant is rendered at precedence 6, in
    parentheses exactly when the precedence of the context is below 6, and
    the precedence of the context is put back afterwards. *)
Theorem n_expr_negative_constant (nd : node) (t : Token) (z : Z)
    (self : SourceWalker) :
  getitem nd 0 = Ret (Tok t) →
  kind t = "LOAD_CONST" →
  pattr t = VInt z →
  z < 0 →
  n_expr preorder PRECEDENCE nd self
  = ((if prec self <? 6
      then write ["("];; preorder (Tok t);; write [")"]
      else preorder (Tok t));;
     modify (set_prec (prec self));;
     prune) (set_prec 6 self).
Proof.
  intros Hfirst Hkind Hpattr Hz. unfold n_expr. rewrite Hfirst. run_M.
  change (node_kind (Tok t)) with (kind t). rewrite Hkind.
  change (startswith "LOAD_CONST" "bin_op") with false. run_M.
  unfold node_is. change (node_kind (Tok t)) with (kind t). rewrite Hkind.
  rewrite bool_decide_eq_true_2 by reflexivity. run_M.
  change (node_pattr (Tok t)) with (Ret (pattr t)). rewrite Hpattr. run_M.
  unfold py_repr. rewrite (decimal_negative z Hz).
  rewrite bool_decide_eq_true_2 by reflexivity. run_M.
  rewrite set_prec_twice. reflexivity.
Qed.

End NegativeConstants.

Lemma n_expr_negative_constant_witness :
  n_expr preorder_kind precedence_yield
    (SyntaxTree "expr" [Tok (mkToken "LOAD_CONST" (VInt (-1)) (VInt (-1)) 0)])
    (set_prec 4 (fresh_walker [3; 8]))
  = (Raise GenericASTTraversalPruningException,
     set_prec 4 (exec (write ["(LOAD_CONST)"]) (fresh_walker [3; 8]))).
Proof.
  etransitivity;
    [apply (n_expr_negative_constant preorder_kind precedence_yield
              (SyntaxTree "expr"
                 [Tok (mkToken "LOAD_CONST" (VInt (-1)) (VInt (-1)) 0)])
              (mkToken "LOAD_CONST" (VInt (-1)) (VInt (-1)) 0) (-1));
     [reflexivity|reflexivity|reflexivity|lia]
    |reflexivity].
Defined.
